(** * tinypic: compression engine, croppers, page splitter and archive pipeline

    A shallow embedding of [src/core/compressor.py], [src/core/cropper.py],
    [src/core/splitter.py] and [src/core/processor.py].

    Conventions of the embedding:
    - Python [int] is [Z]; Python [float] is an exact rational [Q]: the
      literals [0.15], [0.02], ... are the decimal fractions they denote and
      arithmetic on them is exact (binary64 rounding is not modelled);
    - [bytes] is [list byte], [str] is [string];
    - a raised exception is the [Raise] case of [Py.result]; [try/except
      Exception] is a [match] on it;
    - Pillow, NumPy's generator and mozjpeg are external: the pixel codecs,
      colour conversions and filters are operations of the class [Libs];
      raster geometry (size, crop, paste, point, getbbox, histogram) is
      modelled on explicit pixel rows. *)

From Stdlib Require Import ZArith QArith Qround List String Ascii Bool Lia.
From Stdlib Require Import Strings.Byte.
From Stdlib Require Import Permutation Sorted Lqa.
Import ListNotations.
Open Scope string_scope.
Open Scope list_scope.
Open Scope Z_scope.

(* ------------------------------------------------------------------ *)
(** ** Python values and exceptions *)

Module Py.

Inductive exn : Type :=
| ZeroDivisionError
| IndexError
| ValueError
| KeyError
| OSError (msg : string).

Inductive result (A : Type) : Type :=
| Ok (a : A)
| Raise (e : exn).
Arguments Ok {A} a.
Arguments Raise {A} e.

Definition bind {A B : Type} (c : result A) (k : A -> result B) : result B :=
  match c with
  | Ok a => k a
  | Raise e => Raise e
  end.

Definition str_exn (e : exn) : string :=
  match e with
  | ZeroDivisionError => "division by zero"
  | IndexError => "image index out of range"
  | ValueError => "invalid value"
  | KeyError => "missing key"
  | OSError msg => msg
  end.

(** [x < y] and [x <= y] on floats, as booleans. *)
Definition Qleb (x y : Q) : bool := Qle_bool x y.
Definition Qltb (x y : Q) : bool := negb (Qle_bool y x).

(** [max(x, y)] on floats: the first argument wins a tie. *)
Definition maxq (x y : Q) : Q := if Qltb x y then y else x.

(** [a / b] on ints: true division, [ZeroDivisionError] on a zero divisor. *)
Definition truediv (a b : Z) : result Q :=
  if b =? 0 then Raise ZeroDivisionError
  else Ok (inject_Z a / inject_Z b)%Q.

(** [int(x)] on a float: truncation toward zero. *)
Definition int_ (x : Q) : Z := Z.quot (Qnum x) (Zpos (Qden x)).

(** [len(b)] *)
Definition len {A : Type} (l : list A) : Z := Z.of_nat (List.length l).

(** [l[i]] with Python's negative indexing. *)
Definition getitem {A : Type} (l : list A) (i : Z) : result A :=
  let j := if i <? 0 then len l + i else i in
  if (j <? 0) || (len l <=? j) then Raise IndexError
  else match nth_error l (Z.to_nat j) with
       | Some a => Ok a
       | None => Raise IndexError
       end.

(** [range(start, start + n)] *)
Definition zrange (start n : Z) : list Z :=
  map (fun k => start + Z.of_nat k) (seq 0 (Z.to_nat n)).

(** Decimal digits of a non-negative int, most significant first. *)
Definition digit (d : Z) : ascii := ascii_of_nat (48 + Z.to_nat d).

Fixpoint digits (fuel : nat) (n : Z) (acc : string) : string :=
  match fuel with
  | O => acc
  | S fuel' =>
      let acc' := String (digit (n mod 10)) acc in
      if n <? 10 then acc' else digits fuel' (n / 10) acc'
  end.

(** [str(n)] on an int. *)
Definition str (n : Z) : string :=
  if n <? 0
  then String "-" (digits (S (Z.to_nat (Z.log2 (- n)))) (- n) "")
  else digits (S (Z.to_nat (Z.log2 n))) n "".

Fixpoint zeros (k : nat) : string :=
  match k with
  | O => EmptyString
  | S k' => String "0" (zeros k')
  end.

(** [f"{n:0{width}d}"]: sign-aware zero padding to a minimum width. *)
Definition format_0d (n width : Z) : string :=
  let s := if n <? 0 then str (- n) else str n in
  let sign := if n <? 0 then 1 else 0 in
  let pad := zeros (Z.to_nat (width - sign - Z.of_nat (String.length s))) in
  if n <? 0 then String "-" (pad ++ s) else (pad ++ s)%string.

End Py.

Import Py.
Notation "x <- c ;; k" := (Py.bind c (fun x => k))
  (at level 61, c at next level, right associativity).
Notation "' p <- c ;; k" := (Py.bind c (fun p => k))
  (at level 61, p pattern, c at next level, right associativity).

(* ------------------------------------------------------------------ *)
(** ** Pillow images *)

Module PIL.

(** One pixel: one value per band ([L] has one, [RGB] three). *)
Definition pixel := list Z.
Definition raster := list (list pixel).

Record Image : Type := mkImage {
  format : option string;
  mode : string;
  width : Z;
  height : Z;
  pixels : raster
}.

Definition box : Type := Z * Z * Z * Z.

Definition size (img : Image) : Z * Z := (width img, height img).

Definition bands (m : string) : nat :=
  if String.eqb m "L" || String.eqb m "1" || String.eqb m "P"
     || String.eqb m "I" || String.eqb m "F" then 1%nat
  else if String.eqb m "LA" || String.eqb m "PA" then 2%nat
  else if String.eqb m "RGB" || String.eqb m "YCbCr"
          || String.eqb m "LAB" || String.eqb m "HSV" then 3%nat
  else 4%nat.

Definition band (p : pixel) (k : nat) : Z := nth k p 0.

Definition in_image (img : Image) (x y : Z) : bool :=
  (0 <=? x) && (x <? width img) && (0 <=? y) && (y <? height img).

(** The stored pixel at [(x, y)]; all bands zero outside the image. *)
Definition pixel_at (img : Image) (x y : Z) : pixel :=
  if in_image img x y
  then nth (Z.to_nat x) (nth (Z.to_nat y) (pixels img) []) (repeat 0 (bands (mode img)))
  else repeat 0 (bands (mode img)).

(** [img.getpixel((x, y))]: negative coordinates count from the far edge;
    outside the image it raises [IndexError]. *)
Definition getpixel (img : Image) (xy : Z * Z) : result pixel :=
  let '(x, y) := xy in
  let x := if x <? 0 then width img + x else x in
  let y := if y <? 0 then height img + y else y in
  if in_image img x y then Ok (pixel_at img x y) else Raise IndexError.

(** [img.crop(box)]: the region is taken as given, zero-filled where it
    leaves the image; an inverted box raises [ValueError]. *)
Definition crop (img : Image) (b : box) : result Image :=
  let '(l, u, r, d) := b in
  if r <? l then Raise ValueError
  else if d <? u then Raise ValueError
  else Ok {| format := None;
             mode := mode img;
             width := r - l;
             height := d - u;
             pixels := map (fun y => map (fun x => pixel_at img x y) (zrange l (r - l)))
                           (zrange u (d - u)) |}.

(** [img.copy()] *)
Definition copy (img : Image) : Image :=
  {| format := None; mode := mode img; width := width img;
     height := height img; pixels := pixels img |}.

(** [img.point(f)] *)
Definition point (f : Z -> Z) (img : Image) : Image :=
  {| format := None; mode := mode img; width := width img;
     height := height img; pixels := map (map (map f)) (pixels img) |}.

(** [ImageOps.invert(img)] *)
Definition invert (img : Image) : Image := point (fun p => 255 - p) img.

(** [img.histogram()[v]] on a single-band image. *)
Definition histogram_at (img : Image) (v : Z) : Z :=
  len (filter (fun p => band p 0 =? v) (List.concat (pixels img))).

(** [img.paste(im=v, box=b)]: fill the part of the box inside the image. *)
Definition paste_color (img : Image) (v : Z) (b : box) : Image :=
  let '(l, u, r, d) := b in
  let fill := repeat v (bands (mode img)) in
  {| format := format img; mode := mode img; width := width img;
     height := height img;
     pixels :=
       map (fun yr : Z * list pixel =>
              let '(y, row) := yr in
              if (u <=? y) && (y <? d)
              then map (fun xp : Z * pixel =>
                          let '(x, p) := xp in
                          if (l <=? x) && (x <? r) then fill else p)
                       (combine (zrange 0 (len row)) row)
              else row)
           (combine (zrange 0 (len (pixels img))) (pixels img)) |}.

Definition nonzero (p : pixel) : bool := existsb (fun v => negb (v =? 0)) p.

(** [img.getbbox()]: the box of the non-zero pixels, [None] if there are none. *)
Definition getbbox (img : Image) : option box :=
  let marked :=
    flat_map (fun yr : Z * list pixel =>
                let '(y, row) := yr in
                map (fun xp : Z * pixel => (fst xp, y))
                    (filter (fun xp : Z * pixel => nonzero (snd xp))
                            (combine (zrange 0 (len row)) row)))
             (combine (zrange 0 (len (pixels img))) (pixels img)) in
  match marked with
  | [] => None
  | (x0, y0) :: rest =>
      Some (fold_left Z.min (map fst rest) x0,
            fold_left Z.min (map snd rest) y0,
            fold_left Z.max (map fst rest) x0 + 1,
            fold_left Z.max (map snd rest) y0 + 1)
  end.

(** [np.array(img)] of a single-band image. *)
Definition np_array (img : Image) : list (list Z) :=
  map (map (fun p => band p 0)) (pixels img).

(** [np.where(row <= t)[0]] *)
Definition np_where_le (row : list Z) (t : Z) : list Z :=
  map fst (filter (fun xv : Z * Z => snd xv <=? t) (combine (zrange 0 (len row)) row)).

(** Keyword arguments handed to [img.save]. *)
Record save_kwargs : Type := mkSave {
  kw_format : string;
  kw_quality : Z;
  kw_optimize : bool;
  kw_subsampling : option string;
  kw_progressive : option bool
}.

(** The external codecs and filters. [identify] is what [Image.open] reads
    (format, mode, width, height); [decode] is the pixel data read by the
    first operation that touches pixels. *)
Class Libs : Type := {
  identify : list byte -> result (option string * string * Z * Z);
  decode : list byte -> result raster;
  convert_raster : string -> string -> raster -> raster;
  composite_white : string -> raster -> raster;
  autocontrast_raster : Z -> raster -> raster;
  box_blur_raster : Z -> raster -> raster;
  jpeg_encode : Image -> save_kwargs -> result (list byte);
  mozjpeg : option (list byte -> result (list byte));
  random_choice : Z -> Z -> Z -> list Z
}.

Section Operations.
Context `{L : Libs}.

(** [Image.open(io.BytesIO(data))]: lazy, only the header is read. *)
Definition Image_open (data : list byte) : result Image :=
  '(f, m, w, h) <- identify data ;;
  Ok {| format := f; mode := m; width := w; height := h; pixels := [] |}.

(** [img.load()], implied by the first pixel access. *)
Definition load (data : list byte) (img : Image) : result Image :=
  r <- decode data ;;
  Ok {| format := format img; mode := mode img; width := width img;
        height := height img; pixels := r |}.

(** [img.convert(m)] *)
Definition convert (img : Image) (m : string) : Image :=
  {| format := None; mode := m; width := width img; height := height img;
     pixels := convert_raster (mode img) m (pixels img) |}.

(** [background = Image.new('RGB', img.size, (255, 255, 255));
     background.paste(img, mask=img.split()[-1])] *)
Definition paste_on_white (img : Image) : Image :=
  {| format := None; mode := "RGB"; width := width img; height := height img;
     pixels := composite_white (mode img) (pixels img) |}.

(** [ImageOps.grayscale(img)] *)
Definition grayscale (img : Image) : Image := convert img "L".

(** [ImageOps.autocontrast(img, cutoff)] *)
Definition autocontrast (img : Image) (cutoff : Z) : Image :=
  {| format := None; mode := mode img; width := width img; height := height img;
     pixels := autocontrast_raster cutoff (pixels img) |}.

(** [img.filter(ImageFilter.BoxBlur(radius))] *)
Definition BoxBlur (radius : Z) (img : Image) : Image :=
  {| format := None; mode := mode img; width := width img; height := height img;
     pixels := box_blur_raster radius (pixels img) |}.

(** [img.save(buf, **kwargs); buf.getvalue()] *)
Definition save (img : Image) (kw : save_kwargs) : result (list byte) :=
  jpeg_encode img kw.

End Operations.

End PIL.

Import PIL.

(* ------------------------------------------------------------------ *)
(** ** cropper.py *)

Module cropper.

(** A row segment or merged box [(x_min, x_max, y_min, y_max)], inclusive. *)
Definition bx : Type := Z * Z * Z * Z.
Definition b0 (b : bx) : Z := let '(a, _, _, _) := b in a.
Definition b1 (b : bx) : Z := let '(_, a, _, _) := b in a.
Definition b2 (b : bx) : Z := let '(_, _, a, _) := b in a.
Definition b3 (b : bx) : Z := let '(_, _, _, a) := b in a.

Definition threshold_from_power (power : Q) : Z :=
  Py.int_ (240 - power * 64)%Q.

(** One iteration of the loop of [group_close_values] on the state
    [(groups, group_start, group_end)]. *)
Definition group_step (max_dist_tolerated : Q)
    (st : list (Z * Z) * Z * Z) (v : Z) : list (Z * Z) * Z * Z :=
  let '(groups, group_start, group_end) := st in
  let dist := v - group_end in
  if group_start =? -1 then (groups, v, v)
  else if Qleb (inject_Z dist) max_dist_tolerated then (groups, group_start, v)
  else (groups ++ [(group_start, group_end)], -1, -1).

Definition group_close_values (vals : list Z) (max_dist_tolerated : Q)
    : list (Z * Z) :=
  let '(groups, group_start, group_end) :=
    fold_left (group_step max_dist_tolerated) vals ([], -1, 0) in
  if negb (group_start =? -1) then groups ++ [(group_start, group_end)]
  else groups.

Definition box_intersect (box1 box2 : bx) (max_dist : Q * Q) : bool :=
  negb (Qltb (inject_Z (b1 box1)) (inject_Z (b0 box2) - fst max_dist)%Q
        || Qltb (inject_Z (b1 box2) + fst max_dist)%Q (inject_Z (b0 box1))
        || Qltb (inject_Z (b3 box1)) (inject_Z (b2 box2) - snd max_dist)%Q
        || Qltb (inject_Z (b3 box2) + snd max_dist)%Q (inject_Z (b2 box1))).

(** [np.min(all_boxes[:, k])] and [np.max(all_boxes[:, k])] on [g1 :: rest]. *)
Definition col_min (f : bx -> Z) (g1 : bx) (rest : list bx) : Z :=
  fold_left Z.min (map f rest) (f g1).
Definition col_max (f : bx -> Z) (g1 : bx) (rest : list bx) : Z :=
  fold_left Z.max (map f rest) (f g1).

(** The [while j < len(boxes) - 1] loop of [merge_boxes]; one unit of fuel
    per iteration. *)
Fixpoint merge_loop (fuel : nat) (max_dist : Q * Q) (boxes : list bx) (j : nat)
    : option (list bx) :=
  match fuel with
  | O => None
  | S fuel' =>
      if (Z.of_nat j <? len boxes - 1) then
        match nth_error boxes j with
        | None => Some boxes
        | Some g1 =>
            let later := skipn (S j) boxes in
            let intersecting := filter (fun g2 => box_intersect g1 g2 max_dist) later in
            let other := filter (fun g2 => negb (box_intersect g1 g2 max_dist)) later in
            match intersecting with
            | [] => merge_loop fuel' max_dist boxes (S j)
            | _ :: _ =>
                let merged := (col_min b0 g1 intersecting, col_max b1 g1 intersecting,
                               col_min b2 g1 intersecting, col_max b3 g1 intersecting) in
                merge_loop fuel' max_dist (firstn j boxes ++ other ++ [merged]) 0
            end
        end
      else Some boxes
  end.

(** Iterations that always suffice: a merge shortens the list, a step
    without merge advances [j]. *)
Definition merge_fuel (boxes : list bx) : nat :=
  S (List.length boxes * S (List.length boxes)).

Definition merge_boxes (boxes : list bx) (max_dist : Q * Q) : list bx :=
  match merge_loop (merge_fuel boxes) max_dist boxes 0 with
  | Some merged => merged
  | None => boxes
  end.

(** Lines 193-207 of [crop_page_number]: the candidate selection. *)
Definition big_enough (W H : Z) (b : bx) : bool :=
  Qleb (inject_Z W * (3 # 1000))%Q (inject_Z (b1 b - b0 b))
  && Qleb (inject_Z H * (6 # 1000))%Q (inject_Z (b3 b - b2 b)).

Definition lowest_boxes (window_h : Z) (boxes : list bx) : list bx :=
  filter (fun b => b3 b =? window_h - 1) boxes.

Definition min_top (lowest : list bx) : Z :=
  match lowest with
  | [] => 0
  | b :: rest => fold_left Z.min (map b2 rest) (b2 b)
  end.

Definition boxes_in_range (min_y : Z) (boxes : list bx) : list bx :=
  filter (fun b => min_y <=? b3 b) boxes.

Definition max_shape (W H : Z) : Q * Q :=
  ((inject_Z W * ((15 # 1000) * 3))%Q,
   Py.maxq (inject_Z H * (2 # 100)) 3).

Definition within_max_shape (W H : Z) (b : bx) : bool :=
  Qleb (inject_Z (b1 b - b0 b)) (fst (max_shape W H))
  && Qleb (inject_Z (b3 b - b2 b)) (snd (max_shape W H)).

Definition should_crop (W H : Z) (in_range : list bx) : bool :=
  match in_range with
  | [b] => within_max_shape W H b
  | _ => false
  end.

(** Lines 193-221: from the merged boxes to the returned image. *)
Definition crop_decision (img : Image) (bot_y_pos window_h : Z) (merged : list bx)
    : result Image :=
  let boxes := filter (big_enough (width img) (height img)) merged in
  let lowest := lowest_boxes window_h boxes in
  match lowest with
  | [] => Ok img
  | _ :: _ =>
      let min_y := min_top lowest in
      let in_range := boxes_in_range min_y boxes in
      if should_crop (width img) (height img) in_range then
        match in_range with
        | b :: _ =>
            let crop_y := bot_y_pos - (window_h - b2 b + 1) in
            crop img (0, 0, width img, crop_y)
        | [] => Ok img
        end
      else Ok img
  end.

Section WithLibs.
Context `{L : Libs}.

Definition detect_background_color (img : Image) : result string :=
  let gray := if negb (String.eqb (mode img) "L") then grayscale img else img in
  let '(w, h) := size gray in
  c1 <- getpixel gray (5, 5) ;;
  c2 <- getpixel gray (w - 6, 5) ;;
  c3 <- getpixel gray (5, h - 6) ;;
  c4 <- getpixel gray (w - 6, h - 6) ;;
  let total := band c1 0 + band c2 0 + band c3 0 + band c4 0 in
  Ok (if Qltb 128 (inject_Z total / 4)%Q then "white" else "black").

(** One [for box in edge_boxes] iteration on the mask. *)
Definition clear_sparse_edge (bw_img : Image) (b : box) : result Image :=
  edge <- crop bw_img b ;;
  if (height edge =? 0) || (width edge =? 0) then Ok bw_img
  else
    imperfections <- Py.truediv (histogram_at edge 255) (height edge * width edge) ;;
    if Qltb 0 imperfections && Qltb imperfections (2 # 100)
    then Ok (paste_color bw_img 0 b)
    else Ok bw_img.

Definition ignore_pixels_near_edge (bw_img : Image) : result Image :=
  let '(w, h) := size bw_img in
  let edge_boxes :=
    [ (0, 0, w, Py.int_ ((2 # 100) * inject_Z h)%Q);
      (0, Py.int_ ((98 # 100) * inject_Z h)%Q, w, h);
      (0, 0, Py.int_ ((2 # 100) * inject_Z w)%Q, h);
      (Py.int_ ((98 # 100) * inject_Z w)%Q, 0, w, h) ] in
  fold_left (fun acc b => bw <- acc ;; clear_sparse_edge bw b) edge_boxes (Ok bw_img).

(** The steps shared by [crop_margins] (lines 94-114) and
    [crop_page_number] (lines 145-160): the blurred grey image and the
    binary content mask. *)
Definition content_mask (img : Image) (power : Q) : result (Image * Image) :=
  bg_color <- detect_background_color img ;;
  let gray := if negb (String.eqb (mode img) "L") then grayscale img else copy img in
  let gray := if negb (String.eqb bg_color "white") then invert gray else gray in
  let gray := BoxBlur 1 (autocontrast gray 1) in
  let threshold := threshold_from_power power in
  let bw_img := point (fun p => if p <=? threshold then 255 else 0) gray in
  bw_img <- ignore_pixels_near_edge bw_img ;;
  Ok (gray, bw_img).

Definition crop_margins (img : Image) (power : Q) : result Image :=
  if Qleb power 0 then Ok img
  else
    '(gray, bw_img) <- content_mask img power ;;
    match getbbox bw_img with
    | Some bbox => crop img bbox
    | None => Ok img
    end.

(** Lines 173-185: the row segments of the bottom window. *)
Definition window_groups (img gray : Image) (bw_bbox : box) (window_h threshold : Z)
    : result (list bx) :=
  let '(left_, top_y_pos, right_, bot_y_pos) := bw_bbox in
  img_part <- crop gray (left_, bot_y_pos - window_h, right_, bot_y_pos) ;;
  let img_part_mat := np_array img_part in
  Ok (flat_map
        (fun i =>
           let row := nth (Z.to_nat i) img_part_mat [] in
           let indices := np_where_le row threshold in
           map (fun g : Z * Z => (fst g, snd g, i, i))
               (group_close_values indices (inject_Z (width img) * (1 # 100))%Q))
        (zrange 0 (height img_part))).

(** Lines 138-191: everything up to the merged boxes. [None] stands for
    the early [return img] (no content, no window, no segment). *)
Definition page_number_boxes (img : Image) (power : Q)
    : result (option (Z * Z * list bx)) :=
  '(gray, bw_img) <- content_mask img power ;;
  match getbbox bw_img with
  | None => Ok None
  | Some bw_bbox =>
      let '(left_, top_y_pos, right_, bot_y_pos) := bw_bbox in
      let window_h := Py.int_ (inject_Z (height img) * ((2 # 100) * (125 # 100)))%Q in
      if window_h <=? 0 then Ok None
      else
        groups <- window_groups img gray bw_bbox window_h (threshold_from_power power) ;;
        match groups with
        | [] => Ok None
        | _ :: _ =>
            Ok (Some (bot_y_pos, window_h,
                      merge_boxes groups
                        ((inject_Z (width img) * (1 # 100))%Q,
                         (inject_Z (height img) * (2 # 1000))%Q)))
        end
  end.

Definition crop_page_number (img : Image) (power : Q) : result Image :=
  if Qleb power 0 then Ok img
  else
    found <- page_number_boxes img power ;;
    match found with
    | None => Ok img
    | Some (bot_y_pos, window_h, merged) => crop_decision img bot_y_pos window_h merged
    end.

Definition apply_crop (img : Image) (mode_ : string) (power : Q) : result Image :=
  if String.eqb mode_ "none" || Qleb power 0 then Ok img
  else
    result_ <- (if String.eqb mode_ "margins" || String.eqb mode_ "margins+page"
                then crop_margins img power else Ok img) ;;
    (if String.eqb mode_ "margins+page"
     then crop_page_number result_ power else Ok result_).

End WithLibs.

End cropper.

(* ------------------------------------------------------------------ *)
(** ** compressor.py *)

Module compressor.

Definition DEFAULT_QUALITY : Z := 72.

(** The step function of [estimate_jpeg_quality] (lines 76-85). *)
Definition quality_from_bpp (bytes_per_pixel : Q) : Z :=
  if Qltb bytes_per_pixel (15 # 100) then 60
  else if Qltb bytes_per_pixel (25 # 100) then 70
  else if Qltb bytes_per_pixel (4 # 10) then 80
  else if Qltb bytes_per_pixel (6 # 10) then 85
  else 90.

(** Lines 115-116 ([margin = 5]) and processor.py lines 88-89 ([margin = 8]). *)
Definition choose_quality (quality original_quality margin : Z) : Z :=
  let actual_quality := Z.min quality (original_quality - margin) in
  Z.max 60 actual_quality.

Record stats : Type := mkStats {
  st_original_size : Z;
  st_compressed_size : Z;
  st_ratio : Q;
  st_saved : Z;
  st_is_grayscale : bool;
  st_quality_used : Z;
  st_original_quality : Z
}.

Section WithLibs.
Context `{L : Libs}.

(** [is_grayscale_image], returning next to its answer the flat pixel
    indices it drew with [np.random.choice] (none on the early returns). *)
Definition is_grayscale_sampled (img : Image) (sample_size : Z) : bool * list Z :=
  if String.eqb (mode img) "L" then (true, [])
  else if negb (String.eqb (mode img) "RGB") then (false, [])
  else
    let '(h, w) := (height img, width img) in
    let sample_count := Z.min sample_size (h * w) in
    let indices := random_choice 42 (h * w) sample_count in
    let samples := map (fun i => pixel_at img (i mod w) (i / w)) indices in
    let threshold := 15 in
    let near :=
      filter (fun p => (Z.abs (band p 0 - band p 1) <? threshold)
                       && (Z.abs (band p 0 - band p 2) <? threshold)) samples in
    (* [np.mean] of an empty sample is nan, and [nan > 0.92] is false *)
    let answer :=
      if len samples =? 0 then false
      else Qltb (92 # 100) (inject_Z (len near) / inject_Z (len samples))%Q in
    (answer, indices).

Definition is_grayscale_image (img : Image) (sample_size : Z) : bool :=
  fst (is_grayscale_sampled img sample_size).

Definition estimate_jpeg_quality (image_data : list byte) : Z :=
  match
    (img <- Image_open image_data ;;
     if negb (match format img with
              | Some f => String.eqb f "JPEG"
              | None => false
              end)
     then Ok 95
     else
       let pixels_ := width img * height img in
       bytes_per_pixel <- Py.truediv (len image_data) pixels_ ;;
       Ok (quality_from_bpp bytes_per_pixel))
  with
  | Ok q => q
  | Raise _ => 80
  end.

(** Lines 121-133: flatten alpha and palette images onto white, keep
    [L], force everything else to [RGB]. *)
Definition normalize_mode (img : Image) : Image :=
  if String.eqb (mode img) "RGBA" || String.eqb (mode img) "P"
     || String.eqb (mode img) "LA"
  then
    let img := if String.eqb (mode img) "P" then convert img "RGBA" else img in
    if String.eqb (mode img) "RGBA" || String.eqb (mode img) "LA"
    then paste_on_white img
    else convert img "RGB"
  else if String.eqb (mode img) "L" then img
  else if negb (String.eqb (mode img) "RGB") then convert img "RGB"
  else img.

(** The [save_kwargs] dictionary (lines 146-154). *)
Definition jpeg_kwargs (img : Image) (actual_quality : Z) : save_kwargs :=
  if String.eqb (mode img) "RGB"
  then {| kw_format := "JPEG"; kw_quality := actual_quality; kw_optimize := true;
          kw_subsampling := Some "4:2:0"; kw_progressive := Some true |}
  else {| kw_format := "JPEG"; kw_quality := actual_quality; kw_optimize := true;
          kw_subsampling := None; kw_progressive := None |}.

(** Lines 109-154 of [compress_image]: everything before [img.save]. The
    pixel data is read right after [Image.open]; every path reads it
    before it returns, and nothing in between catches an exception. *)
Definition compress_prepare (image_data : list byte) (quality : Z)
    (crop_mode : string) (crop_power : Q) (force_grayscale : bool)
    : result (Image * save_kwargs * Z) :=
  let original_quality := estimate_jpeg_quality image_data in
  let actual_quality := choose_quality quality original_quality 5 in
  img <- Image_open image_data ;;
  img <- load image_data img ;;
  let img := normalize_mode img in
  img <- cropper.apply_crop img crop_mode crop_power ;;
  let is_gray :=
    force_grayscale
    || (String.eqb (mode img) "RGB" && is_grayscale_image img 2000) in
  let img := if is_gray && String.eqb (mode img) "RGB" then convert img "L" else img in
  Ok (img, jpeg_kwargs img actual_quality, original_quality).

(** [optimize_jpeg] under [try/except Exception: pass]. *)
Definition try_optimize (data : list byte) : list byte :=
  match mozjpeg with
  | Some optimize_jpeg =>
      match optimize_jpeg data with
      | Ok better => better
      | Raise _ => data
      end
  | None => data
  end.

Definition compress_image (image_data : list byte) (quality : Z)
    (crop_mode : string) (crop_power : Q) (force_grayscale : bool)
    : result (list byte * stats) :=
  let original_size := len image_data in
  '(img, save_kw, original_quality) <-
    compress_prepare image_data quality crop_mode crop_power force_grayscale ;;
  compressed_data <- save img save_kw ;;
  let compressed_data := try_optimize compressed_data in
  let compressed_size := len compressed_data in
  Ok (compressed_data,
      {| st_original_size := original_size;
         st_compressed_size := compressed_size;
         st_ratio := if 0 <? original_size
                     then (inject_Z compressed_size / inject_Z original_size)%Q
                     else 1%Q;
         st_saved := original_size - compressed_size;
         st_is_grayscale := String.eqb (mode img) "L";
         st_quality_used := kw_quality save_kw;
         st_original_quality := original_quality |}).

End WithLibs.

End compressor.

(* ------------------------------------------------------------------ *)
(** ** splitter.py *)

Module splitter.

Section WithLibs.
Context `{L : Libs}.

Definition is_wide_image (image_data : list byte) : bool :=
  match Image_open image_data with
  | Ok img => height img <? width img
  | Raise _ => false
  end.

(** Lines 59-64: the two halves, left first. *)
Definition halves (img : Image) : result (Image * Image) :=
  let '(w, h) := size img in
  let mid := w / 2 in
  left_half <- crop img (0, 0, mid, h) ;;
  right_half <- crop img (mid, 0, w, h) ;;
  Ok (left_half, right_half).

Definition split_kwargs : save_kwargs :=
  {| kw_format := "JPEG"; kw_quality := 95; kw_optimize := true;
     kw_subsampling := None; kw_progressive := None |}.

(** Lines 44-72 of [split_double_page]: the pages in output order. *)
Definition split_pages (image_data : list byte) (reading_order : string)
    : result (Image * Image) :=
  img <- Image_open image_data ;;
  img <- load image_data img ;;
  let img :=
    if String.eqb (mode img) "RGBA" || String.eqb (mode img) "LA"
       || String.eqb (mode img) "P"
    then
      let img := if String.eqb (mode img) "P" then convert img "RGBA" else img in
      if String.eqb (mode img) "RGBA" || String.eqb (mode img) "LA"
      then paste_on_white img
      else convert img "RGB"
    else if negb (String.eqb (mode img) "RGB") then convert img "RGB"
    else img in
  '(left_half, right_half) <- halves img ;;
  if String.eqb reading_order "rtl"
  then Ok (right_half, left_half)
  else Ok (left_half, right_half).

Definition split_double_page (image_data : list byte) (reading_order : string)
    : result (list byte * list byte) :=
  '(first_page, second_page) <- split_pages image_data reading_order ;;
  first_buffer <- save first_page split_kwargs ;;
  second_buffer <- save second_page split_kwargs ;;
  Ok (first_buffer, second_buffer).

Definition process_image_for_split (image_data : list byte) (is_cover : bool)
    (quality : Z) : result (list (list byte)) :=
  if is_cover then
    '(compressed, _) <- compressor.compress_image image_data quality "none" 1 false ;;
    Ok [compressed]
  else if is_wide_image image_data then
    '(first, second) <- split_double_page image_data "rtl" ;;
    Ok [first; second]
  else
    '(compressed, _) <- compressor.compress_image image_data quality "none" 1 false ;;
    Ok [compressed].

End WithLibs.

End splitter.

(* ------------------------------------------------------------------ *)
(** ** processor.py *)

Module processor.

(** A Python [dict] with int keys, in insertion order. *)
Definition dict (V : Type) : Type := list (Z * V).

Fixpoint dict_set {V : Type} (d : dict V) (k : Z) (v : V) : dict V :=
  match d with
  | [] => [(k, v)]
  | (k', v') :: rest =>
      if k' =? k then (k, v) :: rest else (k', v') :: dict_set rest k v
  end.

Fixpoint dict_get {V : Type} (d : dict V) (k : Z) : result V :=
  match d with
  | [] => Raise KeyError
  | (k', v') :: rest => if k' =? k then Ok v' else dict_get rest k
  end.

Definition keys {V : Type} (d : dict V) : list Z := map fst d.

(** [sorted(...)] on ints. *)
Fixpoint insert_sorted (k : Z) (l : list Z) : list Z :=
  match l with
  | [] => [k]
  | x :: rest => if k <=? x then k :: l else x :: insert_sorted k rest
  end.

Definition sorted (l : list Z) : list Z := fold_right insert_sorted [] l.

(** The tuple a worker takes and the tuple it returns. *)
Definition task : Type := Z * list byte * bool * Z * string * Q.
Definition page_result : Type := Z * bool * list (list byte) * Z.

Definition task_index (t : task) : Z :=
  let '(index, _, _, _, _, _) := t in index.
Definition result_index (r : page_result) : Z :=
  let '(index, _, _, _) := r in index.
Definition result_buffers (r : page_result) : list (list byte) :=
  let '(_, _, compressed_list, _) := r in compressed_list.
Definition result_is_double (r : page_result) : bool :=
  let '(_, is_double, _, _) := r in is_double.

Record ProcessorStats : Type := mkProcessorStats {
  total_files : Z;
  processed_files : Z;
  original_size : Z;
  compressed_size : Z;
  errors : list string
}.

Definition ProcessorStats_init : ProcessorStats :=
  {| total_files := 0; processed_files := 0; original_size := 0;
     compressed_size := 0; errors := [] |}.

(** The [ratio] property. *)
Definition ratio (self : ProcessorStats) : result Q :=
  if original_size self =? 0 then Ok 1%Q
  else Py.truediv (compressed_size self) (original_size self).

Inductive zip_method : Type := ZIP_STORED | ZIP_DEFLATED.

(** The archive being written: its compression method and its entries in
    the order of the [writestr] calls. *)
Record ZipFile : Type := mkZipFile {
  zf_compression : zip_method;
  zf_entries : list (string * list byte)
}.

Definition writestr (zf : ZipFile) (name : string) (data : list byte) : ZipFile :=
  {| zf_compression := zf_compression zf;
     zf_entries := zf_entries zf ++ [(name, data)] |}.

(** The inner [for compressed in compressed_list] loop on
    [(zf, stats.compressed_size, page)]. *)
Definition write_page (num_digits : Z) (st : ZipFile * Z * Z) (compressed : list byte)
    : ZipFile * Z * Z :=
  let '(zf, compressed_size_, page) := st in
  (writestr zf (Py.format_0d page num_digits ++ ".jpg")%string compressed,
   compressed_size_ + len compressed,
   page + 1).

(** One [for i in sorted(results.keys())] iteration. *)
Definition write_result (results : dict page_result) (num_digits : Z)
    (acc : result (ZipFile * ProcessorStats * Z)) (i : Z)
    : result (ZipFile * ProcessorStats * Z) :=
  '(zf, stats, page) <- acc ;;
  '(_, is_double, compressed_list, original_size_) <- dict_get results i ;;
  let '(zf, compressed_size_, page) :=
    fold_left (write_page num_digits) compressed_list
              (zf, compressed_size stats, page) in
  Ok (zf,
      {| total_files := total_files stats;
         processed_files := processed_files stats + 1;
         original_size := original_size stats + original_size_;
         compressed_size := compressed_size_;
         errors := errors stats |},
      page).

(** [TaskProcessor._write_results_to_cbz]: the archive written at
    [output_path] and the updated statistics. *)
Definition _write_results_to_cbz (results : dict page_result) (stats : ProcessorStats)
    : result (ZipFile * ProcessorStats) :=
  let num_digits := Z.of_nat (String.length (Py.str (len results * 2))) in
  let page := 1 in
  let zf := {| zf_compression := ZIP_STORED; zf_entries := [] |} in
  '(zf, stats, _) <-
    fold_left (write_result results num_digits) (sorted (keys results))
              (Ok (zf, stats, page)) ;;
  Ok (zf, stats).

Record TaskProcessor : Type := mkTaskProcessor {
  quality : Z;
  num_threads : Z;
  crop_mode : string;
  crop_power : Q
}.

Definition TaskProcessor_init (quality_ num_threads_ : Z) (crop_mode_ : string)
    (crop_power_ : Q) : TaskProcessor :=
  {| quality := quality_;
     num_threads := Z.max 1 (Z.min 100 num_threads_);
     crop_mode := crop_mode_;
     crop_power := crop_power_ |}.

Section WithLibs.
Context `{L : Libs}.

Definition is_wide_image (image_data : list byte) : bool :=
  match Image_open image_data with
  | Ok img => height img <? width img
  | Raise _ => false
  end.

(** Lines 110-114 of [split_and_compress]: the halves, right first. *)
Definition halves (img : Image) : result (Image * Image) :=
  let '(w, h) := size img in
  let mid := w / 2 in
  right_half <- crop img (mid, 0, w, h) ;;
  left_half <- crop img (0, 0, mid, h) ;;
  Ok (right_half, left_half).

(** Lines 87-135 of [split_and_compress]: the two pages handed to
    [save_optimized], each with its [save_kwargs]. *)
Definition split_prepare (image_data : list byte) (base_quality : Z)
    (crop_mode_ : string) (crop_power_ : Q)
    : result ((Image * save_kwargs) * (Image * save_kwargs)) :=
  let original_quality := compressor.estimate_jpeg_quality image_data in
  let actual_quality := compressor.choose_quality base_quality original_quality 8 in
  img <- Image_open image_data ;;
  img <- load image_data img ;;
  let img := compressor.normalize_mode img in
  let is_gray :=
    String.eqb (mode img) "L"
    || (String.eqb (mode img) "RGB" && compressor.is_grayscale_image img 2000) in
  '(right_half, left_half) <- halves img ;;
  right_half <- cropper.apply_crop right_half crop_mode_ crop_power_ ;;
  left_half <- cropper.apply_crop left_half crop_mode_ crop_power_ ;;
  let to_gray (part : Image) :=
    if is_gray && String.eqb (mode part) "RGB" then convert part "L" else part in
  let right_half := to_gray right_half in
  let left_half := to_gray left_half in
  Ok ((right_half, compressor.jpeg_kwargs right_half actual_quality),
      (left_half, compressor.jpeg_kwargs left_half actual_quality)).

Definition save_optimized (img_part : Image) (kw : save_kwargs) : result (list byte) :=
  data <- save img_part kw ;;
  Ok (compressor.try_optimize data).

Definition split_and_compress (image_data : list byte) (base_quality : Z)
    (crop_mode_ : string) (crop_power_ : Q) : result (list byte * list byte) :=
  '((right_half, kw_right), (left_half, kw_left)) <-
    split_prepare image_data base_quality crop_mode_ crop_power_ ;;
  first <- save_optimized right_half kw_right ;;
  second <- save_optimized left_half kw_left ;;
  Ok (first, second).

Definition process_single_image (args : task) : result page_result :=
  let '(index, image_data, is_cover, quality_, crop_mode_, crop_power_) := args in
  let original_size_ := len image_data in
  if is_cover || negb (is_wide_image image_data) then
    '(compressed, _) <-
      compressor.compress_image image_data quality_ crop_mode_ crop_power_ false ;;
    Ok (index, false, [compressed], original_size_)
  else
    '(first, second) <-
      split_and_compress image_data quality_ crop_mode_ crop_power_ ;;
    Ok (index, true, [first; second], original_size_).

(** The [for future in as_completed(futures)] loop. [completed] lists the
    submitted tasks in the order their futures complete; [cancelled k] is
    the value of [self._cancelled] read at iteration [k]. No progress
    callback is installed. *)
Fixpoint collect (completed : list task) (file_names : list string)
    (cancelled : nat -> bool) (k : nat)
    (results : dict page_result) (stats : ProcessorStats)
    : result (dict page_result * ProcessorStats) :=
  match completed with
  | [] => Ok (results, stats)
  | t :: rest =>
      if cancelled k then Ok (results, stats)
      else
        match process_single_image t with
        | Ok r =>
            collect rest file_names cancelled (S k)
                    (dict_set results (result_index r) r) stats
        | Raise e =>
            name <- Py.getitem file_names (task_index t) ;;
            collect rest file_names cancelled (S k) results
                    {| total_files := total_files stats;
                       processed_files := processed_files stats;
                       original_size := original_size stats;
                       compressed_size := compressed_size stats;
                       errors := errors stats ++ [(name ++ ": " ++ Py.str_exn e)%string] |}
        end
  end.

Definition _process_images_parallel (image_data_list completed : list task)
    (file_names : list string) (cancelled : nat -> bool)
    : result (dict page_result * ProcessorStats) :=
  let stats :=
    {| total_files := len image_data_list; processed_files := 0;
       original_size := 0; compressed_size := 0; errors := [] |} in
  collect completed file_names cancelled 0 [] stats.

End WithLibs.

(** [OUTPUT_SUFFIX] *)
Definition OUTPUT_SUFFIX : string := "_tinypic".

(** [s.endswith(suffix)] *)
Definition endswith (s suffix : string) : bool :=
  (String.length suffix <=? String.length s)%nat
  && String.eqb (substring (String.length s - String.length suffix)
                           (String.length suffix) s) suffix.

(** [s[:-k]] for a positive [k] *)
Definition drop_last (k : nat) (s : string) : string :=
  substring 0 (String.length s - k) s.

(** Lines 389-392 (and 416-419, 445-448): the file name of the output
    archive, from the stem of the input path. *)
Definition archive_output_name (stem : string) : string :=
  let stem :=
    if endswith stem OUTPUT_SUFFIX
    then drop_last (String.length OUTPUT_SUFFIX) stem
    else stem in
  (stem ++ OUTPUT_SUFFIX ++ ".cbz")%string.

(** Line 371: the output archive of a folder, from the folder name. *)
Definition folder_output_name (name : string) : string :=
  (name ++ OUTPUT_SUFFIX ++ ".cbz")%string.

(** File names are modelled as strings of 7-bit ASCII characters: on them
    [str.isdigit] and the pattern [\d] are the digits 0-9 and [str.lower]
    maps A-Z to a-z. *)
Definition is_digit (c : ascii) : bool :=
  (48 <=? nat_of_ascii c)%nat && (nat_of_ascii c <=? 57)%nat.

Definition lower_char (c : ascii) : ascii :=
  if (65 <=? nat_of_ascii c)%nat && (nat_of_ascii c <=? 90)%nat
  then ascii_of_nat (nat_of_ascii c + 32)
  else c.

(** [s.lower()] *)
Fixpoint lower (s : string) : string :=
  match s with
  | EmptyString => EmptyString
  | String c s' => String (lower_char c) (lower s')
  end.

(** [s.isdigit()]: false on the empty string. *)
Definition isdigit (s : string) : bool :=
  match s with
  | EmptyString => false
  | String _ _ => forallb is_digit (list_ascii_of_string s)
  end.

(** [int(s)] on a run of digits (leading zeros allowed). Recent Pythons
    refuse runs of more than 4300 digits; the theorems assume shorter names. *)
Definition int_of_digits (s : string) : Z :=
  fold_left (fun acc c => acc * 10 + (Z.of_nat (nat_of_ascii c) - 48))
            (list_ascii_of_string s) 0.

(** [re.split(r'(\d+)', s)]: the text between the digit runs and the digit
    runs themselves, alternating, text first and last. [piece] is the piece
    being read, [in_digits] tells whether it is a digit run. *)
Fixpoint re_split (s : string) (piece : string) (in_digits : bool) : list string :=
  match s with
  | EmptyString => if in_digits then [piece; EmptyString] else [piece]
  | String c s' =>
      if is_digit c then
        if in_digits then re_split s' (piece ++ String c EmptyString)%string true
        else piece :: re_split s' (String c EmptyString) true
      else
        if in_digits then piece :: re_split s' (String c EmptyString) false
        else re_split s' (piece ++ String c EmptyString)%string false
  end.

Definition re_split_digits (s : string) : list string := re_split s EmptyString false.

(** An element of a sort key: an int or a lower-cased str. *)
Inductive key_part : Type :=
| KInt (n : Z)
| KStr (s : string).

Definition natural_sort_key (s : string) : list key_part :=
  map (fun c => if isdigit c then KInt (int_of_digits c) else KStr (lower c))
      (re_split_digits s).

(** [a < b] on two keys: the first differing elements decide, a proper
    prefix is smaller. [None] is the [TypeError] of comparing an int with a
    str. *)
Fixpoint key_lt (a b : list key_part) : option bool :=
  match a, b with
  | [], [] => Some false
  | [], _ :: _ => Some true
  | _ :: _, [] => Some false
  | KInt x :: a', KInt y :: b' => if x =? y then key_lt a' b' else Some (x <? y)
  | KStr x :: a', KStr y :: b' =>
      if String.eqb x y then key_lt a' b' else Some (String.ltb x y)
  | _ :: _, _ :: _ => None
  end.

(** The loop of lines 401-407 (and 373-380, 429-436, 455-460): one task per
    page, numbered from 0, the first one the cover. *)
Definition make_tasks (self : TaskProcessor) (pages : list (list byte)) : list task :=
  map (fun ip : Z * list byte =>
         (fst ip, snd ip, fst ip =? 0, quality self, crop_mode self, crop_power self))
      (combine (zrange 0 (len pages)) pages).

Section Batch.
Context `{L : Libs}.

(** The common body of [_process_folder] and [_process_archive] once the
    sorted image entries [(name, data)] are read: build the tasks, run them,
    write the archive. [completed] and [cancelled] are as in [collect]. *)
Definition process_entries (self : TaskProcessor) (entries : list (string * list byte))
    (completed : list task) (cancelled : nat -> bool)
    : result (ZipFile * ProcessorStats) :=
  let image_data_list := make_tasks self (map snd entries) in
  let file_names := map fst entries in
  '(results, stats) <-
    _process_images_parallel image_data_list completed file_names cancelled ;;
  _write_results_to_cbz results stats.

(** [_process_rar] and [_process_epub] refuse a source without images. *)
Definition process_entries_required (self : TaskProcessor)
    (entries : list (string * list byte))
    (completed : list task) (cancelled : nat -> bool)
    : result (ZipFile * ProcessorStats) :=
  match entries with
  | [] => Raise ValueError
  | _ :: _ => process_entries self entries completed cancelled
  end.

End Batch.

End processor.

(* ------------------------------------------------------------------ *)
(** ** An executable instance of the external libraries

    A miniature raster container stands in for Pillow's codecs so that the
    program can be run on concrete pages: seven header bytes (format tag,
    mode tag, width and height on two bytes each, quality) followed by the
    raw samples. The filters follow Pillow's [ImageOps.autocontrast] and
    [BoxBlur] on single-band images. The universal theorems below hold for
    every instance of [Libs]; this one only runs the examples. *)

Module Reference.

Definition Z_of_byte (b : byte) : Z := Z.of_N (Byte.to_N b).

Definition byte_of_Z (z : Z) : byte :=
  match Byte.of_N (Z.to_N (z mod 256)) with
  | Some b => b
  | None => x00
  end.

Definition mode_of_tag (b : byte) : string :=
  if Z_of_byte b =? 76 then "L"
  else if Z_of_byte b =? 82 then "RGB"
  else if Z_of_byte b =? 65 then "RGBA"
  else "P".

Definition tag_of_mode (m : string) : byte :=
  if String.eqb m "L" then byte_of_Z 76
  else if String.eqb m "RGB" then byte_of_Z 82
  else if String.eqb m "RGBA" then byte_of_Z 65
  else byte_of_Z 80.

Definition ref_identify (data : list byte)
    : result (option string * string * Z * Z) :=
  match data with
  | tag :: m :: wh :: wl :: hh :: hl :: _ :: _ =>
      let w := Z_of_byte wh * 256 + Z_of_byte wl in
      let h := Z_of_byte hh * 256 + Z_of_byte hl in
      if Z_of_byte tag =? 74 then Ok (Some "JPEG", mode_of_tag m, w, h)
      else if Z_of_byte tag =? 80 then Ok (Some "PNG", mode_of_tag m, w, h)
      else Raise (OSError "cannot identify image file")
  | _ => Raise (OSError "cannot identify image file")
  end.

(** Cut a flat list into [n] chunks of [k] elements. *)
Fixpoint chunks {A : Type} (n k : nat) (l : list A) : list (list A) :=
  match n with
  | O => []
  | S n' => firstn k l :: chunks n' k (skipn k l)
  end.

Definition ref_decode (data : list byte) : result raster :=
  '(_, m, w, h) <- ref_identify data ;;
  let payload := map Z_of_byte (skipn 7 data) in
  if len payload <? w * h * Z.of_nat (bands m)
  then Raise (OSError "image file is truncated")
  else Ok (map (chunks (Z.to_nat w) (bands m))
               (chunks (Z.to_nat h) (Z.to_nat w * bands m) payload)).

Definition header (tag : Z) (img : Image) (q : Z) : list byte :=
  [ byte_of_Z tag; tag_of_mode (mode img);
    byte_of_Z (width img / 256); byte_of_Z (width img);
    byte_of_Z (height img / 256); byte_of_Z (height img);
    byte_of_Z q ].

(** The file holding [img], with format tag [tag] (74 is JPEG). *)
Definition file_of (tag : Z) (img : Image) (q : Z) : list byte :=
  header tag img q ++ map byte_of_Z (List.concat (List.concat (pixels img))).

Definition ref_encode (img : Image) (kw : save_kwargs) : result (list byte) :=
  if (width img <=? 0) || (height img <=? 0)
  then Raise (OSError "cannot write empty image as JPEG")
  else if negb (String.eqb (mode img) "L" || String.eqb (mode img) "RGB")
  then Raise (OSError "cannot write mode as JPEG")
  else Ok (file_of 74 img (kw_quality kw)).

Definition luma (p : pixel) : Z :=
  Z.shiftr (band p 0 * 19595 + band p 1 * 38470 + band p 2 * 7471 + 32768) 16.

Definition ref_convert (src dst : string) (r : raster) : raster :=
  if String.eqb src dst then r
  else if String.eqb dst "L" then map (map (fun p => [luma p])) r
  else if String.eqb src "L"
  then map (map (fun p => repeat (band p 0) (bands dst))) r
  else map (map (fun p => firstn (bands dst) (p ++ [255; 255; 255; 255]))) r.

Definition over_white (p : pixel) (alpha : Z) : pixel :=
  map (fun v => (v * alpha + 255 * (255 - alpha) + 127) / 255) p.

Definition ref_composite (src : string) (r : raster) : raster :=
  if String.eqb src "RGBA"
  then map (map (fun p => over_white (firstn 3 p) (band p 3))) r
  else map (map (fun p => over_white (repeat (band p 0) 3) (band p 1))) r.

(** [ImageOps.autocontrast]: drop [cutoff] percent of the samples at each
    end of the histogram, then stretch what is left over [0, 255]. *)
Fixpoint trim (cut : Z) (h : list Z) : list Z :=
  match h with
  | [] => []
  | c :: rest =>
      if c <? cut then 0 :: trim (cut - c) rest else (c - cut) :: rest
  end.

Fixpoint first_nonzero (h : list Z) (i : Z) : Z :=
  match h with
  | [] => i - 1
  | c :: rest => if c =? 0 then first_nonzero rest (i + 1) else i
  end.

Definition ref_autocontrast (cutoff : Z) (r : raster) : raster :=
  let samples := map (fun p => band p 0) (List.concat r) in
  let present :=
    fold_left (fun seen v => if existsb (Z.eqb v) seen then seen else v :: seen)
              samples [] in
  let hist :=
    map (fun v => if existsb (Z.eqb v) present
                  then len (filter (Z.eqb v) samples) else 0) (zrange 0 256) in
  let n := len samples in
  let cut := n * cutoff / 100 in
  let hist := trim cut hist in
  let hist := rev (trim cut (rev hist)) in
  let lo := first_nonzero hist 0 in
  let hi := 255 - first_nonzero (rev hist) 0 in
  if hi <=? lo then r
  else
    let lut (ix : Z) :=
      Z.max 0 (Z.min 255 (Py.int_ (inject_Z ix * (255 # 1) / inject_Z (hi - lo)
                                  - inject_Z lo * (255 # 1) / inject_Z (hi - lo))%Q)) in
    map (map (map lut)) r.

(** [BoxBlur]: a horizontal then a vertical pass of a [2 * radius + 1]
    mean, the border sample repeated outside the line. *)
Fixpoint window_sums (k n : nat) (l : list Z) : list Z :=
  match n with
  | O => []
  | S n' => fold_left Z.add (firstn k l) 0 :: window_sums k n' (tl l)
  end.

Definition blur_line (radius : Z) (line : list Z) : list Z :=
  let r := Z.to_nat radius in
  let ww := 16777216 / (2 * radius + 1) in
  let padded := repeat (hd 0 line) r ++ line ++ repeat (last line 0) r in
  map (fun acc => Z.shiftr (acc * ww + 8388608) 24)
      (window_sums (2 * r + 1) (List.length line) padded).

Fixpoint transpose (rows : list (list Z)) : list (list Z) :=
  match rows with
  | [] => []
  | [row] => map (fun v => [v]) row
  | row :: rest => map (fun vc : Z * list Z => fst vc :: snd vc)
                       (combine row (transpose rest))
  end.

Definition ref_box_blur (radius : Z) (r : raster) : raster :=
  let plane := map (map (fun p => band p 0)) r in
  let plane := map (blur_line radius) plane in
  let plane := transpose (map (blur_line radius) (transpose plane)) in
  map (map (fun v => [v])) plane.

#[export] Instance RefLibs : Libs := {|
  identify := ref_identify;
  decode := ref_decode;
  convert_raster := ref_convert;
  composite_white := ref_composite;
  autocontrast_raster := ref_autocontrast;
  box_blur_raster := ref_box_blur;
  jpeg_encode := ref_encode;
  mozjpeg := None;
  random_choice := fun _ n k => zrange 0 (Z.min n k)
|}.

(** A single-band page painted by a predicate: black where [ink x y]. *)
Definition page (w h : Z) (ink : Z -> Z -> bool) : Image :=
  {| format := None; mode := "L"; width := w; height := h;
     pixels := map (fun y => map (fun x => if ink x y then [0] else [255]) (zrange 0 w))
                   (zrange 0 h) |}.

Definition within (l u r d x y : Z) : bool :=
  (l <=? x) && (x <? r) && (u <=? y) && (y <? d).

(** 20 x 20, white, with a black 8 x 8 block in the middle. *)
Definition bordered_page : Image := page 20 20 (within 6 6 14 14).

(** 5 x 3, wider than tall, black in its two leftmost columns. *)
Definition spread : Image := page 5 3 (within 0 0 2 3).

(** 100 x 500: artwork in rows 100-399 and a 2 x 6 page number in rows
    470-475, columns 49-50. [twin_numbered_page] carries a second such mark
    in columns 69-70. *)
Definition numbered_page : Image :=
  page 100 500 (fun x y => within 10 100 90 400 x y || within 49 470 51 476 x y).

Definition twin_numbered_page : Image :=
  page 100 500 (fun x y => within 10 100 90 400 x y || within 49 470 51 476 x y
                           || within 69 470 71 476 x y).

(** Sample files: [spread] stored as JPEG and as PNG, bytes that are no
    image at all, and a JPEG header announcing 100 x 100 pixels that are
    not there. *)
Definition spread_jpeg : list byte := file_of 74 spread 90.
Definition spread_png : list byte := file_of 80 spread 0.
Definition garbage : list byte := [x00; x01].
Definition truncated_jpeg : list byte :=
  header 74 {| format := None; mode := "L"; width := 100; height := 100; pixels := [] |} 90.
Definition bordered_jpeg : list byte := file_of 74 bordered_page 90.

(** A batch of three pages in input order, and the order in which their
    workers happen to finish. *)
Definition batch : list processor.task :=
  [ (0, spread_jpeg, true, 72, "none", 1%Q);
    (1, spread_jpeg, false, 72, "none", 1%Q);
    (2, spread_png, false, 72, "none", 1%Q) ].

Definition batch_completed : list processor.task :=
  [ (2, spread_png, false, 72, "none", 1%Q);
    (0, spread_jpeg, true, 72, "none", 1%Q);
    (1, spread_jpeg, false, 72, "none", 1%Q) ].

Definition batch_names : list string := ["a.jpg"; "b.jpg"; "c.png"].

(** Five single-page results, keyed 0 to 4, inserted out of order. *)
Definition five_pages : processor.dict processor.page_result :=
  map (fun k => (k, (k, false, [[byte_of_Z k]], 10))) [3; 0; 4; 1; 2].

End Reference.

(* ------------------------------------------------------------------ *)
(** ** Vocabulary of the statements *)

(** The buffers stored under key [k]. *)
Definition buffers_of (results : processor.dict processor.page_result) (k : Z)
    : list (list byte) :=
  match processor.dict_get results k with
  | Ok r => processor.result_buffers r
  | Raise _ => []
  end.

(** Consecutive entries from page number [page] on. *)
Fixpoint number_pages (num_digits page : Z) (bufs : list (list byte))
    : list (string * list byte) :=
  match bufs with
  | [] => []
  | b :: rest =>
      ((Py.format_0d page num_digits ++ ".jpg")%string, b)
      :: number_pages num_digits (page + 1) rest
  end.

(** Number of digits produced by [Py.digits]. *)
Fixpoint digit_count (fuel : nat) (n : Z) : nat :=
  match fuel with
  | O => O
  | S fuel' => if n <? 10 then 1%nat else S (digit_count fuel' (n / 10))
  end.

Section Contributions.
Context `{L : Libs}.

(** What the task [t] contributes to the archive. *)
Definition page_buffers (t : processor.task) : list (list byte) :=
  match processor.process_single_image t with
  | Ok r => processor.result_buffers r
  | Raise _ => []
  end.

(** The dictionary entries of the tasks that succeed, in the given order. *)
Definition successes (tasks : list processor.task)
    : processor.dict processor.page_result :=
  flat_map (fun t => match processor.process_single_image t with
                     | Ok r => [(processor.task_index t, r)]
                     | Raise _ => []
                     end) tasks.

End Contributions.

(** The claim as the specification words it: first page [W/2] wide, second
    page [W - W/2] wide. *)
Definition first_page_is_floor_half : Prop :=
  forall (img first second : Image),
    0 <= height img < width img ->
    processor.halves img = Ok (first, second) ->
    width first = width img / 2 /\ width second = width img - width img / 2.

(** The claim as the specification words it: whatever the crop mode and
    power, a cover comes out as it does with cropping switched off. *)
Definition cover_never_cropped : Prop :=
  forall (L : Libs) (index : Z) (image_data : list byte) (quality : Z)
         (crop_mode : string) (crop_power : Q),
    processor.process_single_image (index, image_data, true, quality, crop_mode, crop_power)
    = processor.process_single_image (index, image_data, true, quality, "none", crop_power).

(** The claim as the specification words it: the page field is as wide as
    the decimal form of the number of pages written. *)
Definition names_padded_to_page_count : Prop :=
  forall (results : processor.dict processor.page_result)
         (stats stats' : processor.ProcessorStats) (zf : processor.ZipFile),
    NoDup (processor.keys results) ->
    processor._write_results_to_cbz results stats = Ok (zf, stats') ->
    forall (i : nat) (name : string) (data : list byte),
      nth_error (processor.zf_entries zf) i = Some (name, data) ->
      name = (Py.format_0d (Z.of_nat i + 1)
                (Z.of_nat (String.length
                             (Py.str (Py.len (processor.zf_entries zf))))) ++ ".jpg")%string.

(** *** Vocabulary of the further properties *)

(** The box [b] lies inside the box [c]. *)
Definition inside (b c : cropper.bx) : Prop :=
  cropper.b0 c <= cropper.b0 b /\ cropper.b1 b <= cropper.b1 c /\
  cropper.b2 c <= cropper.b2 b /\ cropper.b3 b <= cropper.b3 c.

(** No box of the list intersects a later one. *)
Definition pairwise_apart (max_dist : Q * Q) (boxes : list cropper.bx) : Prop :=
  forall (i k : nat) (gi gk : cropper.bx),
    (i < k)%nat -> nth_error boxes i = Some gi -> nth_error boxes k = Some gk ->
    cropper.box_intersect gi gk max_dist = false.

(** Each value is at most [d] after the one before it, [prev] first. *)
Fixpoint within_tolerance (d : Q) (prev : Z) (vals : list Z) : Prop :=
  match vals with
  | [] => True
  | v :: rest => (inject_Z (v - prev) <= d)%Q /\ within_tolerance d v rest
  end.

(** The futures the [as_completed] loop handles before it reads
    [_cancelled] as true; [k] is the iteration reached. *)
Fixpoint consumed (cancelled : nat -> bool) (k : nat) (completed : list processor.task)
    : list processor.task :=
  match completed with
  | [] => []
  | t :: rest => if cancelled k then [] else t :: consumed cancelled (S k) rest
  end.

Section Failures.
Context `{L : Libs}.

(** The error lines of the tasks that raise, in the given order. *)
Definition failures (file_names : list string) (tasks : list processor.task)
    : list string :=
  flat_map (fun t => match processor.process_single_image t with
                     | Ok _ => []
                     | Raise e =>
                         match Py.getitem file_names (processor.task_index t) with
                         | Ok name => [(name ++ ": " ++ Py.str_exn e)%string]
                         | Raise _ => []
                         end
                     end) tasks.

End Failures.

(** Total number of bytes of a list of buffers. *)
Definition total_len (bufs : list (list byte)) : Z :=
  fold_right (fun b acc => Py.len b + acc) 0 bufs.

(** Sum of the [original_size] fields of the results stored under [ks]. *)
Definition originals_of (results : processor.dict processor.page_result) (ks : list Z) : Z :=
  fold_right (fun k acc =>
                match processor.dict_get results k with
                | Ok (_, _, _, original_size) => original_size + acc
                | Raise _ => acc
                end) 0 ks.

(** Sum of the [original_size] fields of all the results. *)
Definition originals (results : processor.dict processor.page_result) : Z :=
  fold_right (fun kr acc =>
                let '(_, (_, _, _, original_size)) := kr : Z * processor.page_result in
                original_size + acc) 0 results.

(** The file names the sort-key model stands for: 7-bit ASCII characters,
    short enough for [int] to accept any digit run. *)
Definition plain_name (s : string) : bool :=
  forallb (fun c => (nat_of_ascii c <? 128)%nat) (list_ascii_of_string s)
  && (String.length s <=? 4300)%nat.

(** No digit at all, and no digit in front. *)
Definition no_digit (s : string) : bool :=
  forallb (fun c => negb (processor.is_digit c)) (list_ascii_of_string s).

Definition not_digit_first (s : string) : bool :=
  match s with
  | EmptyString => true
  | String c _ => negb (processor.is_digit c)
  end.

(** Keys made of a str, then an int, then a str, and so on, ending on a
    str; [want_int] tells which kind comes next. *)
Fixpoint alternates (want_int : bool) (k : list processor.key_part) : bool :=
  match k with
  | [] => want_int
  | processor.KInt _ :: rest => want_int && alternates false rest
  | processor.KStr _ :: rest => negb want_int && alternates true rest
  end.

(* ------------------------------------------------------------------ *)
(** * Properties *)

(** ** Python helpers *)

Lemma Qleb_true (x y : Q) : Py.Qleb x y = true <-> (x <= y)%Q.
Proof. unfold Py.Qleb. apply Qle_bool_iff. Qed.

Lemma Qltb_true (x y : Q) : Py.Qltb x y = true <-> (x < y)%Q.
Proof.
  unfold Py.Qltb. rewrite negb_true_iff.
  split; intro Hxy.
  - apply Qnot_le_lt. intro Hle. apply Qle_bool_iff in Hle. congruence.
  - destruct (Qle_bool y x) eqn:E; [|reflexivity].
    apply Qle_bool_iff in E. exfalso. revert E. apply Qlt_not_le. exact Hxy.
Qed.

Lemma Qltb_false (x y : Q) : Py.Qltb x y = false <-> (y <= x)%Q.
Proof.
  unfold Py.Qltb. rewrite negb_false_iff. apply Qle_bool_iff.
Qed.

Lemma truediv_ok (a b : Z) :
  b <> 0 -> Py.truediv a b = Ok (inject_Z a / inject_Z b)%Q.
Proof.
  intro Hb. unfold Py.truediv.
  destruct (b =? 0) eqn:E; [apply Z.eqb_eq in E; contradiction | reflexivity].
Qed.

(** ** ProcessorStats.ratio *)

(** C9. [ratio] never raises: it is [1.0] when [original_size] is zero and
    the quotient [compressed_size / original_size] otherwise, so the true
    division never meets a zero divisor. *)
Theorem ratio_total (self : processor.ProcessorStats) :
  exists q : Q,
    processor.ratio self = Ok q /\
    q = (if processor.original_size self =? 0 then 1%Q
         else (inject_Z (processor.compressed_size self)
               / inject_Z (processor.original_size self))%Q).
Proof.
  unfold processor.ratio.
  destruct (processor.original_size self =? 0) eqn:E.
  - exists 1%Q. split; reflexivity.
  - apply Z.eqb_neq in E. rewrite (truediv_ok _ _ E).
    eexists. split; reflexivity.
Qed.

(** ** Croppers with a non-positive power *)

(** C6. With a crop power at most zero, [crop_margins], [crop_page_number]
    and [apply_crop] (in every mode) return the very image they were given. *)
Theorem crop_nonpositive_power_identity `{Libs}
    (img : Image) (power : Q) (crop_mode : string) :
  (power <= 0)%Q ->
  cropper.crop_margins img power = Ok img /\
  cropper.crop_page_number img power = Ok img /\
  cropper.apply_crop img crop_mode power = Ok img.
Proof.
  intro Hp. apply Qleb_true in Hp.
  unfold cropper.crop_margins, cropper.crop_page_number, cropper.apply_crop.
  rewrite Hp, orb_true_r. repeat split.
Qed.

Lemma crop_nonpositive_power_identity_witness :
  cropper.crop_margins (L := Reference.RefLibs) Reference.bordered_page (-1 # 2)
    = Ok Reference.bordered_page /\
  cropper.crop_page_number (L := Reference.RefLibs) Reference.bordered_page (-1 # 2)
    = Ok Reference.bordered_page /\
  cropper.apply_crop (L := Reference.RefLibs) Reference.bordered_page "margins+page" (-1 # 2)
    = Ok Reference.bordered_page.
Proof.
  apply (crop_nonpositive_power_identity Reference.bordered_page (-1 # 2) "margins+page").
  vm_compute. discriminate.
Defined.

(** ** ColorClassifier *)

(** C10. An image whose mode is neither ['L'] nor ['RGB'] is classified as
    not grayscale, and no pixel index is drawn for it. *)
Theorem is_grayscale_other_mode `{Libs} (img : Image) (sample_size : Z) :
  mode img <> "L" -> mode img <> "RGB" ->
  compressor.is_grayscale_image img sample_size = false /\
  compressor.is_grayscale_sampled img sample_size = (false, []).
Proof.
  intros HL HRGB.
  unfold compressor.is_grayscale_image, compressor.is_grayscale_sampled.
  apply String.eqb_neq in HL. apply String.eqb_neq in HRGB.
  rewrite HL, HRGB. split; reflexivity.
Qed.

Lemma is_grayscale_other_mode_witness :
  compressor.is_grayscale_image (L := Reference.RefLibs)
    {| format := None; mode := "RGBA"; width := 1; height := 1;
       pixels := [[[10; 200; 30; 255]]] |} 2000 = false /\
  compressor.is_grayscale_sampled (L := Reference.RefLibs)
    {| format := None; mode := "RGBA"; width := 1; height := 1;
       pixels := [[[10; 200; 30; 255]]] |} 2000 = (false, []).
Proof.
  apply (is_grayscale_other_mode
           {| format := None; mode := "RGBA"; width := 1; height := 1;
              pixels := [[[10; 200; 30; 255]]] |} 2000);
    simpl; discriminate.
Defined.

(** ** QualityEstimator *)

Lemma quality_from_bpp_values (bpp : Q) :
  In (compressor.quality_from_bpp bpp) [60; 70; 80; 85; 90].
Proof.
  unfold compressor.quality_from_bpp.
  repeat match goal with
         | |- context [if ?c then _ else _] => destruct c
         end; simpl; auto 10.
Qed.

Lemma quality_from_bpp_monotone (x y : Q) :
  (x <= y)%Q -> compressor.quality_from_bpp x <= compressor.quality_from_bpp y.
Proof.
  intro Hxy. unfold compressor.quality_from_bpp.
  repeat match goal with
         | |- context [Py.Qltb ?a ?b] =>
             let E := fresh "E" in
             destruct (Py.Qltb a b) eqn:E;
             [apply Qltb_true in E | apply Qltb_false in E]
         end; try lia; exfalso; lra.
Qed.

(** C8. [estimate_jpeg_quality] answers 80 when the input cannot be opened,
    95 when it opens as something other than JPEG, and otherwise one of
    60, 70, 80, 85, 90: the value of a step function of bytes per pixel
    (80 if the header declares no pixel at all), and that step function is
    non-decreasing. *)
Theorem estimate_jpeg_quality_cases `{Libs} (image_data : list byte) :
  (forall e, Image_open image_data = Raise e ->
             compressor.estimate_jpeg_quality image_data = 80) /\
  (forall img, Image_open image_data = Ok img -> format img <> Some "JPEG" ->
               compressor.estimate_jpeg_quality image_data = 95) /\
  (forall img, Image_open image_data = Ok img -> format img = Some "JPEG" ->
               In (compressor.estimate_jpeg_quality image_data) [60; 70; 80; 85; 90] /\
               (width img * height img <> 0 ->
                compressor.estimate_jpeg_quality image_data
                = compressor.quality_from_bpp
                    (inject_Z (Py.len image_data) / inject_Z (width img * height img))%Q) /\
               (width img * height img = 0 ->
                compressor.estimate_jpeg_quality image_data = 80)) /\
  (forall x y : Q, (x <= y)%Q ->
                   compressor.quality_from_bpp x <= compressor.quality_from_bpp y).
Proof.
  unfold compressor.estimate_jpeg_quality.
  split; [|split; [|split]].
  - intros e E. rewrite E. reflexivity.
  - intros img E Hf. rewrite E. simpl.
    destruct (format img) as [f|]; [|reflexivity].
    destruct (String.eqb f "JPEG") eqn:Ef; [|reflexivity].
    apply String.eqb_eq in Ef. subst f. contradiction.
  - intros img E Hf. rewrite E. simpl. rewrite Hf. simpl.
    unfold Py.truediv.
    destruct (width img * height img =? 0) eqn:Ez; simpl.
    + apply Z.eqb_eq in Ez. repeat split; [simpl; auto | contradiction].
    + apply Z.eqb_neq in Ez. repeat split;
        [apply quality_from_bpp_values | contradiction].
  - exact quality_from_bpp_monotone.
Qed.

Lemma estimate_jpeg_quality_cases_witness :
  compressor.estimate_jpeg_quality (L := Reference.RefLibs) Reference.garbage = 80 /\
  compressor.estimate_jpeg_quality (L := Reference.RefLibs) Reference.spread_png = 95 /\
  compressor.estimate_jpeg_quality (L := Reference.RefLibs) Reference.spread_jpeg
  = compressor.quality_from_bpp (inject_Z 22 / inject_Z (5 * 3))%Q /\
  compressor.estimate_jpeg_quality (L := Reference.RefLibs) Reference.truncated_jpeg
  = compressor.quality_from_bpp (inject_Z 7 / inject_Z (100 * 100))%Q /\
  compressor.quality_from_bpp (1 # 10) <= compressor.quality_from_bpp (1 # 2).
Proof.
  split; [|split; [|split; [|split]]].
  - apply (proj1 (estimate_jpeg_quality_cases (H := Reference.RefLibs) Reference.garbage)
             (OSError "cannot identify image file")).
    reflexivity.
  - eapply (proj1 (proj2 (estimate_jpeg_quality_cases (H := Reference.RefLibs)
                            Reference.spread_png))).
    + vm_compute. reflexivity.
    + simpl. discriminate.
  - destruct (estimate_jpeg_quality_cases (H := Reference.RefLibs) Reference.spread_jpeg)
      as [_ [_ [Hjpeg _]]].
    edestruct Hjpeg as [_ [Hstep _]];
      [vm_compute; reflexivity | reflexivity | apply Hstep; simpl; discriminate].
  - destruct (estimate_jpeg_quality_cases (H := Reference.RefLibs) Reference.truncated_jpeg)
      as [_ [_ [Hjpeg _]]].
    edestruct Hjpeg as [_ [Hstep _]];
      [vm_compute; reflexivity | reflexivity | apply Hstep; simpl; discriminate].
  - apply (proj2 (proj2 (proj2
             (estimate_jpeg_quality_cases (H := Reference.RefLibs) Reference.garbage)))).
    vm_compute. discriminate.
Defined.

(** ** CompressionEngine: the quality handed to the encoder *)

Lemma bind_ok {A B : Type} (c : result A) (k : A -> result B) (b : B) :
  Py.bind c k = Ok b -> exists a, c = Ok a /\ k a = Ok b.
Proof.
  destruct c as [a|e]; simpl; intro E; [eauto | discriminate].
Qed.

Lemma jpeg_kwargs_quality (img : Image) (q : Z) :
  kw_quality (compressor.jpeg_kwargs img q) = q.
Proof.
  unfold compressor.jpeg_kwargs. destruct (String.eqb (mode img) "RGB"); reflexivity.
Qed.

Lemma choose_quality_bounds (target estimate margin : Z) :
  60 <= target ->
  60 <= compressor.choose_quality target estimate margin <= target.
Proof.
  intro Ht. unfold compressor.choose_quality. lia.
Qed.

Lemma compress_prepare_quality `{Libs} (data : list byte) (target : Z)
    (crop_mode : string) (crop_power : Q) (force : bool)
    (img : Image) (kw : save_kwargs) (oq : Z) :
  compressor.compress_prepare data target crop_mode crop_power force = Ok (img, kw, oq) ->
  kw_quality kw
  = compressor.choose_quality target (compressor.estimate_jpeg_quality data) 5
  /\ oq = compressor.estimate_jpeg_quality data.
Proof.
  unfold compressor.compress_prepare. intro E.
  apply bind_ok in E as [img0 [_ E]].
  apply bind_ok in E as [img1 [_ E]].
  apply bind_ok in E as [img2 [_ E]].
  injection E as <- <- <-. split; [apply jpeg_kwargs_quality | reflexivity].
Qed.

Lemma split_prepare_quality `{Libs} (data : list byte) (target : Z)
    (crop_mode : string) (crop_power : Q)
    (right_half left_half : Image) (kw_right kw_left : save_kwargs) :
  processor.split_prepare data target crop_mode crop_power
  = Ok ((right_half, kw_right), (left_half, kw_left)) ->
  kw_quality kw_right
  = compressor.choose_quality target (compressor.estimate_jpeg_quality data) 8
  /\ kw_quality kw_left
     = compressor.choose_quality target (compressor.estimate_jpeg_quality data) 8.
Proof.
  unfold processor.split_prepare. intro E.
  apply bind_ok in E as [img0 [_ E]].
  apply bind_ok in E as [img1 [_ E]].
  apply bind_ok in E as [[r0 l0] [_ E]].
  apply bind_ok in E as [r1 [_ E]].
  apply bind_ok in E as [l1 [_ E]].
  injection E as <- <- <- <-. split; apply jpeg_kwargs_quality.
Qed.

(** [compress_image] returns what the encoder made of the prepared image
    under the prepared keyword arguments, optimised. *)
Lemma compress_image_encodes `{Libs} (data : list byte) (target : Z)
    (crop_mode : string) (crop_power : Q) (force : bool)
    (out : list byte) (st : compressor.stats) :
  compressor.compress_image data target crop_mode crop_power force = Ok (out, st) ->
  exists img kw oq encoded,
    compressor.compress_prepare data target crop_mode crop_power force = Ok (img, kw, oq) /\
    save img kw = Ok encoded /\
    out = compressor.try_optimize encoded /\
    compressor.st_quality_used st = kw_quality kw.
Proof.
  unfold compressor.compress_image. intro E.
  apply bind_ok in E as [[[img kw] oq] [Eprep E]].
  apply bind_ok in E as [encoded [Esave E]].
  injection E as <- <-.
  exists img, kw, oq, encoded. repeat split; assumption.
Qed.

(** [save_optimized] returns what the encoder made of its page under its
    keyword arguments, optimised. *)
Lemma save_optimized_encodes `{Libs} (img_part : Image) (kw : save_kwargs)
    (out : list byte) :
  processor.save_optimized img_part kw = Ok out ->
  exists encoded, save img_part kw = Ok encoded /\ out = compressor.try_optimize encoded.
Proof.
  unfold processor.save_optimized. intro E.
  apply bind_ok in E as [encoded [Esave E]]. injection E as <-.
  exists encoded. split; [exact Esave | reflexivity].
Qed.

(** [split_and_compress] returns, in this order, [save_optimized] of the
    first and of the second prepared page. *)
Lemma split_and_compress_encodes `{Libs} (data : list byte) (target : Z)
    (crop_mode : string) (crop_power : Q) (first second : list byte) :
  processor.split_and_compress data target crop_mode crop_power = Ok (first, second) ->
  exists page1 kw1 page2 kw2,
    processor.split_prepare data target crop_mode crop_power
    = Ok ((page1, kw1), (page2, kw2)) /\
    processor.save_optimized page1 kw1 = Ok first /\
    processor.save_optimized page2 kw2 = Ok second.
Proof.
  unfold processor.split_and_compress. intro E.
  apply bind_ok in E as [[[page1 kw1] [page2 kw2]] [Eprep E]].
  apply bind_ok in E as [b1 [E1 E]].
  apply bind_ok in E as [b2 [E2 E]].
  injection E as <- <-.
  exists page1, kw1, page2, kw2. repeat split; assumption.
Qed.

(** C1. For a target quality in [60, 95] and any input bytes, the quality
    chosen by the engine is [max(60, min(target, estimate - 5))] on the
    single-page path and [max(60, min(target, estimate - 8))] on the split
    path, both within [60, target]. It is the [quality] entry of the
    keyword arguments with which the encoder is called: every buffer
    returned by [compress_image] and by [split_and_compress] (through
    [save_optimized]) is the optimised output of [img.save] under keyword
    arguments carrying this quality, and a failure of that encoder call is
    the failure of the whole call; it is also the [quality_used] that
    [compress_image] reports. *)
Theorem encoder_quality_within_bounds `{Libs} (image_data : list byte) (target : Z)
    (crop_mode : string) (crop_power : Q) (force_grayscale : bool) :
  60 <= target <= 95 ->
  let estimate := compressor.estimate_jpeg_quality image_data in
  let single := compressor.choose_quality target estimate 5 in
  let halved := compressor.choose_quality target estimate 8 in
  (single = Z.max 60 (Z.min target (estimate - 5)) /\ 60 <= single <= target) /\
  (halved = Z.max 60 (Z.min target (estimate - 8)) /\ 60 <= halved <= target) /\
  (forall img kw oq,
      compressor.compress_prepare image_data target crop_mode crop_power force_grayscale
      = Ok (img, kw, oq) -> kw_quality kw = single) /\
  (forall out st,
      compressor.compress_image image_data target crop_mode crop_power force_grayscale
      = Ok (out, st) -> compressor.st_quality_used st = single) /\
  (forall right_half kw_right left_half kw_left,
      processor.split_prepare image_data target crop_mode crop_power
      = Ok ((right_half, kw_right), (left_half, kw_left)) ->
      kw_quality kw_right = halved /\ kw_quality kw_left = halved) /\
  (forall out st,
      compressor.compress_image image_data target crop_mode crop_power force_grayscale
      = Ok (out, st) ->
      exists img kw encoded,
        save img kw = Ok encoded /\ jpeg_encode img kw = Ok encoded /\
        out = compressor.try_optimize encoded /\
        kw_quality kw = single /\ 60 <= kw_quality kw <= target) /\
  (forall first second,
      processor.split_and_compress image_data target crop_mode crop_power
      = Ok (first, second) ->
      exists page1 kw1 page2 kw2 encoded1 encoded2,
        processor.save_optimized page1 kw1 = Ok first /\
        processor.save_optimized page2 kw2 = Ok second /\
        save page1 kw1 = Ok encoded1 /\ jpeg_encode page1 kw1 = Ok encoded1 /\
        first = compressor.try_optimize encoded1 /\
        save page2 kw2 = Ok encoded2 /\ jpeg_encode page2 kw2 = Ok encoded2 /\
        second = compressor.try_optimize encoded2 /\
        kw_quality kw1 = halved /\ kw_quality kw2 = halved /\
        60 <= kw_quality kw1 <= target /\ 60 <= kw_quality kw2 <= target) /\
  (forall img kw oq e,
      compressor.compress_prepare image_data target crop_mode crop_power force_grayscale
      = Ok (img, kw, oq) ->
      save img kw = Raise e ->
      compressor.compress_image image_data target crop_mode crop_power force_grayscale
      = Raise e) /\
  (forall page1 kw1 page2 kw2 e,
      processor.split_prepare image_data target crop_mode crop_power
      = Ok ((page1, kw1), (page2, kw2)) ->
      (save page1 kw1 = Raise e ->
       processor.split_and_compress image_data target crop_mode crop_power = Raise e) /\
      (forall encoded1,
          save page1 kw1 = Ok encoded1 -> save page2 kw2 = Raise e ->
          processor.split_and_compress image_data target crop_mode crop_power = Raise e)).
Proof.
  intros [Hlo Hhi] estimate single halved.
  assert (Bs : 60 <= single <= target) by (apply choose_quality_bounds; exact Hlo).
  assert (Bh : 60 <= halved <= target) by (apply choose_quality_bounds; exact Hlo).
  split; [|split; [|split; [|split; [|split; [|split; [|split; [|split]]]]]]].
  - split; [reflexivity | exact Bs].
  - split; [reflexivity | exact Bh].
  - intros img kw oq E. apply compress_prepare_quality in E. apply E.
  - intros out st E. unfold compressor.compress_image in E.
    apply bind_ok in E as [[[img kw] oq] [Eprep E]].
    apply bind_ok in E as [saved [_ E]].
    injection E as _ <-. simpl.
    apply compress_prepare_quality in Eprep. apply Eprep.
  - intros r kr l kl E. apply split_prepare_quality in E. exact E.
  - intros out st E.
    apply compress_image_encodes in E as [img [kw [oq [encoded [Eprep [Esave [Eout _]]]]]]].
    apply compress_prepare_quality in Eprep as [Eq _].
    change (kw_quality kw = single) in Eq.
    exists img, kw, encoded.
    split; [exact Esave|]. split; [exact Esave|]. split; [exact Eout|].
    split; [exact Eq | lia].
  - intros first second E.
    apply split_and_compress_encodes in E
      as [page1 [kw1 [page2 [kw2 [Eprep [E1 E2]]]]]].
    apply split_prepare_quality in Eprep as [Q1 Q2].
    destruct (save_optimized_encodes _ _ _ E1) as [encoded1 [S1 O1]].
    destruct (save_optimized_encodes _ _ _ E2) as [encoded2 [S2 O2]].
    change (kw_quality kw1 = halved) in Q1. change (kw_quality kw2 = halved) in Q2.
    exists page1, kw1, page2, kw2, encoded1, encoded2.
    repeat split; try assumption; lia.
  - intros img kw oq e Eprep Esave.
    unfold compressor.compress_image. rewrite Eprep. cbn [Py.bind].
    rewrite Esave. reflexivity.
  - intros page1 kw1 page2 kw2 e Eprep. split.
    + intro Esave. unfold processor.split_and_compress, processor.save_optimized.
      rewrite Eprep. cbn [Py.bind]. rewrite Esave. reflexivity.
    + intros encoded1 E1 E2.
      unfold processor.split_and_compress, processor.save_optimized.
      rewrite Eprep. cbn [Py.bind]. rewrite E1. cbn [Py.bind]. rewrite E2. reflexivity.
Qed.

Lemma encoder_quality_within_bounds_witness :
  (exists out st img kw encoded,
      compressor.compress_image (L := Reference.RefLibs)
        Reference.bordered_jpeg 72 "margins" 1 false = Ok (out, st) /\
      save (L := Reference.RefLibs) img kw = Ok encoded /\
      out = compressor.try_optimize (L := Reference.RefLibs) encoded /\
      60 <= kw_quality kw <= 72) /\
  (exists first second page1 kw1 page2 kw2,
      processor.split_and_compress (L := Reference.RefLibs)
        Reference.spread_jpeg 95 "none" 1 = Ok (first, second) /\
      processor.save_optimized (L := Reference.RefLibs) page1 kw1 = Ok first /\
      processor.save_optimized (L := Reference.RefLibs) page2 kw2 = Ok second /\
      60 <= kw_quality kw1 <= 95 /\ 60 <= kw_quality kw2 <= 95).
Proof.
  split.
  - destruct (compressor.compress_image (L := Reference.RefLibs)
                Reference.bordered_jpeg 72 "margins" 1 false) as [[out st]|e] eqn:Erun;
      [|vm_compute in Erun; discriminate].
    destruct (encoder_quality_within_bounds (H := Reference.RefLibs)
                Reference.bordered_jpeg 72 "margins" 1 false)
      as [_ [_ [_ [_ [_ [Hsingle _]]]]]]; [lia|].
    destruct (Hsingle out st Erun) as [img [kw [encoded [Esave [_ [Eout [_ Hq]]]]]]].
    exists out, st, img, kw, encoded. repeat split; try assumption; apply Hq.
  - destruct (processor.split_and_compress (L := Reference.RefLibs)
                Reference.spread_jpeg 95 "none" 1) as [[first second]|e] eqn:Erun;
      [|vm_compute in Erun; discriminate].
    destruct (encoder_quality_within_bounds (H := Reference.RefLibs)
                Reference.spread_jpeg 95 "none" 1 false)
      as [_ [_ [_ [_ [_ [_ [Hsplit _]]]]]]]; [lia|].
    destruct (Hsplit first second Erun)
      as (page1 & kw1 & page2 & kw2 & e1 & e2 & S1 & S2 & _ & _ & _ & _ & _ & _ & _ & _ & Q1 & Q2).
    exists first, second, page1, kw1, page2, kw2. repeat split; try assumption;
      try apply Q1; apply Q2.
Defined.

(** ** PageSplitter *)

Lemma crop_ok (img : Image) (l u r d : Z) :
  l <= r -> u <= d ->
  exists c, crop img (l, u, r, d) = Ok c /\ width c = r - l /\ height c = d - u
            /\ mode c = mode img.
Proof.
  intros Hlr Hud. unfold crop.
  destruct (r <? l) eqn:E1; [apply Z.ltb_lt in E1; lia|].
  destruct (d <? u) eqn:E2; [apply Z.ltb_lt in E2; lia|].
  eexists. split; [reflexivity|]. simpl. auto.
Qed.

Lemma crop_size (img c : Image) (l u r d : Z) :
  crop img (l, u, r, d) = Ok c -> width c = r - l /\ height c = d - u.
Proof.
  unfold crop. destruct (r <? l); [discriminate|]. destruct (d <? u); [discriminate|].
  intro E. injection E as <-. simpl. auto.
Qed.

Lemma normalize_mode_size `{Libs} (img : Image) :
  width (compressor.normalize_mode img) = width img /\
  height (compressor.normalize_mode img) = height img.
Proof.
  unfold compressor.normalize_mode, paste_on_white, convert.
  repeat match goal with
         | |- context [if ?c then _ else _] => destruct c; simpl
         end; auto.
Qed.

Lemma apply_crop_disabled `{Libs} (img : Image) (crop_mode : string) (crop_power : Q) :
  crop_mode = "none" \/ (crop_power <= 0)%Q ->
  cropper.apply_crop img crop_mode crop_power = Ok img.
Proof.
  intros [-> | Hp]; unfold cropper.apply_crop.
  - reflexivity.
  - apply Qleb_true in Hp. rewrite Hp, orb_true_r. reflexivity.
Qed.

Lemma processor_halves_ok (img : Image) :
  0 <= width img -> 0 <= height img ->
  exists right_half left_half,
    processor.halves img = Ok (right_half, left_half) /\
    crop img (width img / 2, 0, width img, height img) = Ok right_half /\
    crop img (0, 0, width img / 2, height img) = Ok left_half /\
    width right_half = width img - width img / 2 /\
    width left_half = width img / 2 /\
    height right_half = height img /\ height left_half = height img.
Proof.
  intros Hw Hh. unfold processor.halves, size.
  assert (Hmid : 0 <= width img / 2 <= width img).
  { split; [apply Z.div_pos; lia | apply Z.div_le_upper_bound; lia]. }
  destruct (crop_ok img (width img / 2) 0 (width img) (height img))
    as [rh [Er [Wr [Hr _]]]]; [lia | lia |].
  destruct (crop_ok img 0 0 (width img / 2) (height img))
    as [lh [El [Wl [Hl _]]]]; [lia | lia |].
  exists rh, lh. rewrite Er, El. simpl. repeat split; auto; lia.
Qed.

Lemma crop_mode_kept (img c : Image) (b : box) :
  crop img b = Ok c -> mode c = mode img.
Proof.
  destruct b as [[[l u] r] d]. unfold crop.
  destruct (r <? l); [discriminate|]. destruct (d <? u); [discriminate|].
  intro E. injection E as <-. reflexivity.
Qed.

Lemma splitter_normalized_rgb `{Libs} (img : Image) :
  mode (if String.eqb (mode img) "RGBA" || String.eqb (mode img) "LA"
           || String.eqb (mode img) "P"
        then
          let img := if String.eqb (mode img) "P" then convert img "RGBA" else img in
          if String.eqb (mode img) "RGBA" || String.eqb (mode img) "LA"
          then paste_on_white img
          else convert img "RGB"
        else if negb (String.eqb (mode img) "RGB") then convert img "RGB"
        else img) = "RGB".
Proof.
  destruct (String.eqb (mode img) "RGBA" || String.eqb (mode img) "LA"
            || String.eqb (mode img) "P").
  - cbv zeta.
    match goal with
    | |- context [if (String.eqb (mode ?i) "RGBA" || String.eqb (mode ?i) "LA")
                  then _ else _] =>
        destruct (String.eqb (mode i) "RGBA" || String.eqb (mode i) "LA")
    end; reflexivity.
  - destruct (String.eqb (mode img) "RGB") eqn:E; simpl; [|reflexivity].
    apply String.eqb_eq. exact E.
Qed.

(** The pages of [split_double_page] before encoding: both halves are cut
    from one true-colour image [norm], which is the decoded image itself
    when that is already true-colour. *)
Lemma split_pages_halves `{Libs} (data : list byte) (reading_order : string)
    (first second : Image) :
  splitter.split_pages data reading_order = Ok (first, second) ->
  exists opened decoded norm left_half right_half,
    Image_open data = Ok opened /\ load data opened = Ok decoded /\
    mode norm = "RGB" /\
    (mode decoded = "RGB" -> norm = decoded) /\
    crop norm (0, 0, width opened / 2, height opened) = Ok left_half /\
    crop norm (width opened / 2, 0, width opened, height opened) = Ok right_half /\
    (first, second)
    = (if String.eqb reading_order "rtl"
       then (right_half, left_half) else (left_half, right_half)).
Proof.
  unfold splitter.split_pages. intro E.
  apply bind_ok in E as [opened [Eopen E]].
  apply bind_ok in E as [decoded [Eload E]].
  match type of E with
  | Py.bind (splitter.halves ?i) _ = _ => remember i as norm eqn:Hnorm
  end.
  assert (Hmode : mode norm = "RGB") by (subst norm; apply splitter_normalized_rgb).
  assert (Hid : mode decoded = "RGB" -> norm = decoded).
  { intro M. subst norm. rewrite M. reflexivity. }
  assert (Hsz : width norm = width opened /\ height norm = height opened).
  { unfold load in Eload. apply bind_ok in Eload as [rs [_ Eload]].
    injection Eload as <-. subst norm. unfold paste_on_white, convert. simpl.
    repeat match goal with
           | |- context [if ?c then _ else _] => destruct c; simpl
           end; auto. }
  clear Hnorm. destruct Hsz as [Hw Hh].
  apply bind_ok in E as [[lh rh] [Ehalves E]].
  unfold splitter.halves, size in Ehalves. rewrite Hw, Hh in Ehalves.
  apply bind_ok in Ehalves as [lh' [El Ehalves]].
  apply bind_ok in Ehalves as [rh' [Er Ehalves]].
  injection Ehalves as <- <-.
  exists opened, decoded, norm, lh', rh'.
  repeat (split; [assumption|]).
  destruct (String.eqb reading_order "rtl"); injection E as <- <-; reflexivity.
Qed.

(** [split_double_page] encodes the first page into the first buffer and
    the second page into the second, both under [split_kwargs]. *)
Lemma split_double_page_buffers `{Libs} (data : list byte) (reading_order : string)
    (first_buffer second_buffer : list byte) :
  splitter.split_double_page data reading_order = Ok (first_buffer, second_buffer) ->
  exists first_page second_page,
    splitter.split_pages data reading_order = Ok (first_page, second_page) /\
    save first_page splitter.split_kwargs = Ok first_buffer /\
    save second_page splitter.split_kwargs = Ok second_buffer.
Proof.
  unfold splitter.split_double_page. intro E.
  apply bind_ok in E as [[p1 p2] [Epages E]].
  apply bind_ok in E as [b1 [E1 E]].
  apply bind_ok in E as [b2 [E2 E]].
  injection E as <- <-. exists p1, p2. repeat split; assumption.
Qed.

(** The pages [split_and_compress] prepares: the right half first, each
    half cropped as configured and turned to grey when the page is grey. *)
Lemma split_prepare_halves `{Libs} (data : list byte) (quality : Z)
    (crop_mode : string) (crop_power : Q)
    (first second : Image) (kw1 kw2 : save_kwargs) :
  processor.split_prepare data quality crop_mode crop_power
  = Ok ((first, kw1), (second, kw2)) ->
  exists opened decoded right_half left_half right_cropped left_cropped,
    Image_open data = Ok opened /\ load data opened = Ok decoded /\
    crop (compressor.normalize_mode decoded)
         (width opened / 2, 0, width opened, height opened) = Ok right_half /\
    crop (compressor.normalize_mode decoded)
         (0, 0, width opened / 2, height opened) = Ok left_half /\
    cropper.apply_crop right_half crop_mode crop_power = Ok right_cropped /\
    cropper.apply_crop left_half crop_mode crop_power = Ok left_cropped /\
    (first = right_cropped \/ first = convert right_cropped "L") /\
    (second = left_cropped \/ second = convert left_cropped "L").
Proof.
  unfold processor.split_prepare. intro E.
  apply bind_ok in E as [opened [Eopen E]].
  apply bind_ok in E as [decoded [Eload E]].
  apply bind_ok in E as [[rh lh] [Ehalves E]].
  apply bind_ok in E as [rc [Erc E]].
  apply bind_ok in E as [lc [Elc E]].
  assert (Hsz : width (compressor.normalize_mode decoded) = width opened /\
                height (compressor.normalize_mode decoded) = height opened).
  { destruct (normalize_mode_size decoded) as [Hw Hh]. rewrite Hw, Hh.
    unfold load in Eload. apply bind_ok in Eload as [rs [_ Eload]].
    injection Eload as <-. split; reflexivity. }
  destruct Hsz as [Hw Hh].
  unfold processor.halves, size in Ehalves. rewrite Hw, Hh in Ehalves.
  apply bind_ok in Ehalves as [rh' [Er Ehalves]].
  apply bind_ok in Ehalves as [lh' [El Ehalves]].
  injection Ehalves as <- <-.
  exists opened, decoded, rh', lh', rc, lc.
  repeat (split; [assumption|]).
  injection E as <- _ <- _.
  split; match goal with
         | |- context [if ?c then _ else _] => destruct c
         end; auto.
Qed.

(** C5, as stated, fails on a spread of odd width: the 5 x 3 page splits
    into a first page 3 wide and a second page 2 wide. *)
Lemma first_page_is_floor_half_counterexample :
  ~ first_page_is_floor_half /\
  (exists first second,
      splitter.split_pages (L := Reference.RefLibs) Reference.spread_jpeg "rtl"
      = Ok (first, second)
      /\ width first = 3 /\ width second = 2 /\ 5 / 2 = 2).
Proof.
  split.
  - intro Hclaim.
    destruct (processor_halves_ok Reference.spread) as [r [l [E [_ [_ [Wr _]]]]]];
      [simpl; lia | simpl; lia |].
    destruct (Hclaim Reference.spread r l) as [Hfirst _];
      [simpl; lia | exact E |].
    rewrite Wr in Hfirst. simpl in Hfirst. vm_compute in Hfirst. discriminate.
  - eexists. eexists. split; [vm_compute; reflexivity|].
    repeat split.
Qed.

(** C5, amended. A wide image of width [W] splits into exactly two pages,
    right half first: the first page is the columns from [W/2] on and is
    [W - W/2] wide, the second is the columns before [W/2] and is [W/2] wide,
    so the widths add up to [W]. [split_double_page] (order ['rtl']) cuts
    both from one true-colour image and encodes the right half into its
    first buffer and the left half into its second. [split_and_compress]
    cuts both from the normalised image, crops each as configured, and
    returns [save_optimized] of the right page first and of the left page
    second; with cropping disabled the encoded widths are [W - W/2] and
    [W/2]. *)
Theorem split_page_widths `{Libs} (img : Image) :
  0 <= height img < width img ->
  let W := width img in
  (exists right_half left_half,
      processor.halves img = Ok (right_half, left_half) /\
      splitter.halves img = Ok (left_half, right_half) /\
      crop img (W / 2, 0, W, height img) = Ok right_half /\
      crop img (0, 0, W / 2, height img) = Ok left_half /\
      width right_half = W - W / 2 /\
      width left_half = W / 2 /\
      width right_half + width left_half = W) /\
  (forall data first second,
      Image_open data = Ok img ->
      splitter.split_pages data "rtl" = Ok (first, second) ->
      width first = W - W / 2 /\ width second = W / 2) /\
  (forall data quality crop_mode crop_power first kw1 second kw2,
      Image_open data = Ok img ->
      crop_mode = "none" \/ (crop_power <= 0)%Q ->
      processor.split_prepare data quality crop_mode crop_power
      = Ok ((first, kw1), (second, kw2)) ->
      width first = W - W / 2 /\ width second = W / 2) /\
  (forall index data quality crop_mode crop_power r,
      Image_open data = Ok img ->
      processor.process_single_image (index, data, false, quality, crop_mode, crop_power)
      = Ok r ->
      processor.result_is_double r = true /\
      exists first second,
        processor.split_and_compress data quality crop_mode crop_power = Ok (first, second)
        /\ processor.result_buffers r = [first; second]) /\
  (forall data first_buffer second_buffer,
      Image_open data = Ok img ->
      splitter.split_double_page data "rtl" = Ok (first_buffer, second_buffer) ->
      exists decoded norm right_half left_half,
        load data img = Ok decoded /\
        mode norm = "RGB" /\ (mode decoded = "RGB" -> norm = decoded) /\
        crop norm (W / 2, 0, W, height img) = Ok right_half /\
        crop norm (0, 0, W / 2, height img) = Ok left_half /\
        splitter.split_pages data "rtl" = Ok (right_half, left_half) /\
        save right_half splitter.split_kwargs = Ok first_buffer /\
        save left_half splitter.split_kwargs = Ok second_buffer /\
        width right_half = W - W / 2 /\ width left_half = W / 2) /\
  (forall data quality crop_mode crop_power first_buffer second_buffer,
      Image_open data = Ok img ->
      processor.split_and_compress data quality crop_mode crop_power
      = Ok (first_buffer, second_buffer) ->
      exists decoded right_half left_half right_cropped left_cropped
             first kw1 second kw2,
        load data img = Ok decoded /\
        crop (compressor.normalize_mode decoded) (W / 2, 0, W, height img)
        = Ok right_half /\
        crop (compressor.normalize_mode decoded) (0, 0, W / 2, height img)
        = Ok left_half /\
        width right_half = W - W / 2 /\ width left_half = W / 2 /\
        cropper.apply_crop right_half crop_mode crop_power = Ok right_cropped /\
        cropper.apply_crop left_half crop_mode crop_power = Ok left_cropped /\
        (crop_mode = "none" \/ (crop_power <= 0)%Q ->
         right_cropped = right_half /\ left_cropped = left_half) /\
        (first = right_cropped \/ first = convert right_cropped "L") /\
        (second = left_cropped \/ second = convert left_cropped "L") /\
        processor.split_prepare data quality crop_mode crop_power
        = Ok ((first, kw1), (second, kw2)) /\
        processor.save_optimized first kw1 = Ok first_buffer /\
        processor.save_optimized second kw2 = Ok second_buffer).
Proof.
  intros [Hh Hwide] W.
  split; [|split; [|split; [|split; [|split]]]].
  - destruct (processor_halves_ok img) as [r [l [E [Er [El [Wr [Wl _]]]]]]]; [lia | lia |].
    exists r, l. repeat split; auto; try lia.
    unfold splitter.halves, size. fold W. unfold W. rewrite El, Er. reflexivity.
  - intros data first second Eopen E.
    unfold splitter.split_pages in E. rewrite Eopen in E. simpl in E.
    apply bind_ok in E as [decoded [Eload E]].
    unfold load in Eload. apply bind_ok in Eload as [rs [_ Eload]].
    injection Eload as <-.
    match type of E with
    | Py.bind (splitter.halves ?i) _ = _ => remember i as norm eqn:Hnorm
    end.
    assert (Hsz : width norm = width img /\ height norm = height img).
    { subst norm. unfold paste_on_white, convert. simpl.
      repeat match goal with
             | |- context [if ?c then _ else _] => destruct c; simpl
             end; auto. }
    clear Hnorm.
    apply bind_ok in E as [[lh rh] [Ehalves E]].
    unfold splitter.halves, size in Ehalves.
    apply bind_ok in Ehalves as [lh' [El Ehalves]].
    apply bind_ok in Ehalves as [rh' [Er Ehalves]].
    injection Ehalves as <- <-.
    apply crop_size in El, Er. simpl in E. injection E as <- <-.
    destruct Hsz as [Hw _]. rewrite Hw in El, Er. unfold W. lia.
  - intros data quality crop_mode crop_power first kw1 second kw2 Eopen Hoff E.
    unfold processor.split_prepare in E. rewrite Eopen in E. simpl in E.
    apply bind_ok in E as [decoded [Eload E]].
    unfold load in Eload. apply bind_ok in Eload as [rs [_ Eload]].
    assert (Hdec : width decoded = width img) by (injection Eload as <-; reflexivity).
    clear Eload.
    apply bind_ok in E as [[rh lh] [Ehalves E]].
    rewrite !(apply_crop_disabled _ _ _ Hoff) in E. simpl in E.
    unfold processor.halves, size in Ehalves.
    apply bind_ok in Ehalves as [rh' [Er Ehalves]].
    apply bind_ok in Ehalves as [lh' [El Ehalves]].
    injection Ehalves as <- <-.
    apply crop_size in El, Er.
    destruct (normalize_mode_size decoded) as [Hw _]. rewrite Hw, Hdec in El, Er.
    injection E as <- _ <- _.
    unfold convert.
    split; match goal with
           | |- context [if ?c then _ else _] => destruct c; simpl
           end; unfold W; lia.
  - intros index data quality crop_mode crop_power r Eopen E.
    unfold processor.process_single_image, processor.is_wide_image in E.
    rewrite Eopen in E.
    assert (Hlt : (height img <? width img) = true) by (apply Z.ltb_lt; lia).
    rewrite Hlt in E. simpl in E.
    apply bind_ok in E as [[first second] [Esplit E]].
    injection E as <-. simpl. split; [reflexivity|]. eauto.
  - intros data b1 b2 Eopen E.
    apply split_double_page_buffers in E as [p1 [p2 [Epages [E1 E2]]]].
    destruct (split_pages_halves _ _ _ _ Epages)
      as (opened & decoded & norm & lh & rh & Eo & Eload & Hmode & Hid & El & Er & Epair).
    rewrite Eopen in Eo. injection Eo as <-.
    change (String.eqb "rtl" "rtl") with true in Epair. injection Epair as -> ->.
    exists decoded, norm, rh, lh. fold W in El, Er.
    pose proof (crop_size _ _ _ _ _ _ Er) as [Wr _].
    pose proof (crop_size _ _ _ _ _ _ El) as [Wl _].
    repeat (split; [assumption|]). lia.
  - intros data quality crop_mode crop_power b1 b2 Eopen E.
    apply split_and_compress_encodes in E
      as (first & kw1 & second & kw2 & Eprep & E1 & E2).
    destruct (split_prepare_halves _ _ _ _ _ _ _ _ Eprep)
      as (opened & decoded & rh & lh & rc & lc & Eo & Eload & Er & El & Erc & Elc & Hf & Hs).
    rewrite Eopen in Eo. injection Eo as <-. fold W in El, Er.
    pose proof (crop_size _ _ _ _ _ _ Er) as [Wr _].
    pose proof (crop_size _ _ _ _ _ _ El) as [Wl _].
    exists decoded, rh, lh, rc, lc, first, kw1, second, kw2.
    repeat (split; [assumption || lia|]).
    split.
    { intro Hoff. rewrite (apply_crop_disabled _ _ _ Hoff) in Erc.
      rewrite (apply_crop_disabled _ _ _ Hoff) in Elc.
      injection Erc as <-. injection Elc as <-. split; reflexivity. }
    repeat (split; [assumption|]). assumption.
Qed.

Lemma split_page_widths_witness :
  (exists right_half left_half,
      processor.halves Reference.spread = Ok (right_half, left_half) /\
      splitter.halves Reference.spread = Ok (left_half, right_half) /\
      crop Reference.spread (5 / 2, 0, 5, 3) = Ok right_half /\
      crop Reference.spread (0, 0, 5 / 2, 3) = Ok left_half /\
      width right_half = 5 - 5 / 2 /\
      width left_half = 5 / 2 /\
      width right_half + width left_half = 5) /\
  (exists first_buffer second_buffer right_half left_half,
      splitter.split_double_page (L := Reference.RefLibs) Reference.spread_jpeg "rtl"
      = Ok (first_buffer, second_buffer) /\
      splitter.split_pages (L := Reference.RefLibs) Reference.spread_jpeg "rtl"
      = Ok (right_half, left_half) /\
      save (L := Reference.RefLibs) right_half splitter.split_kwargs = Ok first_buffer /\
      save (L := Reference.RefLibs) left_half splitter.split_kwargs = Ok second_buffer /\
      width right_half = 3 /\ width left_half = 2) /\
  (exists first_buffer second_buffer first kw1 second kw2,
      processor.split_and_compress (L := Reference.RefLibs) Reference.spread_jpeg 95 "none" 1
      = Ok (first_buffer, second_buffer) /\
      processor.save_optimized (L := Reference.RefLibs) first kw1 = Ok first_buffer /\
      processor.save_optimized (L := Reference.RefLibs) second kw2 = Ok second_buffer /\
      width first = 3 /\ width second = 2).
Proof.
  split; [|split].
  - apply (split_page_widths (H := Reference.RefLibs) Reference.spread).
    simpl. lia.
  - destruct (splitter.split_double_page (L := Reference.RefLibs)
                Reference.spread_jpeg "rtl") as [[b1 b2]|e] eqn:Erun;
      [|vm_compute in Erun; discriminate].
    destruct (split_page_widths (H := Reference.RefLibs)
                {| format := Some "JPEG"; mode := "L"; width := 5; height := 3;
                   pixels := [] |})
      as (_ & _ & _ & _ & Hsplit & _); [simpl; lia|].
    destruct (Hsplit Reference.spread_jpeg b1 b2)
      as (decoded & norm & rh & lh & _ & _ & _ & _ & _ & Epages & E1 & E2 & Wr & Wl);
      [vm_compute; reflexivity | exact Erun |].
    exists b1, b2, rh, lh.
    split; [reflexivity|]. split; [exact Epages|]. split; [exact E1|].
    split; [exact E2|]. split; [exact Wr | exact Wl].
  - destruct (processor.split_and_compress (L := Reference.RefLibs)
                Reference.spread_jpeg 95 "none" 1) as [[b1 b2]|e] eqn:Erun;
      [|vm_compute in Erun; discriminate].
    destruct (split_page_widths (H := Reference.RefLibs)
                {| format := Some "JPEG"; mode := "L"; width := 5; height := 3;
                   pixels := [] |})
      as (_ & Hpages & Hprep & _ & _ & Hsplit); [simpl; lia|].
    destruct (Hsplit Reference.spread_jpeg 95 "none" 1%Q b1 b2)
      as (decoded & rh & lh & rc & lc & first & kw1 & second & kw2 & _ & _ & _ & _ & _
          & _ & _ & _ & _ & _ & Eprep & E1 & E2);
      [vm_compute; reflexivity | exact Erun |].
    destruct (Hprep Reference.spread_jpeg 95 "none" 1%Q first kw1 second kw2)
      as [W1 W2]; [vm_compute; reflexivity | left; reflexivity | exact Eprep |].
    exists b1, b2, first, kw1, second, kw2.
    split; [reflexivity|]. split; [exact E1|]. split; [exact E2|].
    split; [exact W1 | exact W2].
Defined.

(** ** The cover page *)

(** C2, as stated, fails: with mode ['margins'] and power 1 the 20 x 20
    cover with a white border is encoded as its 10 x 10 content box. *)
Lemma cover_never_cropped_counterexample :
  ~ cover_never_cropped /\
  (exists img kw oq,
      compressor.compress_prepare (L := Reference.RefLibs)
        Reference.bordered_jpeg 72 "margins" 1 false = Ok (img, kw, oq)
      /\ width img = 10 /\ height img = 10) /\
  (exists img kw oq,
      compressor.compress_prepare (L := Reference.RefLibs)
        Reference.bordered_jpeg 72 "none" 1 false = Ok (img, kw, oq)
      /\ width img = 20 /\ height img = 20).
Proof.
  split; [|split].
  - intro Hclaim.
    specialize (Hclaim Reference.RefLibs 0 Reference.bordered_jpeg 72 "margins" 1%Q).
    vm_compute in Hclaim. discriminate.
  - do 3 eexists. split; [vm_compute; reflexivity|]. split; reflexivity.
  - do 3 eexists. split; [vm_compute; reflexivity|]. split; reflexivity.
Qed.

Lemma compress_prepare_steps `{Libs} (data : list byte) (quality : Z)
    (crop_mode : string) (crop_power : Q) (force : bool)
    (img : Image) (kw : save_kwargs) (oq : Z) :
  compressor.compress_prepare data quality crop_mode crop_power force = Ok (img, kw, oq) ->
  exists opened decoded cropped,
    Image_open data = Ok opened /\ load data opened = Ok decoded /\
    cropper.apply_crop (compressor.normalize_mode decoded) crop_mode crop_power = Ok cropped /\
    (img = cropped \/ img = convert cropped "L").
Proof.
  unfold compressor.compress_prepare. intro E.
  apply bind_ok in E as [opened [Eopen E]].
  apply bind_ok in E as [decoded [Eload E]].
  apply bind_ok in E as [cropped [Ecrop E]].
  exists opened, decoded, cropped. repeat split; auto.
  injection E as <- _ _.
  match goal with
  | |- context [if ?c then _ else _] => destruct c; auto
  end.
Qed.

(** C2, amended. A cover is never split, whatever its aspect ratio: its
    task yields exactly one buffer, not flagged as double, the output of
    [compress_image] under the configured crop mode and power. Cropping is
    applied to it as to any single page: none when the mode is ['none'] or
    the power is at most zero, [crop_margins] in the modes ['margins'] and
    ['margins+page'], followed by [crop_page_number] in ['margins+page'].
    [process_image_for_split] compresses a cover with cropping off. *)
Theorem cover_single_buffer `{Libs} (index : Z) (image_data : list byte) (quality : Z)
    (crop_mode : string) (crop_power : Q) :
  (processor.process_single_image (index, image_data, true, quality, crop_mode, crop_power)
   = ('(compressed, _) <-
        compressor.compress_image image_data quality crop_mode crop_power false ;;
      Ok (index, false, [compressed], Py.len image_data))) /\
  (forall r,
      processor.process_single_image (index, image_data, true, quality, crop_mode, crop_power)
      = Ok r ->
      processor.result_is_double r = false /\
      exists compressed, processor.result_buffers r = [compressed]) /\
  (forall img kw oq,
      compressor.compress_prepare image_data quality crop_mode crop_power false
      = Ok (img, kw, oq) ->
      exists opened decoded cropped,
        Image_open image_data = Ok opened /\ load image_data opened = Ok decoded /\
        cropper.apply_crop (compressor.normalize_mode decoded) crop_mode crop_power
        = Ok cropped /\
        (img = cropped \/ img = convert cropped "L")) /\
  (forall img,
      crop_mode = "none" \/ (crop_power <= 0)%Q ->
      cropper.apply_crop img crop_mode crop_power = Ok img) /\
  (forall img,
      crop_mode = "margins" -> (0 < crop_power)%Q ->
      cropper.apply_crop img crop_mode crop_power = cropper.crop_margins img crop_power) /\
  (forall img,
      crop_mode = "margins+page" -> (0 < crop_power)%Q ->
      cropper.apply_crop img crop_mode crop_power
      = (trimmed <- cropper.crop_margins img crop_power ;;
         cropper.crop_page_number trimmed crop_power)) /\
  (splitter.process_image_for_split image_data true quality
   = ('(compressed, _) <- compressor.compress_image image_data quality "none" 1 false ;;
      Ok [compressed])).
Proof.
  split; [|split; [|split; [|split; [|split; [|split]]]]].
  - reflexivity.
  - intros r E. unfold processor.process_single_image in E. simpl in E.
    apply bind_ok in E as [[compressed st] [_ E]].
    injection E as <-. simpl. eauto.
  - intros img kw oq E. eapply compress_prepare_steps. exact E.
  - intros img Hoff. apply apply_crop_disabled. exact Hoff.
  - intros img -> Hp. unfold cropper.apply_crop.
    apply Qltb_true in Hp. unfold Py.Qltb in Hp. apply negb_true_iff in Hp.
    unfold Py.Qleb. rewrite Hp. simpl.
    destruct (cropper.crop_margins img crop_power); reflexivity.
  - intros img -> Hp. unfold cropper.apply_crop.
    apply Qltb_true in Hp. unfold Py.Qltb in Hp. apply negb_true_iff in Hp.
    unfold Py.Qleb. rewrite Hp.
    change (String.eqb "margins+page" "none") with false.
    change (String.eqb "margins+page" "margins") with false.
    change (String.eqb "margins+page" "margins+page") with true.
    reflexivity.
  - reflexivity.
Qed.

Lemma cover_single_buffer_witness :
  cropper.apply_crop (L := Reference.RefLibs) Reference.bordered_page "margins" 1
  = cropper.crop_margins (L := Reference.RefLibs) Reference.bordered_page 1 /\
  cropper.apply_crop (L := Reference.RefLibs) Reference.bordered_page "none" 1
  = Ok Reference.bordered_page /\
  exists compressed,
    processor.result_buffers
      (0, false, [Reference.file_of 74 Reference.spread 72], 22) = [compressed].
Proof.
  split; [|split].
  - destruct (cover_single_buffer (H := Reference.RefLibs)
                0 Reference.bordered_jpeg 72 "margins" 1) as [_ [_ [_ [_ [Hmargins _]]]]].
    apply Hmargins; [reflexivity | vm_compute; reflexivity].
  - destruct (cover_single_buffer (H := Reference.RefLibs)
                0 Reference.bordered_jpeg 72 "none" 1) as [_ [_ [_ [Hoff _]]]].
    apply Hoff. left. reflexivity.
  - destruct (cover_single_buffer (H := Reference.RefLibs)
                0 Reference.spread_jpeg 72 "none" 1) as [_ [Hone _]].
    apply Hone. vm_compute. reflexivity.
Defined.

(** ** PageNumberCropper *)

Lemma fold_min_le (l : list Z) (a : Z) :
  fold_left Z.min l a <= a /\ forall x, In x l -> fold_left Z.min l a <= x.
Proof.
  revert a. induction l as [|y l IH]; intro a; simpl.
  - split; [lia | intros x []].
  - destruct (IH (Z.min a y)) as [Ha Hl]. split; [lia|].
    intros x [<- | Hx]; [lia | apply Hl; exact Hx].
Qed.

Lemma min_top_le (lowest : list cropper.bx) (b : cropper.bx) :
  In b lowest -> cropper.min_top lowest <= cropper.b2 b.
Proof.
  destruct lowest as [|c rest]; intros Hin; [destruct Hin|].
  unfold cropper.min_top.
  destruct (fold_min_le (map cropper.b2 rest) (cropper.b2 c)) as [Hc Hrest].
  destruct Hin as [<- | Hin]; [exact Hc|].
  apply Hrest. apply in_map. exact Hin.
Qed.

Lemma big_enough_tall (W H : Z) (b : cropper.bx) :
  0 <= H -> cropper.big_enough W H b = true -> cropper.b2 b <= cropper.b3 b.
Proof.
  intros HH Hb. unfold cropper.big_enough in Hb.
  apply andb_true_iff in Hb as [_ Hb]. apply Qleb_true in Hb.
  assert (Hq : (0 <= inject_Z (cropper.b3 b - cropper.b2 b))%Q).
  { eapply Qle_trans; [|exact Hb].
    apply Qmult_le_0_compat; [|discriminate].
    change 0%Q with (inject_Z 0). rewrite <- Zle_Qle. exact HH. }
  change 0%Q with (inject_Z 0) in Hq. rewrite <- Zle_Qle in Hq. lia.
Qed.

Lemma filter_through {A : Type} (P Q : A -> bool) (l : list A) :
  (forall x, In x l -> P x = true -> Q x = true) ->
  filter P l = filter P (filter Q l).
Proof.
  induction l as [|a l IH]; intro Himp; simpl; [reflexivity|].
  assert (IH' : filter P l = filter P (filter Q l)).
  { apply IH. intros x Hx. apply Himp. right. exact Hx. }
  destruct (P a) eqn:Pa.
  - rewrite (Himp a (or_introl eq_refl) Pa). simpl. rewrite Pa, IH'. reflexivity.
  - destruct (Q a); simpl; [rewrite Pa|]; exact IH'.
Qed.

(** The boxes on the bottom row are among the boxes in range. *)
Lemma lowest_through_range (W H window_h : Z) (merged : list cropper.bx) :
  0 <= H ->
  let boxes := filter (cropper.big_enough W H) merged in
  let lowest := cropper.lowest_boxes window_h boxes in
  lowest = cropper.lowest_boxes window_h
             (cropper.boxes_in_range (cropper.min_top lowest) boxes).
Proof.
  intros HH boxes lowest.
  pose proof (min_top_le lowest) as Hmin.
  set (m := cropper.min_top lowest) in *.
  unfold lowest in *. clear lowest.
  unfold cropper.lowest_boxes, cropper.boxes_in_range in *.
  apply filter_through.
  intros b Hb Hlow. apply Z.leb_le.
  assert (Hin : m <= cropper.b2 b).
  { apply Hmin. apply filter_In. split; assumption. }
  assert (Htall : cropper.b2 b <= cropper.b3 b).
  { apply (big_enough_tall W H); [exact HH|].
    unfold boxes in Hb. apply filter_In in Hb. apply Hb. }
  lia.
Qed.

Lemma window_positive (H : Z) :
  0 < Py.int_ (inject_Z H * ((2 # 100) * (125 # 100)))%Q -> 0 < H.
Proof.
  unfold Py.int_. simpl. intro Hq.
  destruct (Z_lt_le_dec 0 H) as [Hpos | Hneg]; [exact Hpos|].
  exfalso.
  assert (Hle : Z.quot (- (H * 250)) 10000 >= 0).
  { apply Z.le_ge. apply Z.quot_pos; lia. }
  rewrite Z.quot_opp_l in Hle by lia. lia.
Qed.

Lemma page_number_boxes_window `{Libs} (img : Image) (power : Q)
    (bot_y_pos window_h : Z) (merged : list cropper.bx) :
  cropper.page_number_boxes img power = Ok (Some (bot_y_pos, window_h, merged)) ->
  window_h = Py.int_ (inject_Z (height img) * ((2 # 100) * (125 # 100)))%Q
  /\ 0 < window_h.
Proof.
  unfold cropper.page_number_boxes. intro E.
  apply bind_ok in E as [[gray bw] [_ E]].
  destruct (getbbox bw) as [[[[l t] r] b]|]; [|discriminate].
  destruct (_ <=? 0) eqn:Ew in E; [discriminate|].
  apply Z.leb_gt in Ew.
  apply bind_ok in E as [groups [_ E]].
  destruct groups; [discriminate|].
  injection E as _ <- _. split; [reflexivity | exact Ew].
Qed.

(** The decision of lines 193-221 on the merged boxes. *)
Lemma crop_decision_cases (img : Image) (bot_y_pos window_h : Z)
    (merged : list cropper.bx) :
  0 <= height img ->
  let boxes := filter (cropper.big_enough (width img) (height img)) merged in
  let lowest := cropper.lowest_boxes window_h boxes in
  let in_range := cropper.boxes_in_range (cropper.min_top lowest) boxes in
  let decision := cropper.crop_decision img bot_y_pos window_h merged in
  (lowest = [] -> decision = Ok img) /\
  ((2 <= List.length in_range)%nat -> decision = Ok img) /\
  (forall b, in_range = [b] ->
             cropper.within_max_shape (width img) (height img) b = false ->
             decision = Ok img) /\
  (forall b, lowest <> [] -> in_range = [b] ->
             cropper.within_max_shape (width img) (height img) b = true ->
             lowest = [b] /\
             decision = crop img (0, 0, width img,
                                  (bot_y_pos - window_h + cropper.b2 b) - 1)) /\
  (decision <> Ok img ->
   exists b, lowest = [b] /\ in_range = [b] /\
             cropper.within_max_shape (width img) (height img) b = true /\
             decision = crop img (0, 0, width img,
                                  (bot_y_pos - window_h + cropper.b2 b) - 1)).
Proof.
  intros HH boxes lowest in_range decision.
  assert (Hsub : lowest = cropper.lowest_boxes window_h in_range).
  { apply (lowest_through_range (width img) (height img) window_h merged HH). }
  assert (Hdec : decision =
                 match lowest with
                 | [] => Ok img
                 | _ :: _ =>
                     if cropper.should_crop (width img) (height img) in_range then
                       match in_range with
                       | b :: _ => crop img (0, 0, width img,
                                             bot_y_pos - (window_h - cropper.b2 b + 1))
                       | [] => Ok img
                       end
                     else Ok img
                 end) by reflexivity.
  assert (Hone : forall b, lowest <> [] -> in_range = [b] -> lowest = [b]).
  { intros b Hne Hb. rewrite Hb in Hsub. unfold cropper.lowest_boxes in Hsub.
    simpl in Hsub. destruct (cropper.b3 b =? window_h - 1); [exact Hsub | contradiction]. }
  assert (Hcrop : forall b, lowest <> [] -> in_range = [b] ->
                    cropper.within_max_shape (width img) (height img) b = true ->
                    decision = crop img (0, 0, width img,
                                         (bot_y_pos - window_h + cropper.b2 b) - 1)).
  { intros b Hne Hb Hfit. rewrite Hdec.
    destruct lowest as [|l0 ls]; [contradiction|].
    rewrite Hb. unfold cropper.should_crop. rewrite Hfit.
    replace (bot_y_pos - (window_h - cropper.b2 b + 1))
      with (bot_y_pos - window_h + cropper.b2 b - 1) by lia.
    reflexivity. }
  split; [|split; [|split; [|split]]].
  - intro E. rewrite Hdec, E. reflexivity.
  - intro Hlen. rewrite Hdec. destruct lowest; [reflexivity|].
    destruct in_range as [|x [|y rest]]; simpl in *; try lia; reflexivity.
  - intros b Hb Hfit. rewrite Hdec. destruct lowest; [reflexivity|].
    rewrite Hb. simpl. rewrite Hfit. reflexivity.
  - intros b Hne Hb Hfit. split; [apply Hone | apply Hcrop]; assumption.
  - intro Hchanged.
    destruct lowest as [|l0 ls] eqn:El; [rewrite Hdec in Hchanged; contradiction|].
    destruct in_range as [|b [|y rest]] eqn:Er.
    + rewrite Hdec in Hchanged. simpl in Hchanged. contradiction.
    + destruct (cropper.within_max_shape (width img) (height img) b) eqn:Hfit.
      * exists b. assert (Hne : l0 :: ls <> []) by discriminate.
        repeat split; auto.
      * rewrite Hdec in Hchanged. simpl in Hchanged. rewrite Hfit in Hchanged.
        contradiction.
    + rewrite Hdec in Hchanged. simpl in Hchanged. contradiction.
Qed.

Lemma filter_split_length {A : Type} (f : A -> bool) (l : list A) :
  (List.length (filter f l) + List.length (filter (fun x => negb (f x)) l)
   = List.length l)%nat.
Proof.
  induction l as [|a l IH]; simpl; [reflexivity|].
  destruct (f a); simpl; lia.
Qed.

Lemma merge_loop_step (max_dist : Q * Q) (fuel : nat) (boxes : list cropper.bx) (j : nat) :
  cropper.merge_loop (S fuel) max_dist boxes j
  = if (Z.of_nat j <? Py.len boxes - 1) then
      match nth_error boxes j with
      | None => Some boxes
      | Some g1 =>
          let later := skipn (S j) boxes in
          let intersecting :=
            filter (fun g2 => cropper.box_intersect g1 g2 max_dist) later in
          let other :=
            filter (fun g2 => negb (cropper.box_intersect g1 g2 max_dist)) later in
          match intersecting with
          | [] => cropper.merge_loop fuel max_dist boxes (S j)
          | _ :: _ =>
              cropper.merge_loop fuel max_dist
                (firstn j boxes ++ other
                 ++ [(cropper.col_min cropper.b0 g1 intersecting,
                      cropper.col_max cropper.b1 g1 intersecting,
                      cropper.col_min cropper.b2 g1 intersecting,
                      cropper.col_max cropper.b3 g1 intersecting)]) 0
          end
      end
    else Some boxes.
Proof. reflexivity. Qed.

(** The loop of [merge_boxes] ends within [merge_fuel] iterations. *)
Lemma merge_loop_terminates (max_dist : Q * Q) (fuel : nat) :
  forall (boxes : list cropper.bx) (j : nat),
    (j <= List.length boxes)%nat ->
    (List.length boxes * S (List.length boxes) - j < fuel)%nat ->
    exists merged, cropper.merge_loop fuel max_dist boxes j = Some merged.
Proof.
  induction fuel as [|fuel IH]; intros boxes j Hj Hfuel; [lia|].
  rewrite merge_loop_step. unfold Py.len.
  destruct (Z.of_nat j <? Z.of_nat (List.length boxes) - 1) eqn:Ej; [|eauto].
  apply Z.ltb_lt in Ej.
  destruct (nth_error boxes j) as [g1|]; [|eauto].
  pose proof (filter_split_length (fun g2 => cropper.box_intersect g1 g2 max_dist)
                                  (skipn (S j) boxes)) as Hsplit.
  rewrite length_skipn in Hsplit.
  cbv zeta.
  destruct (filter (fun g2 => cropper.box_intersect g1 g2 max_dist) (skipn (S j) boxes))
    as [|g2 others] eqn:Einter.
  - apply IH; [lia | nia].
  - apply IH; [lia|].
    rewrite !length_app, length_firstn.
    set (n := List.length boxes) in *.
    set (o := List.length (filter (fun g2 => negb (cropper.box_intersect g1 g2 max_dist))
                                  (skipn (S j) boxes))) in *.
    cbn [List.length] in *.
    assert (Hlen : (Nat.min j n + (o + 1) <= n - 1)%nat) by lia.
    nia.
Qed.

Lemma merge_boxes_terminates (boxes : list cropper.bx) (max_dist : Q * Q) :
  cropper.merge_loop (cropper.merge_fuel boxes) max_dist boxes 0
  = Some (cropper.merge_boxes boxes max_dist).
Proof.
  unfold cropper.merge_boxes.
  destruct (merge_loop_terminates max_dist (cropper.merge_fuel boxes) boxes 0)
    as [merged E]; [lia | unfold cropper.merge_fuel; lia |].
  rewrite E. reflexivity.
Qed.

(** C7. With a positive power, [crop_page_number] changes the image only
    when exactly one box passes the minimum-footprint filter and touches the
    bottom row of the scan window, that box is the only one in range and it
    stays within the maximum footprint; the result is then the image cut at
    the row just above the top of that mark. With no box on the bottom row,
    or with two or more boxes in range, the image is returned unchanged. *)
Theorem crop_page_number_policy `{Libs} (img : Image) (power : Q) :
  (0 < power)%Q ->
  (forall e, cropper.page_number_boxes img power = Raise e ->
             cropper.crop_page_number img power = Raise e) /\
  (cropper.page_number_boxes img power = Ok None ->
   cropper.crop_page_number img power = Ok img) /\
  (forall bot_y_pos window_h merged,
      cropper.page_number_boxes img power = Ok (Some (bot_y_pos, window_h, merged)) ->
      let boxes := filter (cropper.big_enough (width img) (height img)) merged in
      let lowest := cropper.lowest_boxes window_h boxes in
      let in_range := cropper.boxes_in_range (cropper.min_top lowest) boxes in
      let mark_top (b : cropper.bx) := bot_y_pos - window_h + cropper.b2 b in
      (lowest = [] -> cropper.crop_page_number img power = Ok img) /\
      ((2 <= List.length in_range)%nat -> cropper.crop_page_number img power = Ok img) /\
      (forall b, in_range = [b] ->
                 cropper.within_max_shape (width img) (height img) b = false ->
                 cropper.crop_page_number img power = Ok img) /\
      (forall b, lowest <> [] -> in_range = [b] ->
                 cropper.within_max_shape (width img) (height img) b = true ->
                 lowest = [b] /\
                 cropper.crop_page_number img power
                 = crop img (0, 0, width img, mark_top b - 1) /\
                 forall cropped,
                   cropper.crop_page_number img power = Ok cropped ->
                   width cropped = width img /\ height cropped < mark_top b) /\
      (cropper.crop_page_number img power <> Ok img ->
       exists b, lowest = [b] /\ in_range = [b] /\
                 cropper.within_max_shape (width img) (height img) b = true /\
                 cropper.crop_page_number img power
                 = crop img (0, 0, width img, mark_top b - 1))).
Proof.
  intro Hp. apply Qltb_true in Hp. unfold Py.Qltb in Hp. apply negb_true_iff in Hp.
  assert (Hrun : cropper.crop_page_number img power
                 = (found <- cropper.page_number_boxes img power ;;
                    match found with
                    | None => Ok img
                    | Some (bot_y_pos, window_h, merged) =>
                        cropper.crop_decision img bot_y_pos window_h merged
                    end)).
  { unfold cropper.crop_page_number, Py.Qleb. rewrite Hp. reflexivity. }
  split; [|split].
  - intros e E. rewrite Hrun, E. reflexivity.
  - intros E. rewrite Hrun, E. reflexivity.
  - intros bot_y_pos window_h merged E boxes lowest in_range mark_top.
    assert (Hdecide : cropper.crop_page_number img power
                      = cropper.crop_decision img bot_y_pos window_h merged).
    { rewrite Hrun, E. reflexivity. }
    rewrite Hdecide.
    destruct (page_number_boxes_window _ _ _ _ _ E) as [Hwin Hpos].
    rewrite Hwin in Hpos. apply window_positive in Hpos.
    destruct (crop_decision_cases img bot_y_pos window_h merged)
      as [Hnone [Hmany [Hbig [Hcrop Honly]]]]; [lia|].
    split; [exact Hnone|]. split; [exact Hmany|]. split; [exact Hbig|].
    split; [|exact Honly].
    intros b Hne Hb Hfit. destruct (Hcrop b Hne Hb Hfit) as [Hlow Hdec].
    split; [exact Hlow|]. split; [exact Hdec|].
    intros cropped Ec. rewrite Hdec in Ec. apply crop_size in Ec.
    unfold mark_top. lia.
Qed.

Lemma crop_page_number_policy_witness :
  cropper.crop_page_number (L := Reference.RefLibs) Reference.numbered_page 1
  = crop Reference.numbered_page (0, 0, 100, 476 - 12 + 6 - 1) /\
  cropper.crop_page_number (L := Reference.RefLibs) Reference.twin_numbered_page 1
  = Ok Reference.twin_numbered_page.
Proof.
  split.
  - destruct (crop_page_number_policy (H := Reference.RefLibs) Reference.numbered_page 1)
      as [_ [_ Hfound]]; [reflexivity|].
    destruct (Hfound 476 12 [(39, 42, 6, 11)]) as [_ [_ [_ [Hcrop _]]]];
      [vm_compute; reflexivity|].
    destruct (Hcrop (39, 42, 6, 11)) as [_ [Hdec _]];
      [discriminate | reflexivity | reflexivity | exact Hdec].
  - destruct (crop_page_number_policy (H := Reference.RefLibs)
                Reference.twin_numbered_page 1)
      as [_ [_ Hfound]]; [reflexivity|].
    destruct (Hfound 476 12 [(39, 42, 6, 11); (60, 62, 6, 11)]) as [_ [Hmany _]];
      [vm_compute; reflexivity|].
    apply Hmany. vm_compute. lia.
Defined.

(** ** ParallelPipeline: sorting the result keys *)

Lemma insert_sorted_perm (k : Z) (l : list Z) :
  Permutation (processor.insert_sorted k l) (k :: l).
Proof.
  induction l as [|x l IH]; simpl; [reflexivity|].
  destruct (k <=? x); [reflexivity|].
  rewrite IH. apply perm_swap.
Qed.

Lemma sorted_perm (l : list Z) : Permutation (processor.sorted l) l.
Proof.
  induction l as [|k l IH]; simpl; [reflexivity|].
  rewrite insert_sorted_perm. apply perm_skip. exact IH.
Qed.

Lemma insert_sorted_strict (k : Z) (l : list Z) :
  StronglySorted Z.lt l -> ~ In k l ->
  StronglySorted Z.lt (processor.insert_sorted k l).
Proof.
  induction l as [|x l IH]; intros Hs Hk; simpl.
  - constructor; constructor.
  - inversion Hs as [|? ? Hl Hx]; subst.
    assert (Hkx : k <> x) by (intro; subst; apply Hk; left; reflexivity).
    destruct (k <=? x) eqn:E.
    + apply Z.leb_le in E. constructor; [exact Hs|].
      constructor; [lia|].
      rewrite Forall_forall in Hx |- *. intros y Hy. specialize (Hx y Hy). lia.
    + apply Z.leb_gt in E. constructor.
      * apply IH; [exact Hl | intro Hin; apply Hk; right; exact Hin].
      * rewrite Forall_forall in Hx |- *. intros y Hy.
        apply (Permutation_in _ (insert_sorted_perm k l)) in Hy.
        destruct Hy as [<- | Hy]; [lia | apply Hx; exact Hy].
Qed.

Lemma sorted_strict (l : list Z) :
  NoDup l -> StronglySorted Z.lt (processor.sorted l).
Proof.
  induction l as [|k l IH]; intro Hnd; simpl; [constructor|].
  inversion Hnd as [|? ? Hk Hl]; subst.
  apply insert_sorted_strict; [apply IH; exact Hl|].
  intro Hin. apply Hk. apply (Permutation_in _ (sorted_perm l)). exact Hin.
Qed.

(** Two strictly ascending lists with the same elements are the same list. *)
Lemma strictly_sorted_unique (l1 : list Z) :
  forall l2, StronglySorted Z.lt l1 -> StronglySorted Z.lt l2 ->
             (forall x, In x l1 <-> In x l2) -> l1 = l2.
Proof.
  induction l1 as [|a l1 IH]; intros l2 H1 H2 Hsame.
  - destruct l2 as [|b l2]; [reflexivity|].
    exfalso. apply (proj2 (Hsame b)). left. reflexivity.
  - destruct l2 as [|b l2].
    + exfalso. apply (proj1 (Hsame a)). left. reflexivity.
    + inversion H1 as [|? ? Hs1 Ha]; subst. inversion H2 as [|? ? Hs2 Hb]; subst.
      rewrite Forall_forall in Ha, Hb.
      assert (Hab : a = b).
      { destruct (proj1 (Hsame a) (or_introl eq_refl)) as [Hba | Hin];
          [symmetry; exact Hba|].
        destruct (proj2 (Hsame b) (or_introl eq_refl)) as [Hba' | Hin'];
          [exact Hba'|].
        specialize (Ha b Hin'). specialize (Hb a Hin). lia. }
      subst b. f_equal. apply IH; [exact Hs1 | exact Hs2 |].
      intro x. split; intro Hx.
      * destruct (proj1 (Hsame x) (or_intror Hx)) as [<- | Hin]; [|exact Hin].
        specialize (Ha _ Hx). lia.
      * destruct (proj2 (Hsame x) (or_intror Hx)) as [<- | Hin]; [|exact Hin].
        specialize (Hb _ Hx). lia.
Qed.

Lemma sorted_of_permutation (l1 l2 : list Z) :
  NoDup l1 -> Permutation l1 l2 -> processor.sorted l1 = processor.sorted l2.
Proof.
  intros Hnd Hperm.
  apply strictly_sorted_unique.
  - apply sorted_strict. exact Hnd.
  - apply sorted_strict. apply (Permutation_NoDup Hperm). exact Hnd.
  - intro x. split; intro Hx.
    + apply (Permutation_in _ (Permutation_sym (sorted_perm l2))).
      apply (Permutation_in _ Hperm).
      apply (Permutation_in _ (sorted_perm l1)). exact Hx.
    + apply (Permutation_in _ (Permutation_sym (sorted_perm l1))).
      apply (Permutation_in _ (Permutation_sym Hperm)).
      apply (Permutation_in _ (sorted_perm l2)). exact Hx.
Qed.

Lemma sorted_already (l : list Z) :
  StronglySorted Z.lt l -> processor.sorted l = l.
Proof.
  intro Hs. apply strictly_sorted_unique; [|exact Hs|].
  - apply sorted_strict. induction Hs as [|a l Hs IH Ha]; constructor; [|exact IH].
    rewrite Forall_forall in Ha. intro Hin. specialize (Ha a Hin). lia.
  - intro x. split; intro Hx.
    + apply (Permutation_in _ (sorted_perm l)). exact Hx.
    + apply (Permutation_in _ (Permutation_sym (sorted_perm l))). exact Hx.
Qed.

(** ** ParallelPipeline: the result dictionary *)

Lemma dict_get_in {V : Type} (d : processor.dict V) (k : Z) (v : V) :
  processor.dict_get d k = Ok v -> In (k, v) d.
Proof.
  induction d as [|[k' v'] d IH]; simpl; [discriminate|].
  destruct (k' =? k) eqn:E.
  - apply Z.eqb_eq in E. subst. intro Hv. injection Hv as <-. left. reflexivity.
  - intro Hv. right. apply IH. exact Hv.
Qed.

Lemma dict_get_of_in {V : Type} (d : processor.dict V) (k : Z) (v : V) :
  NoDup (processor.keys d) -> In (k, v) d -> processor.dict_get d k = Ok v.
Proof.
  induction d as [|[k' v'] d IH]; simpl; intros Hnd Hin; [destruct Hin|].
  inversion Hnd as [|? ? Hk Hd]; subst.
  destruct Hin as [E | Hin].
  - injection E as -> ->. rewrite Z.eqb_refl. reflexivity.
  - destruct (k' =? k) eqn:E.
    + apply Z.eqb_eq in E. subst. exfalso. apply Hk.
      apply (in_map fst) in Hin. exact Hin.
    + apply IH; assumption.
Qed.

Lemma dict_get_key {V : Type} (d : processor.dict V) (k : Z) :
  In k (processor.keys d) -> exists v, processor.dict_get d k = Ok v.
Proof.
  induction d as [|[k' v'] d IH]; simpl; intro Hin; [destruct Hin|].
  destruct (k' =? k) eqn:E; [eauto|].
  apply Z.eqb_neq in E. destruct Hin as [Hk | Hin]; [contradiction|].
  apply IH. exact Hin.
Qed.

Lemma dict_get_permutation {V : Type} (d1 d2 : processor.dict V) (k : Z) :
  NoDup (processor.keys d1) -> Permutation d1 d2 ->
  processor.dict_get d1 k = processor.dict_get d2 k.
Proof.
  intros Hnd Hperm.
  assert (Hnd2 : NoDup (processor.keys d2)).
  { apply (Permutation_NoDup (Permutation_map fst Hperm)). exact Hnd. }
  destruct (processor.dict_get d1 k) as [v|e] eqn:E1.
  - symmetry. apply dict_get_of_in; [exact Hnd2|].
    apply (Permutation_in _ Hperm). apply dict_get_in. exact E1.
  - destruct (processor.dict_get d2 k) as [v|e2] eqn:E2.
    + apply dict_get_in in E2.
      apply (Permutation_in _ (Permutation_sym Hperm)) in E2.
      apply (dict_get_of_in _ _ _ Hnd) in E2. congruence.
    + clear -E1 E2. f_equal.
      assert (H1 : forall (d : processor.dict V) e0, processor.dict_get d k = Raise e0 -> e0 = KeyError).
      { induction d as [|[k' v'] d IH]; simpl; intros e0 H0; [congruence|].
        destruct (k' =? k); [discriminate | apply IH; exact H0]. }
      rewrite (H1 _ _ E1), (H1 _ _ E2). reflexivity.
Qed.

Lemma dict_set_fresh {V : Type} (d : processor.dict V) (k : Z) (v : V) :
  ~ In k (processor.keys d) -> processor.dict_set d k v = d ++ [(k, v)].
Proof.
  induction d as [|[k' v'] d IH]; simpl; intro Hk; [reflexivity|].
  destruct (k' =? k) eqn:E.
  - apply Z.eqb_eq in E. exfalso. apply Hk. left. exact E.
  - f_equal. apply IH. intro Hin. apply Hk. right. exact Hin.
Qed.

(** ** ParallelPipeline: what the archive writer writes *)

Lemma number_pages_app (nd page : Z) (a b : list (list byte)) :
  number_pages nd page (a ++ b)
  = number_pages nd page a ++ number_pages nd (page + Py.len a) b.
Proof.
  revert page. induction a as [|x a IH]; intro page; simpl.
  - unfold Py.len. simpl. rewrite Z.add_0_r. reflexivity.
  - rewrite IH. unfold Py.len. simpl List.length.
    replace (page + 1 + Z.of_nat (List.length a))
      with (page + Z.of_nat (S (List.length a))) by lia.
    reflexivity.
Qed.

Lemma number_pages_payload (nd page : Z) (bufs : list (list byte)) :
  map snd (number_pages nd page bufs) = bufs.
Proof.
  revert page. induction bufs as [|b bufs IH]; intro page; simpl; [reflexivity|].
  rewrite IH. reflexivity.
Qed.

Lemma number_pages_length (nd page : Z) (bufs : list (list byte)) :
  List.length (number_pages nd page bufs) = List.length bufs.
Proof.
  revert page. induction bufs as [|b bufs IH]; intro page; simpl; [reflexivity|].
  rewrite IH. reflexivity.
Qed.

Lemma number_pages_nth (nd : Z) (bufs : list (list byte)) :
  forall (page : Z) (i : nat) (b : list byte),
    nth_error bufs i = Some b ->
    nth_error (number_pages nd page bufs) i
    = Some ((Py.format_0d (page + Z.of_nat i) nd ++ ".jpg")%string, b).
Proof.
  induction bufs as [|x bufs IH]; intros page i b Hi.
  - destruct i; discriminate.
  - destruct i as [|i]; simpl in *.
    + injection Hi as <-. rewrite Z.add_0_r. reflexivity.
    + rewrite (IH (page + 1) i b Hi).
      replace (page + 1 + Z.of_nat i) with (page + Z.pos (Pos.of_succ_nat i)) by lia.
      reflexivity.
Qed.

Lemma fold_write_page (nd : Z) (bufs : list (list byte)) :
  forall (zf : processor.ZipFile) (size page : Z),
  exists size',
    fold_left (processor.write_page nd) bufs (zf, size, page)
    = ({| processor.zf_compression := processor.zf_compression zf;
          processor.zf_entries := processor.zf_entries zf ++ number_pages nd page bufs |},
       size', page + Py.len bufs).
Proof.
  induction bufs as [|b bufs IH]; intros zf size page; simpl.
  - exists size. destruct zf. simpl. rewrite app_nil_r.
    unfold Py.len. simpl. rewrite Z.add_0_r. reflexivity.
  - destruct (IH (processor.writestr zf (Py.format_0d page nd ++ ".jpg")%string b)
                 (size + Py.len b) (page + 1)) as [size' E].
    exists size'. rewrite E. simpl. rewrite <- app_assoc. simpl.
    unfold Py.len. simpl List.length.
    replace (page + 1 + Z.of_nat (List.length bufs))
      with (page + Z.of_nat (S (List.length bufs))) by lia.
    reflexivity.
Qed.

Lemma fold_write_result (results : processor.dict processor.page_result) (nd : Z)
    (ks : list Z) :
  (forall k, In k ks -> In k (processor.keys results)) ->
  forall (zf : processor.ZipFile) (stats : processor.ProcessorStats) (page : Z),
  exists stats',
    fold_left (processor.write_result results nd) ks (Ok (zf, stats, page))
    = Ok ({| processor.zf_compression := processor.zf_compression zf;
             processor.zf_entries :=
               processor.zf_entries zf
               ++ number_pages nd page (flat_map (buffers_of results) ks) |},
          stats',
          page + Py.len (flat_map (buffers_of results) ks)).
Proof.
  induction ks as [|k ks IH]; intros Hks zf stats page; simpl.
  - exists stats. destruct zf. simpl. rewrite app_nil_r.
    unfold Py.len. simpl. rewrite Z.add_0_r. reflexivity.
  - destruct (dict_get_key results k (Hks k (or_introl eq_refl))) as [r Er].
    unfold buffers_of at 1 3. rewrite Er.
    destruct r as [[[idx dbl] bufs] osize]. simpl.
    destruct (fold_write_page nd bufs zf (processor.compressed_size stats) page)
      as [size' Epages].
    rewrite Epages.
    match goal with
    | |- context [Ok (?z, ?s, ?p)] =>
        destruct (IH (fun k' Hk' => Hks k' (or_intror Hk')) z s p) as [stats' E]
    end.
    exists stats'. rewrite E. simpl.
    rewrite number_pages_app, <- app_assoc.
    unfold Py.len. rewrite length_app.
    replace (page + Z.of_nat (List.length bufs)
             + Z.of_nat (List.length (flat_map (buffers_of results) ks)))
      with (page + Z.of_nat (List.length bufs
                             + List.length (flat_map (buffers_of results) ks))) by lia.
    reflexivity.
Qed.

(** The archive written for a result dictionary. *)
Lemma write_results_entries (results : processor.dict processor.page_result)
    (stats : processor.ProcessorStats) :
  exists zf stats',
    processor._write_results_to_cbz results stats = Ok (zf, stats') /\
    processor.zf_compression zf = processor.ZIP_STORED /\
    processor.zf_entries zf
    = number_pages (Z.of_nat (String.length (Py.str (Py.len results * 2)))) 1
        (flat_map (buffers_of results) (processor.sorted (processor.keys results))).
Proof.
  unfold processor._write_results_to_cbz.
  destruct (fold_write_result results
              (Z.of_nat (String.length (Py.str (Py.len results * 2))))
              (processor.sorted (processor.keys results))
              (fun k Hk => Permutation_in _ (sorted_perm _) Hk)
              {| processor.zf_compression := processor.ZIP_STORED;
                 processor.zf_entries := [] |} stats 1) as [stats' E].
  rewrite E. simpl. eexists. eexists. repeat split.
Qed.

(** ** ParallelPipeline: collecting the results *)

Section Collect.
Context `{L : Libs}.

Lemma process_single_image_result (t : processor.task) (r : processor.page_result) :
  processor.process_single_image t = Ok r ->
  processor.result_index r = processor.task_index t /\
  (List.length (processor.result_buffers r) <= 2)%nat.
Proof.
  destruct t as [[[[[index data] is_cover] q] cm] cp].
  unfold processor.process_single_image.
  destruct (is_cover || negb (processor.is_wide_image data)); intro E.
  - apply bind_ok in E as [[c st] [_ E]]. injection E as <-. simpl. split; [reflexivity | lia].
  - apply bind_ok in E as [[a b] [_ E]]. injection E as <-. simpl. split; [reflexivity | lia].
Qed.

Lemma successes_keys_incl (tasks : list processor.task) (k : Z) :
  In k (processor.keys (successes tasks)) -> In k (map processor.task_index tasks).
Proof.
  induction tasks as [|t tasks IH]; simpl; [auto|].
  unfold processor.keys in *. rewrite map_app, in_app_iff.
  intros [Hk | Hk]; [|right; apply IH; exact Hk].
  destruct (processor.process_single_image t); simpl in Hk; [|destruct Hk].
  destruct Hk as [Hk | []]. left. exact Hk.
Qed.

Lemma successes_keys_nodup (tasks : list processor.task) :
  NoDup (map processor.task_index tasks) -> NoDup (processor.keys (successes tasks)).
Proof.
  induction tasks as [|t tasks IH]; simpl; intro Hnd; [constructor|].
  inversion Hnd as [|? ? Ht Hrest]; subst.
  unfold processor.keys in *. rewrite map_app.
  destruct (processor.process_single_image t); simpl; [|apply IH; exact Hrest].
  constructor; [|apply IH; exact Hrest].
  intro Hin. apply Ht. apply successes_keys_incl. exact Hin.
Qed.

Lemma successes_keys_sorted (tasks : list processor.task) :
  StronglySorted Z.lt (map processor.task_index tasks) ->
  StronglySorted Z.lt (processor.keys (successes tasks)).
Proof.
  induction tasks as [|t tasks IH]; simpl; intro Hs; [constructor|].
  inversion Hs as [|? ? Hrest Ht]; subst.
  unfold processor.keys in *. rewrite map_app.
  destruct (processor.process_single_image t); simpl; [|apply IH; exact Hrest].
  constructor; [apply IH; exact Hrest|].
  rewrite Forall_forall in Ht |- *. intros k Hk. apply Ht.
  apply successes_keys_incl. exact Hk.
Qed.

Lemma collect_results (names : list string) (completed : list processor.task) :
  forall (k : nat) (results results' : processor.dict processor.page_result)
         (stats stats' : processor.ProcessorStats),
    NoDup (processor.keys results ++ map processor.task_index completed) ->
    processor.collect completed names (fun _ => false) k results stats
    = Ok (results', stats') ->
    results' = results ++ successes completed.
Proof.
  induction completed as [|t rest IH]; intros k results results' stats stats' Hnd E.
  - simpl in E. injection E as <- _. simpl. rewrite app_nil_r. reflexivity.
  - simpl in E. simpl in Hnd.
    destruct (processor.process_single_image t) as [r|e] eqn:Er.
    + destruct (process_single_image_result t r Er) as [Hidx _].
      rewrite Hidx in E.
      rewrite dict_set_fresh in E.
      * apply IH in E.
        -- rewrite E. simpl. rewrite Er. rewrite <- app_assoc. reflexivity.
        -- unfold processor.keys in *. rewrite map_app, <- app_assoc. exact Hnd.
      * apply NoDup_remove_2 in Hnd. intro Hin. apply Hnd.
        apply in_or_app. left. exact Hin.
    + apply bind_ok in E as [name [_ E]].
      apply IH in E.
      * rewrite E. simpl. rewrite Er. reflexivity.
      * apply NoDup_remove_1 in Hnd. exact Hnd.
Qed.

Lemma buffers_in_task_order (d : processor.dict processor.page_result)
    (tasks : list processor.task) :
  (forall t r, In t tasks -> processor.process_single_image t = Ok r ->
               processor.dict_get d (processor.task_index t) = Ok r) ->
  flat_map (buffers_of d) (processor.keys (successes tasks))
  = flat_map page_buffers tasks.
Proof.
  induction tasks as [|t tasks IH]; intro Hget; simpl; [reflexivity|].
  unfold processor.keys in *. rewrite map_app, flat_map_app.
  rewrite IH by (intros t' r' Hin; apply Hget; right; exact Hin).
  f_equal. unfold page_buffers.
  destruct (processor.process_single_image t) as [r|e] eqn:Er; simpl; [|reflexivity].
  unfold buffers_of. rewrite (Hget t r (or_introl eq_refl) Er).
  rewrite app_nil_r. reflexivity.
Qed.

End Collect.

(** C3. Archive assembly visits the result keys in strictly ascending
    order and writes each task's buffers in their own order; therefore,
    whatever the order in which the workers complete, the payloads of the
    archive are the pages of the tasks in input order. *)
Theorem archive_in_task_order `{Libs} :
  (forall (results : processor.dict processor.page_result)
          (stats : processor.ProcessorStats),
      NoDup (processor.keys results) ->
      exists zf stats',
        processor._write_results_to_cbz results stats = Ok (zf, stats') /\
        StronglySorted Z.lt (processor.sorted (processor.keys results)) /\
        Permutation (processor.sorted (processor.keys results)) (processor.keys results) /\
        map snd (processor.zf_entries zf)
        = flat_map (buffers_of results) (processor.sorted (processor.keys results))) /\
  (forall (image_data_list completed : list processor.task) (file_names : list string)
          (results : processor.dict processor.page_result)
          (stats : processor.ProcessorStats),
      StronglySorted Z.lt (map processor.task_index image_data_list) ->
      Permutation completed image_data_list ->
      processor._process_images_parallel image_data_list completed file_names
        (fun _ => false) = Ok (results, stats) ->
      exists zf stats',
        processor._write_results_to_cbz results stats = Ok (zf, stats') /\
        map snd (processor.zf_entries zf) = flat_map page_buffers image_data_list).
Proof.
  split.
  - intros results stats Hnd.
    destruct (write_results_entries results stats) as [zf [stats' [E [_ Hentries]]]].
    exists zf, stats'. split; [exact E|].
    split; [apply sorted_strict; exact Hnd|].
    split; [apply sorted_perm|].
    rewrite Hentries. apply number_pages_payload.
  - intros tasks completed names results stats Hsorted Hperm Erun.
    assert (Hnd : NoDup (map processor.task_index tasks)).
    { clear -Hsorted. induction Hsorted as [|a l Hs IH Ha]; constructor; [|exact IH].
      rewrite Forall_forall in Ha. intro Hin. specialize (Ha a Hin). lia. }
    assert (Hndc : NoDup (map processor.task_index completed)).
    { apply (Permutation_NoDup (Permutation_map _ (Permutation_sym Hperm))). exact Hnd. }
    unfold processor._process_images_parallel in Erun.
    apply collect_results in Erun; [|simpl; exact Hndc].
    simpl in Erun. subst results.
    assert (Hpd : Permutation (successes completed) (successes tasks)).
    { unfold successes. apply Permutation_flat_map. exact Hperm. }
    destruct (write_results_entries (successes completed) stats)
      as [zf [stats' [E [_ Hentries]]]].
    exists zf, stats'. split; [exact E|].
    rewrite Hentries, number_pages_payload.
    rewrite (sorted_of_permutation _ (processor.keys (successes tasks))).
    + rewrite sorted_already by (apply successes_keys_sorted; exact Hsorted).
      apply buffers_in_task_order.
      intros t r Hin Er.
      rewrite (dict_get_permutation _ _ _ (successes_keys_nodup _ Hndc) Hpd).
      apply dict_get_of_in; [apply successes_keys_nodup; exact Hnd|].
      unfold successes. apply in_flat_map. exists t. split; [exact Hin|].
      rewrite Er. left. reflexivity.
    + apply successes_keys_nodup. exact Hndc.
    + unfold processor.keys. apply Permutation_map. exact Hpd.
Qed.

Lemma archive_in_task_order_witness :
  (exists zf stats',
      processor._write_results_to_cbz Reference.five_pages processor.ProcessorStats_init
      = Ok (zf, stats') /\
      StronglySorted Z.lt (processor.sorted (processor.keys Reference.five_pages)) /\
      Permutation (processor.sorted (processor.keys Reference.five_pages))
                  (processor.keys Reference.five_pages) /\
      map snd (processor.zf_entries zf)
      = flat_map (buffers_of Reference.five_pages)
                 (processor.sorted (processor.keys Reference.five_pages))) /\
  (exists results stats zf stats',
      processor._process_images_parallel (L := Reference.RefLibs)
        Reference.batch Reference.batch_completed Reference.batch_names (fun _ => false)
      = Ok (results, stats) /\
      processor._write_results_to_cbz results stats = Ok (zf, stats') /\
      map snd (processor.zf_entries zf)
      = flat_map (page_buffers (L := Reference.RefLibs)) Reference.batch).
Proof.
  split.
  - apply (proj1 (archive_in_task_order (H := Reference.RefLibs))).
    simpl. repeat (constructor; [simpl; intuition discriminate|]). constructor.
  - destruct (processor._process_images_parallel (L := Reference.RefLibs)
                Reference.batch Reference.batch_completed Reference.batch_names
                (fun _ => false)) as [[results stats]|e] eqn:Erun;
      [|vm_compute in Erun; discriminate].
    destruct (proj2 (archive_in_task_order (H := Reference.RefLibs))
                Reference.batch Reference.batch_completed Reference.batch_names
                results stats) as [zf [stats' [Ewrite Hpay]]].
    + simpl. repeat constructor; lia.
    + exact (Permutation_cons_append
               [(0, Reference.spread_jpeg, true, 72, "none", 1%Q);
                (1, Reference.spread_jpeg, false, 72, "none", 1%Q)]
               (2, Reference.spread_png, false, 72, "none", 1%Q)).
    + exact Erun.
    + exists results, stats, zf, stats'. repeat split; assumption.
Defined.

(** ** Decimal page numbers *)

Lemma digits_length (fuel : nat) :
  forall (n : Z) (acc : string),
    String.length (Py.digits fuel n acc) = (String.length acc + digit_count fuel n)%nat.
Proof.
  induction fuel as [|fuel IH]; intros n acc; simpl; [lia|].
  destruct (n <? 10); simpl; [lia|].
  rewrite IH. simpl. lia.
Qed.

Lemma digit_count_monotone (f1 : nat) :
  forall (f2 : nat) (n m : Z),
    0 <= n <= m -> (1 <= f2)%nat -> m < 2 ^ Z.of_nat f2 ->
    (digit_count f1 n <= digit_count f2 m)%nat.
Proof.
  induction f1 as [|f1 IH]; intros f2 n m Hnm Hf2 Hm; simpl; [lia|].
  destruct f2 as [|f2]; [lia|]. simpl.
  destruct (n <? 10) eqn:En; destruct (m <? 10) eqn:Em;
    repeat match goal with
           | E : (_ <? _) = true |- _ => apply Z.ltb_lt in E
           | E : (_ <? _) = false |- _ => apply Z.ltb_ge in E
           end; try lia.
  - apply le_n_S. apply IH.
    + split; [apply Z.div_pos; lia | apply Z.div_le_mono; lia].
    + destruct f2 as [|f2]; [|lia]. simpl in Hm. lia.
    + rewrite Nat2Z.inj_succ, Z.pow_succ_r in Hm by lia.
      apply Z.div_lt_upper_bound; lia.
Qed.

Lemma str_fuel_enough (m : Z) :
  0 <= m -> m < 2 ^ Z.of_nat (S (Z.to_nat (Z.log2 m))).
Proof.
  intro Hm. rewrite Nat2Z.inj_succ, Z2Nat.id by apply Z.log2_nonneg.
  destruct (Z.eq_dec m 0) as [-> | Hne]; [simpl; lia|].
  apply Z.log2_spec. lia.
Qed.

Lemma str_length (n : Z) :
  0 <= n ->
  String.length (Py.str n) = digit_count (S (Z.to_nat (Z.log2 n))) n.
Proof.
  intro Hn. unfold Py.str.
  destruct (n <? 0) eqn:E; [apply Z.ltb_lt in E; lia|].
  rewrite digits_length. reflexivity.
Qed.

Lemma str_length_monotone (n m : Z) :
  0 <= n <= m -> (String.length (Py.str n) <= String.length (Py.str m))%nat.
Proof.
  intro Hnm. rewrite !str_length by lia.
  apply digit_count_monotone; [exact Hnm | lia | apply str_fuel_enough; lia].
Qed.

Lemma string_length_app (s1 s2 : string) :
  String.length (s1 ++ s2)%string = (String.length s1 + String.length s2)%nat.
Proof.
  induction s1 as [|c s1 IH]; simpl; [reflexivity | rewrite IH; reflexivity].
Qed.

Lemma zeros_length (k : nat) : String.length (Py.zeros k) = k.
Proof.
  induction k as [|k IH]; simpl; [reflexivity | rewrite IH; reflexivity].
Qed.

(** A non-negative number no longer than the field fills it exactly. *)
Lemma format_0d_exact (n width : Z) :
  0 <= n -> Z.of_nat (String.length (Py.str n)) <= width ->
  Py.format_0d n width
  = (Py.zeros (Z.to_nat (width - Z.of_nat (String.length (Py.str n)))) ++ Py.str n)%string
  /\ Z.of_nat (String.length (Py.format_0d n width)) = width.
Proof.
  intros Hn Hw. unfold Py.format_0d.
  destruct (n <? 0) eqn:E; [apply Z.ltb_lt in E; lia|].
  rewrite Z.sub_0_r. split; [reflexivity|].
  rewrite string_length_app, zeros_length. lia.
Qed.

(** ** Archive entry names *)

Lemma flat_map_length_bound {A B : Type} (f : A -> list B) (l : list A) (c : nat) :
  (forall x, In x l -> (List.length (f x) <= c)%nat) ->
  (List.length (flat_map f l) <= c * List.length l)%nat.
Proof.
  induction l as [|a l IH]; intro Hf; simpl; [lia|].
  rewrite length_app.
  specialize (Hf a (or_introl eq_refl)) as Ha.
  assert (Hl : (List.length (flat_map f l) <= c * List.length l)%nat).
  { apply IH. intros x Hx. apply Hf. right. exact Hx. }
  nia.
Qed.

Lemma buffers_of_bound (results : processor.dict processor.page_result) (k : Z) :
  (forall k' r, In (k', r) results ->
                (List.length (processor.result_buffers r) <= 2)%nat) ->
  (List.length (buffers_of results k) <= 2)%nat.
Proof.
  intro Hr. unfold buffers_of.
  destruct (processor.dict_get results k) as [r|e] eqn:E; [|simpl; lia].
  apply dict_get_in in E. apply (Hr k r E).
Qed.

(** C4, as stated, fails: five single-page results make five pages, whose
    count has one digit, yet the entries are named on two digits. *)
Lemma names_padded_to_page_count_counterexample :
  ~ names_padded_to_page_count /\
  (exists zf stats',
      processor._write_results_to_cbz Reference.five_pages processor.ProcessorStats_init
      = Ok (zf, stats') /\
      map fst (processor.zf_entries zf)
      = ["01.jpg"; "02.jpg"; "03.jpg"; "04.jpg"; "05.jpg"] /\
      Py.str (Py.len (processor.zf_entries zf)) = "5").
Proof.
  split.
  - intro Hclaim.
    destruct (write_results_entries Reference.five_pages processor.ProcessorStats_init)
      as [zf [stats' [E [_ Hentries]]]].
    assert (Hnd : NoDup (processor.keys Reference.five_pages)).
    { simpl. repeat (constructor; [simpl; intuition discriminate|]). constructor. }
    pose proof (Hclaim _ _ _ _ Hnd E 0%nat "01.jpg" [Reference.byte_of_Z 0]) as Hname.
    rewrite Hentries in Hname.
    assert (Hfirst : "01.jpg" = "1.jpg") by (apply Hname; vm_compute; reflexivity).
    discriminate.
  - do 2 eexists. split; [vm_compute; reflexivity|]. split; vm_compute; reflexivity.
Qed.

Lemma process_single_image_pages `{Libs} (t : processor.task) (r : processor.page_result) :
  processor.process_single_image t = Ok r ->
  List.length (processor.result_buffers r)
  = if processor.result_is_double r then 2%nat else 1%nat.
Proof.
  destruct t as [[[[[index data] is_cover] q] cm] cp].
  unfold processor.process_single_image.
  destruct (is_cover || negb (processor.is_wide_image data)); intro E.
  - apply bind_ok in E as [[c st] [_ E]]. injection E as <-. reflexivity.
  - apply bind_ok in E as [[a b] [_ E]]. injection E as <-. reflexivity.
Qed.

(** C4, amended. The archive is written with stored (uncompressed) entries
    named [<page>.jpg], the pages numbered from 1 in writing order. The page
    field is zero-padded to the number of decimal digits of twice the number
    of results: an upper bound of the page count (a task yields one buffer,
    or two when split), so every page number fills the field exactly, and
    the field is at least as wide as the page count needs. *)
Theorem archive_entry_names `{Libs}
    (results : processor.dict processor.page_result) (stats : processor.ProcessorStats) :
  (forall k r, In (k, r) results ->
               (List.length (processor.result_buffers r) <= 2)%nat) ->
  let num_digits := Z.of_nat (String.length (Py.str (Py.len results * 2))) in
  let pages := flat_map (buffers_of results) (processor.sorted (processor.keys results)) in
  (exists zf stats',
      processor._write_results_to_cbz results stats = Ok (zf, stats') /\
      processor.zf_compression zf = processor.ZIP_STORED /\
      List.length (processor.zf_entries zf) = List.length pages /\
      forall (i : nat) (data : list byte),
        nth_error pages i = Some data ->
        nth_error (processor.zf_entries zf) i
        = Some ((Py.format_0d (Z.of_nat i + 1) num_digits ++ ".jpg")%string, data) /\
        Py.format_0d (Z.of_nat i + 1) num_digits
        = (Py.zeros (Z.to_nat (num_digits
                               - Z.of_nat (String.length (Py.str (Z.of_nat i + 1)))))
           ++ Py.str (Z.of_nat i + 1))%string /\
        Z.of_nat (String.length (Py.format_0d (Z.of_nat i + 1) num_digits)) = num_digits) /\
  Py.len pages <= Py.len results * 2 /\
  Z.of_nat (String.length (Py.str (Py.len pages))) <= num_digits /\
  (forall t r, processor.process_single_image t = Ok r ->
               List.length (processor.result_buffers r)
               = if processor.result_is_double r then 2%nat else 1%nat).
Proof.
  intros Hbound num_digits pages.
  assert (Hpages : Py.len pages <= Py.len results * 2).
  { unfold Py.len, pages.
    pose proof (flat_map_length_bound (buffers_of results)
                  (processor.sorted (processor.keys results)) 2
                  (fun k _ => buffers_of_bound results k Hbound)) as Hlen.
    rewrite (Permutation_length (sorted_perm _)) in Hlen.
    unfold processor.keys in *. rewrite length_map in Hlen. lia. }
  split; [|split; [exact Hpages | split]].
  - destruct (write_results_entries results stats) as [zf [stats' [E [Hstored Hentries]]]].
    exists zf, stats'. split; [exact E|]. split; [exact Hstored|].
    fold num_digits pages in Hentries.
    split; [rewrite Hentries; apply number_pages_length|].
    intros i data Hi.
    split.
    + rewrite Hentries, (number_pages_nth num_digits pages 1 i data Hi).
      replace (1 + Z.of_nat i) with (Z.of_nat i + 1) by lia. reflexivity.
    + apply format_0d_exact; [lia|].
      assert (Hlt : (i < List.length pages)%nat).
      { apply nth_error_Some. rewrite Hi. discriminate. }
      unfold num_digits. apply inj_le. apply str_length_monotone.
      unfold Py.len in *. lia.
  - unfold num_digits. apply inj_le. apply str_length_monotone.
    unfold Py.len in *. lia.
  - intros t r. apply process_single_image_pages.
Qed.

Lemma archive_entry_names_witness :
  exists zf stats',
    processor._write_results_to_cbz Reference.five_pages processor.ProcessorStats_init
    = Ok (zf, stats') /\
    processor.zf_compression zf = processor.ZIP_STORED /\
    List.length (processor.zf_entries zf) = 5%nat /\
    nth_error (processor.zf_entries zf) 4
    = Some ("05.jpg", [Reference.byte_of_Z 4]).
Proof.
  destruct (archive_entry_names (H := Reference.RefLibs)
              Reference.five_pages processor.ProcessorStats_init)
    as [[zf [stats' [E [Hstored [Hlen Hnames]]]]] _].
  - intros k r Hin. simpl in Hin.
    repeat (destruct Hin as [Hin | Hin]; [injection Hin as <- <-; simpl; lia|]).
    destruct Hin.
  - exists zf, stats'. split; [exact E|]. split; [exact Hstored|].
    split; [exact Hlen|].
    apply (Hnames 4%nat [Reference.byte_of_Z 4]). reflexivity.
Defined.

(** ** Running the engine on the sample pages *)

Example compress_image_runs :
  exists out st,
    compressor.compress_image (L := Reference.RefLibs)
      Reference.spread_jpeg 72 "none" 1 false = Ok (out, st) /\
    compressor.st_original_quality st = 90 /\
    compressor.st_quality_used st = 72 /\
    compressor.st_is_grayscale st = true.
Proof.
  do 2 eexists. split; [vm_compute; reflexivity|]. repeat split.
Qed.

Example split_and_compress_runs :
  exists first second,
    processor.split_and_compress (L := Reference.RefLibs)
      Reference.spread_jpeg 95 "none" 1 = Ok (first, second) /\
    first = Reference.file_of 74 (Reference.page 3 3 (fun _ _ => false)) 82 /\
    second = Reference.file_of 74 (Reference.page 2 3 (fun _ _ => true)) 82.
Proof.
  do 2 eexists. split; [vm_compute; reflexivity|]. split; vm_compute; reflexivity.
Qed.

Example merge_boxes_joins_rows :
  cropper.merge_boxes [(3, 5, 0, 0); (20, 21, 0, 0); (4, 6, 1, 1); (4, 5, 2, 2)] (1%Q, 1%Q)
  = [(20, 21, 0, 0); (3, 6, 0, 2)].
Proof. vm_compute. reflexivity. Qed.

Example group_close_values_drops_breaker :
  cropper.group_close_values [39; 40; 41; 42; 59; 60; 61; 62] 1 = [(39, 42); (60, 62)].
Proof. vm_compute. reflexivity. Qed.

(* ------------------------------------------------------------------ *)
(** * Further properties *)

(** ** More on the page splitter *)



(** X2. [process_image_for_split] returns two buffers exactly for a wide
    page that is not the cover and one buffer otherwise. On the two-buffer
    path the requested quality plays no part: the buffers are the two pages
    of the right-to-left split, each saved as JPEG at the fixed quality 95
    with [optimize] and nothing else. On the one-buffer path the buffer is
    what [compress_image] returns at the requested quality with cropping
    off. *)
Theorem process_image_for_split_pages `{Libs}
    (image_data : list byte) (is_cover : bool) (quality : Z) :
  (forall buffers,
      splitter.process_image_for_split image_data is_cover quality = Ok buffers ->
      List.length buffers
      = if negb is_cover && splitter.is_wide_image image_data then 2%nat else 1%nat) /\
  (forall other_quality,
      is_cover = false -> splitter.is_wide_image image_data = true ->
      splitter.process_image_for_split image_data is_cover quality
      = splitter.process_image_for_split image_data is_cover other_quality) /\
  (forall buffers,
      is_cover = false -> splitter.is_wide_image image_data = true ->
      splitter.process_image_for_split image_data is_cover quality = Ok buffers ->
      exists first_page second_page first_buffer second_buffer kw,
        splitter.split_pages image_data "rtl" = Ok (first_page, second_page) /\
        splitter.split_double_page image_data "rtl" = Ok (first_buffer, second_buffer) /\
        save first_page kw = Ok first_buffer /\
        save second_page kw = Ok second_buffer /\
        buffers = [first_buffer; second_buffer] /\
        kw = splitter.split_kwargs /\
        kw_format kw = "JPEG" /\ kw_quality kw = 95 /\ kw_optimize kw = true /\
        kw_subsampling kw = None /\ kw_progressive kw = None) /\
  (forall buffers,
      is_cover = true \/ splitter.is_wide_image image_data = false ->
      splitter.process_image_for_split image_data is_cover quality = Ok buffers ->
      exists compressed st,
        compressor.compress_image image_data quality "none" 1 false = Ok (compressed, st) /\
        buffers = [compressed]).
Proof.
  split; [|split; [|split]].
  - intros buffers E. unfold splitter.process_image_for_split in E.
    destruct is_cover; simpl.
    + apply bind_ok in E as [[c st] [_ E]]. injection E as <-. reflexivity.
    + destruct (splitter.is_wide_image image_data).
      * apply bind_ok in E as [[a b] [_ E]]. injection E as <-. reflexivity.
      * apply bind_ok in E as [[c st] [_ E]]. injection E as <-. reflexivity.
  - intros other -> Hwide. unfold splitter.process_image_for_split. rewrite Hwide.
    reflexivity.
  - intros buffers -> Hwide E. unfold splitter.process_image_for_split in E.
    rewrite Hwide in E.
    apply bind_ok in E as [[b1 b2] [Esplit E]]. injection E as <-.
    destruct (split_double_page_buffers _ _ _ _ Esplit) as [p1 [p2 [Epages [E1 E2]]]].
    exists p1, p2, b1, b2, splitter.split_kwargs.
    repeat (split; [assumption || reflexivity|]). reflexivity.
  - intros buffers Hsingle E. unfold splitter.process_image_for_split in E.
    destruct is_cover.
    + apply bind_ok in E as [[c st] [Ec E]]. injection E as <-.
      exists c, st. split; [exact Ec | reflexivity].
    + destruct Hsingle as [Hc | Hw]; [discriminate|]. rewrite Hw in E.
      apply bind_ok in E as [[c st] [Ec E]]. injection E as <-.
      exists c, st. split; [exact Ec | reflexivity].
Qed.

Lemma process_image_for_split_pages_witness :
  splitter.process_image_for_split (L := Reference.RefLibs) Reference.spread_jpeg false 60
  = splitter.process_image_for_split (L := Reference.RefLibs) Reference.spread_jpeg false 95 /\
  (exists first_page second_page first_buffer second_buffer kw,
      splitter.process_image_for_split (L := Reference.RefLibs)
        Reference.spread_jpeg false 60 = Ok [first_buffer; second_buffer] /\
      save (L := Reference.RefLibs) first_page kw = Ok first_buffer /\
      save (L := Reference.RefLibs) second_page kw = Ok second_buffer /\
      kw_quality kw = 95).
Proof.
  destruct (process_image_for_split_pages (H := Reference.RefLibs)
              Reference.spread_jpeg false 60) as (_ & Hany & Hwide & _).
  split; [apply Hany; [reflexivity | vm_compute; reflexivity]|].
  destruct (splitter.process_image_for_split (L := Reference.RefLibs)
              Reference.spread_jpeg false 60) as [buffers|e] eqn:Erun;
    [|vm_compute in Erun; discriminate].
  destruct (Hwide buffers eq_refl) as (p1 & p2 & b1 & b2 & kw & _ & _ & E1 & E2 & -> & _ & _
                                       & Hq & _);
    [vm_compute; reflexivity | reflexivity |].
  exists p1, p2, b1, b2, kw.
  split; [reflexivity|]. split; [exact E1|]. split; [exact E2 | exact Hq].
Defined.

(** ** Pages that cannot be read *)

(** X3. A page whose bytes cannot be opened, or open but cannot be decoded,
    makes its task raise that very exception, cover or not, whatever the
    crop settings; the quality estimate of unopenable bytes is 80 and they
    never count as wide. *)
Theorem unreadable_page_raises `{Libs} (index : Z) (image_data : list byte)
    (is_cover : bool) (quality : Z) (crop_mode : string) (crop_power : Q) (e : Py.exn) :
  (Image_open image_data = Raise e ->
   processor.process_single_image
     (index, image_data, is_cover, quality, crop_mode, crop_power) = Raise e /\
   splitter.process_image_for_split image_data is_cover quality = Raise e /\
   compressor.estimate_jpeg_quality image_data = 80 /\
   processor.is_wide_image image_data = false) /\
  (forall opened,
      Image_open image_data = Ok opened -> load image_data opened = Raise e ->
      processor.process_single_image
        (index, image_data, is_cover, quality, crop_mode, crop_power) = Raise e).
Proof.
  split.
  - intro Eopen.
    assert (Hwide : processor.is_wide_image image_data = false).
    { unfold processor.is_wide_image. rewrite Eopen. reflexivity. }
    assert (Hcomp : forall m p f,
               compressor.compress_image image_data quality m p f = Raise e).
    { intros m p f. unfold compressor.compress_image, compressor.compress_prepare.
      rewrite Eopen. reflexivity. }
    repeat split.
    + unfold processor.process_single_image. rewrite Hwide, orb_true_r, Hcomp. reflexivity.
    + unfold splitter.process_image_for_split, splitter.is_wide_image.
      rewrite Eopen, Hcomp. destruct is_cover; reflexivity.
    + unfold compressor.estimate_jpeg_quality. rewrite Eopen. reflexivity.
    + exact Hwide.
  - intros opened Eopen Eload.
    unfold processor.process_single_image.
    destruct (is_cover || negb (processor.is_wide_image image_data)).
    + unfold compressor.compress_image, compressor.compress_prepare.
      rewrite Eopen. simpl. rewrite Eload. reflexivity.
    + unfold processor.split_and_compress, processor.split_prepare.
      rewrite Eopen. simpl. rewrite Eload. reflexivity.
Qed.

Lemma unreadable_page_raises_witness :
  processor.process_single_image (L := Reference.RefLibs)
    (3, Reference.garbage, false, 72, "margins", 1%Q)
  = Raise (OSError "cannot identify image file") /\
  processor.process_single_image (L := Reference.RefLibs)
    (4, Reference.truncated_jpeg, false, 72, "margins", 1%Q)
  = Raise (OSError "image file is truncated").
Proof.
  split.
  - apply (unreadable_page_raises (H := Reference.RefLibs) 3 Reference.garbage false 72
             "margins" 1 (OSError "cannot identify image file")).
    reflexivity.
  - eapply (proj2 (unreadable_page_raises (H := Reference.RefLibs) 4
                     Reference.truncated_jpeg false 72 "margins" 1
                     (OSError "image file is truncated"))).
    + vm_compute. reflexivity.
    + vm_compute. reflexivity.
Defined.

(** ** More on the compression engine *)

Lemma normalize_mode_range `{Libs} (img : Image) :
  mode (compressor.normalize_mode img) = "L" \/ mode (compressor.normalize_mode img) = "RGB".
Proof.
  unfold compressor.normalize_mode.
  destruct (String.eqb (mode img) "RGBA" || String.eqb (mode img) "P"
            || String.eqb (mode img) "LA").
  - right. cbv zeta.
    match goal with
    | |- context [if (String.eqb (mode ?i) "RGBA" || String.eqb (mode ?i) "LA")
                  then _ else _] =>
        destruct (String.eqb (mode i) "RGBA" || String.eqb (mode i) "LA")
    end; reflexivity.
  - destruct (String.eqb (mode img) "L") eqn:EL.
    + left. apply String.eqb_eq. exact EL.
    + right. destruct (String.eqb (mode img) "RGB") eqn:E; simpl; [|reflexivity].
      apply String.eqb_eq. exact E.
Qed.

Lemma normalize_mode_fixed `{Libs} (img : Image) :
  mode img = "L" \/ mode img = "RGB" -> compressor.normalize_mode img = img.
Proof.
  unfold compressor.normalize_mode. intros [E | E]; rewrite E; reflexivity.
Qed.

(** X4. Mode normalisation always ends in ['L'] or ['RGB'], leaves images
    already in one of the two untouched, and is therefore idempotent. *)
Theorem normalize_mode_idempotent `{Libs} (img : Image) :
  (mode (compressor.normalize_mode img) = "L"
   \/ mode (compressor.normalize_mode img) = "RGB") /\
  compressor.normalize_mode (compressor.normalize_mode img) = compressor.normalize_mode img /\
  (mode img = "L" \/ mode img = "RGB" -> compressor.normalize_mode img = img).
Proof.
  split; [apply normalize_mode_range|].
  split; [apply normalize_mode_fixed; apply normalize_mode_range|].
  apply normalize_mode_fixed.
Qed.

Lemma normalize_mode_idempotent_witness :
  compressor.normalize_mode (L := Reference.RefLibs) Reference.spread = Reference.spread.
Proof.
  apply (normalize_mode_idempotent (H := Reference.RefLibs) Reference.spread).
  left. reflexivity.
Defined.

Lemma crop_decision_mode (img r : Image) (bot_y_pos window_h : Z) (merged : list cropper.bx) :
  cropper.crop_decision img bot_y_pos window_h merged = Ok r -> mode r = mode img.
Proof.
  unfold cropper.crop_decision.
  destruct (cropper.lowest_boxes _ _); [intro E; injection E as <-; reflexivity|].
  destruct (cropper.should_crop _ _ _); [|intro E; injection E as <-; reflexivity].
  destruct (cropper.boxes_in_range _ _); [intro E; injection E as <-; reflexivity|].
  apply crop_mode_kept.
Qed.

Lemma crop_margins_mode `{Libs} (img r : Image) (power : Q) :
  cropper.crop_margins img power = Ok r -> mode r = mode img.
Proof.
  unfold cropper.crop_margins.
  destruct (Py.Qleb power 0); [intro E; injection E as <-; reflexivity|].
  intro E. apply bind_ok in E as [[gray bw] [_ E]].
  destruct (getbbox bw); [eapply crop_mode_kept; exact E|].
  injection E as <-. reflexivity.
Qed.

Lemma crop_page_number_mode `{Libs} (img r : Image) (power : Q) :
  cropper.crop_page_number img power = Ok r -> mode r = mode img.
Proof.
  unfold cropper.crop_page_number.
  destruct (Py.Qleb power 0); [intro E; injection E as <-; reflexivity|].
  intro E. apply bind_ok in E as [found [_ E]].
  destruct found as [[[bot wh] merged]|]; [eapply crop_decision_mode; exact E|].
  injection E as <-. reflexivity.
Qed.

Lemma apply_crop_mode `{Libs} (img r : Image) (crop_mode : string) (power : Q) :
  cropper.apply_crop img crop_mode power = Ok r -> mode r = mode img.
Proof.
  unfold cropper.apply_crop.
  destruct (_ || _); [intro E; injection E as <-; reflexivity|].
  intro E. apply bind_ok in E as [trimmed [Em E]].
  assert (Ht : mode trimmed = mode img).
  { destruct (_ || _) in Em; [eapply crop_margins_mode; exact Em|].
    injection Em as <-. reflexivity. }
  destruct (String.eqb crop_mode "margins+page").
  - apply crop_page_number_mode in E. congruence.
  - injection E as <-. exact Ht.
Qed.

Lemma jpeg_kwargs_fields (img : Image) (q : Z) :
  kw_format (compressor.jpeg_kwargs img q) = "JPEG" /\
  kw_optimize (compressor.jpeg_kwargs img q) = true /\
  (mode img = "RGB" ->
   kw_subsampling (compressor.jpeg_kwargs img q) = Some "4:2:0"
   /\ kw_progressive (compressor.jpeg_kwargs img q) = Some true) /\
  (mode img = "L" ->
   kw_subsampling (compressor.jpeg_kwargs img q) = None
   /\ kw_progressive (compressor.jpeg_kwargs img q) = None).
Proof.
  unfold compressor.jpeg_kwargs.
  destruct (String.eqb (mode img) "RGB") eqn:E; simpl;
    (split; [reflexivity|]); (split; [reflexivity|]);
    split; intro M; rewrite M in E; vm_compute in E;
    try discriminate; split; reflexivity.
Qed.

(** X5. Whatever the input mode and the crop settings, the image handed to
    the JPEG encoder by [compress_image] is single-channel or true-colour;
    chroma subsampling 4:2:0 and progressive layout are requested exactly
    for true-colour output; a forced grayscale always yields single-channel
    output. *)
Theorem encoder_input_mode `{Libs} (image_data : list byte) (quality : Z)
    (crop_mode : string) (crop_power : Q) (force_grayscale : bool)
    (img : Image) (kw : save_kwargs) (oq : Z) :
  compressor.compress_prepare image_data quality crop_mode crop_power force_grayscale
  = Ok (img, kw, oq) ->
  (mode img = "L" \/ mode img = "RGB") /\
  kw_format kw = "JPEG" /\ kw_optimize kw = true /\
  (mode img = "RGB" ->
   kw_subsampling kw = Some "4:2:0" /\ kw_progressive kw = Some true) /\
  (mode img = "L" -> kw_subsampling kw = None /\ kw_progressive kw = None) /\
  (force_grayscale = true -> mode img = "L").
Proof.
  unfold compressor.compress_prepare. intro E.
  apply bind_ok in E as [opened [_ E]].
  apply bind_ok in E as [decoded [_ E]].
  apply bind_ok in E as [cropped [Ecrop E]].
  apply apply_crop_mode in Ecrop.
  pose proof (normalize_mode_range decoded) as Hrange. rewrite <- Ecrop in Hrange.
  injection E as <- <- _.
  assert (Hmode : forall g : bool,
             let out := if g && String.eqb (mode cropped) "RGB"
                        then convert cropped "L" else cropped in
             (mode out = "L" \/ mode out = "RGB") /\ (g = true -> mode out = "L")).
  { intros g. destruct Hrange as [E | E]; rewrite E; destruct g; simpl; auto.
    split; [auto | discriminate]. }
  match goal with
  | |- context [compressor.jpeg_kwargs ?o _] =>
      match o with
      | if ?g && _ then _ else _ => destruct (Hmode g) as [Hout Hforce]
      end
  end.
  cbv zeta in Hout, Hforce.
  match goal with
  | |- context [compressor.jpeg_kwargs ?o ?q] =>
      destruct (jpeg_kwargs_fields o q) as [Hf [Ho [Hrgb Hl]]]
  end.
  split; [exact Hout|]. split; [exact Hf|]. split; [exact Ho|].
  split; [exact Hrgb|]. split; [exact Hl|].
  intro F. apply Hforce. rewrite F. reflexivity.
Qed.

Lemma encoder_input_mode_witness :
  exists img kw oq,
    compressor.compress_prepare (L := Reference.RefLibs)
      Reference.spread_jpeg 72 "none" 1 true = Ok (img, kw, oq) /\
    mode img = "L" /\ kw_subsampling kw = None.
Proof.
  destruct (compressor.compress_prepare (L := Reference.RefLibs)
              Reference.spread_jpeg 72 "none" 1 true) as [[[img kw] oq]|e] eqn:E;
    [|vm_compute in E; discriminate].
  destruct (encoder_input_mode (H := Reference.RefLibs) _ _ _ _ _ _ _ _ E)
    as [_ [_ [_ [_ [Hl Hforce]]]]].
  exists img, kw, oq. split; [reflexivity|].
  split; [apply Hforce; reflexivity | apply Hl; apply Hforce; reflexivity].
Defined.

(** X6. [compress_image] succeeds exactly when the preparation and the
    encoder succeed: the optional optimiser can replace the encoded bytes
    but never makes the call fail. The returned statistics are those of the
    call: input length, output length, their difference, their quotient
    (1.0 for an empty input), the mode and both qualities. *)
Theorem compress_image_outcome `{Libs} (image_data : list byte) (quality : Z)
    (crop_mode : string) (crop_power : Q) (force_grayscale : bool) :
  (forall img kw oq saved,
      compressor.compress_prepare image_data quality crop_mode crop_power force_grayscale
      = Ok (img, kw, oq) ->
      save img kw = Ok saved ->
      exists st,
        compressor.compress_image image_data quality crop_mode crop_power force_grayscale
        = Ok (compressor.try_optimize saved, st)) /\
  (forall saved,
      compressor.try_optimize saved = saved \/
      exists optimize_jpeg,
        mozjpeg = Some optimize_jpeg
        /\ optimize_jpeg saved = Ok (compressor.try_optimize saved)) /\
  (forall out st,
      compressor.compress_image image_data quality crop_mode crop_power force_grayscale
      = Ok (out, st) ->
      (exists img kw saved,
          compressor.compress_prepare image_data quality crop_mode crop_power
            force_grayscale
          = Ok (img, kw, compressor.st_original_quality st)
          /\ save img kw = Ok saved /\ out = compressor.try_optimize saved
          /\ compressor.st_is_grayscale st = String.eqb (mode img) "L") /\
      compressor.st_original_size st = Py.len image_data /\
      compressor.st_compressed_size st = Py.len out /\
      compressor.st_saved st = Py.len image_data - Py.len out /\
      compressor.st_original_quality st = compressor.estimate_jpeg_quality image_data /\
      compressor.st_ratio st
      = (if 0 <? Py.len image_data
         then (inject_Z (Py.len out) / inject_Z (Py.len image_data))%Q else 1%Q)).
Proof.
  split; [|split].
  - intros img kw oq saved Eprep Esave.
    unfold compressor.compress_image. rewrite Eprep. simpl. rewrite Esave. simpl.
    eexists. reflexivity.
  - intro saved. unfold compressor.try_optimize.
    destruct mozjpeg as [opt|]; [|left; reflexivity].
    destruct (opt saved) as [better|e] eqn:E; [|left; reflexivity].
    right. exists opt. split; [reflexivity | exact E].
  - intros out st E. unfold compressor.compress_image in E.
    apply bind_ok in E as [[[img kw] oq] [Eprep E]].
    apply bind_ok in E as [saved [Esave E]].
    injection E as <- <-. simpl.
    destruct (compress_prepare_quality _ _ _ _ _ _ _ _ Eprep) as [_ Hoq].
    split; [exists img, kw, saved; repeat split; assumption|].
    repeat split. exact Hoq.
Qed.

Lemma compress_image_outcome_witness :
  exists st,
    compressor.compress_image (L := Reference.RefLibs)
      Reference.spread_jpeg 72 "none" 1 false
    = Ok (Reference.file_of 74 Reference.spread 72, st).
Proof.
  destruct (compress_image_outcome (H := Reference.RefLibs)
              Reference.spread_jpeg 72 "none" 1 false) as [Hok _].
  eapply Hok.
  - vm_compute. reflexivity.
  - vm_compute. reflexivity.
Defined.

(** ** More on the colour classifier *)

Lemma Qlt_fraction (c : Z) (d : positive) (a b : Z) :
  0 < b ->
  (Py.Qltb (c # d) (inject_Z a / inject_Z b)%Q = true <-> c * b < a * Z.pos d).
Proof.
  intro Hb. rewrite Qltb_true.
  destruct b as [|b|b]; try lia.
  unfold Qlt, Qdiv, Qmult, Qinv, inject_Z. simpl. lia.
Qed.

Lemma filter_map_length {A B : Type} (f : B -> bool) (g : A -> B) (l : list A) :
  List.length (filter f (map g l)) = List.length (filter (fun x => f (g x)) l).
Proof.
  induction l as [|a l IH]; simpl; [reflexivity|].
  destruct (f (g a)); simpl; rewrite IH; reflexivity.
Qed.

Lemma filter_all {A : Type} (f : A -> bool) (l : list A) :
  (forall x, In x l -> f x = true) -> filter f l = l.
Proof.
  induction l as [|a l IH]; intro Hf; simpl; [reflexivity|].
  rewrite (Hf a (or_introl eq_refl)). f_equal. apply IH.
  intros x Hx. apply Hf. right. exact Hx.
Qed.

(** X7. On a true-colour image the classifier draws
    [min(sample_size, h * w)] pixel indices with the fixed seed 42 and
    answers True exactly when more than 92 percent of the drawn pixels have
    both [|R - G|] and [|R - B|] below 15 (that is, [23 n < 25 near]); so it
    answers True when every drawn pixel is near-neutral and at least one is
    drawn, and False when none is drawn. A single-channel image is
    grayscale without any draw. *)
Theorem is_grayscale_criterion `{Libs} (img : Image) (sample_size : Z) :
  let indices :=
    random_choice 42 (height img * width img)
                  (Z.min sample_size (height img * width img)) in
  let neutral (i : Z) :=
    let p := pixel_at img (i mod width img) (i / width img) in
    (Z.abs (band p 0 - band p 1) <? 15) && (Z.abs (band p 0 - band p 2) <? 15) in
  (mode img = "RGB" ->
   compressor.is_grayscale_sampled img sample_size
   = (compressor.is_grayscale_image img sample_size, indices) /\
   (compressor.is_grayscale_image img sample_size = true
    <-> 23 * Py.len indices < 25 * Py.len (filter neutral indices)) /\
   (indices <> [] -> (forall i, In i indices -> neutral i = true) ->
    compressor.is_grayscale_image img sample_size = true) /\
   (indices = [] -> compressor.is_grayscale_image img sample_size = false)) /\
  (mode img = "L" -> compressor.is_grayscale_sampled img sample_size = (true, [])).
Proof.
  intros indices neutral. split.
  - intro Hrgb.
    assert (Hiff : compressor.is_grayscale_image img sample_size = true
                   <-> 23 * Py.len indices < 25 * Py.len (filter neutral indices)).
    { unfold compressor.is_grayscale_image, compressor.is_grayscale_sampled.
      rewrite Hrgb. simpl fst. cbv zeta. fold indices.
      unfold Py.len. rewrite filter_map_length, length_map.
      change (fun x : Z =>
                (Z.abs (band (pixel_at img (x mod width img) (x / width img)) 0
                        - band (pixel_at img (x mod width img) (x / width img)) 1) <? 15)
                && (Z.abs (band (pixel_at img (x mod width img) (x / width img)) 0
                           - band (pixel_at img (x mod width img) (x / width img)) 2) <? 15))
        with neutral.
      pose proof (filter_length_le neutral indices) as Hle.
      destruct (Z.of_nat (List.length indices) =? 0) eqn:E0.
      - apply Z.eqb_eq in E0. split; [discriminate | lia].
      - apply Z.eqb_neq in E0. rewrite Qlt_fraction by lia. lia. }
    split; [|split; [exact Hiff | split]].
    + unfold compressor.is_grayscale_image, compressor.is_grayscale_sampled.
      rewrite Hrgb. reflexivity.
    + intros Hne Hall. apply Hiff. rewrite (filter_all _ _ Hall).
      destruct indices; [contradiction | unfold Py.len; simpl List.length; lia].
    + intro Hemp. apply not_true_is_false. intro E.
      apply Hiff in E. rewrite Hemp in E. simpl in E. lia.
  - intro HL. unfold compressor.is_grayscale_sampled. rewrite HL. reflexivity.
Qed.

Lemma is_grayscale_criterion_witness :
  compressor.is_grayscale_sampled (L := Reference.RefLibs)
    {| format := None; mode := "RGB"; width := 2; height := 1;
       pixels := [[[10; 12; 9]; [200; 190; 205]]] |} 2000
  = (true, [0; 1]).
Proof.
  destruct (is_grayscale_criterion (H := Reference.RefLibs)
              {| format := None; mode := "RGB"; width := 2; height := 1;
                 pixels := [[[10; 12; 9]; [200; 190; 205]]] |} 2000) as [Hrgb _].
  destruct (Hrgb eq_refl) as [Hrun [_ [Hall _]]].
  rewrite Hrun. rewrite Hall.
  - reflexivity.
  - vm_compute. discriminate.
  - intros i Hi. vm_compute in Hi.
    destruct Hi as [<- | [<- | []]]; vm_compute; reflexivity.
Defined.

(** ** More on the croppers *)

(** X8. [detect_background_color] reads the pixels at distance 5 from the
    corners: on an image narrower or shorter than 6 pixels the first read
    raises [IndexError], and with it [crop_margins] and [crop_page_number]
    at any positive power; on a larger image it answers ['white'] or
    ['black']. *)
Theorem background_needs_six_pixels `{Libs} (img : Image) (power : Q) :
  (width img <= 5 \/ height img <= 5 ->
   cropper.detect_background_color img = Raise IndexError /\
   ((0 < power)%Q ->
    cropper.crop_margins img power = Raise IndexError /\
    cropper.crop_page_number img power = Raise IndexError)) /\
  (6 <= width img -> 6 <= height img ->
   cropper.detect_background_color img = Ok "white"
   \/ cropper.detect_background_color img = Ok "black").
Proof.
  set (gray := if negb (String.eqb (mode img) "L") then grayscale img else img).
  assert (Hw : width gray = width img) by (unfold gray; destruct (negb _); reflexivity).
  assert (Hh : height gray = height img) by (unfold gray; destruct (negb _); reflexivity).
  split.
  - intro Hsmall.
    assert (Hdet : cropper.detect_background_color img = Raise IndexError).
    { unfold cropper.detect_background_color. fold gray. unfold size, getpixel.
      change (5 <? 0) with false. cbv iota.
      assert (Hout : in_image gray 5 5 = false).
      { unfold in_image. rewrite Hw, Hh.
        destruct (5 <? width img) eqn:E1; destruct (5 <? height img) eqn:E2;
          simpl; try reflexivity.
        apply Z.ltb_lt in E1. apply Z.ltb_lt in E2. lia. }
      rewrite Hout. reflexivity. }
    split; [exact Hdet|].
    intro Hp. apply Qltb_true in Hp. unfold Py.Qltb in Hp. apply negb_true_iff in Hp.
    unfold cropper.crop_margins, cropper.crop_page_number, cropper.page_number_boxes,
      cropper.content_mask, Py.Qleb.
    rewrite Hp, Hdet. split; reflexivity.
  - intros H6w H6h.
    unfold cropper.detect_background_color. fold gray. unfold size, getpixel.
    rewrite Hw, Hh.
    assert (Hin : forall x y, 0 <= x < width img -> 0 <= y < height img ->
                              in_image gray x y = true).
    { intros x y Hx Hy. unfold in_image. rewrite Hw, Hh.
      repeat (apply andb_true_iff; split);
        try (apply Z.leb_le; lia); apply Z.ltb_lt; lia. }
    change (5 <? 0) with false. cbv iota.
    assert (E6w : (width img - 6 <? 0) = false) by (apply Z.ltb_ge; lia).
    assert (E6h : (height img - 6 <? 0) = false) by (apply Z.ltb_ge; lia).
    rewrite E6w, E6h.
    rewrite !Hin by lia. simpl.
    match goal with
    | |- context [if ?c then _ else _] => destruct c; auto
    end.
Qed.

Lemma background_needs_six_pixels_witness :
  cropper.crop_margins (L := Reference.RefLibs) Reference.spread 1 = Raise IndexError /\
  cropper.crop_page_number (L := Reference.RefLibs) Reference.spread 1 = Raise IndexError.
Proof.
  destruct (background_needs_six_pixels (H := Reference.RefLibs) Reference.spread 1)
    as [Hsmall _].
  destruct Hsmall as [_ Hcrop]; [left; simpl; lia|].
  apply Hcrop. reflexivity.
Defined.

Lemma int_monotone (x y : Q) : (x <= y)%Q -> Py.int_ x <= Py.int_ y.
Proof.
  destruct x as [a b], y as [c d]. unfold Qle, Py.int_. simpl. intro Hle.
  assert (Hfloor : forall u v (p q : positive),
             0 <= u -> u * Z.pos q <= v * Z.pos p -> u / Z.pos p <= v / Z.pos q).
  { intros u v p q Hu Huv. apply Z.div_le_lower_bound; [lia|].
    pose proof (Z.mul_div_le u (Z.pos p) ltac:(lia)) as Hm.
    set (t := u / Z.pos p) in *.
    apply (Z.mul_le_mono_pos_l _ _ (Z.pos p)); [lia|].
    assert (Hstep : Z.pos p * t * Z.pos q <= u * Z.pos q).
    { apply Z.mul_le_mono_nonneg_r; [lia | exact Hm]. }
    clearbody t. nia. }
  destruct (Z_lt_le_dec a 0) as [Ha | Ha]; destruct (Z_lt_le_dec c 0) as [Hc | Hc].
  - assert (Ea : a = - (- a)) by lia. assert (Ec : c = - (- c)) by lia.
    set (a' := - a) in *. set (c' := - c) in *. clearbody a' c'. subst a c.
    rewrite (Z.quot_opp_l a'), (Z.quot_opp_l c') by lia.
    rewrite (Z.quot_div_nonneg a'), (Z.quot_div_nonneg c') by lia.
    apply Z.opp_le_mono. rewrite !Z.opp_involutive.
    apply Hfloor; lia.
  - assert (H1 : Z.quot a (Z.pos b) <= 0).
    { assert (Ea : a = - (- a)) by lia.
      set (a' := - a) in *. clearbody a'. subst a.
      rewrite Z.quot_opp_l by lia.
      pose proof (Z.quot_pos a' (Z.pos b) ltac:(lia) ltac:(lia)). lia. }
    pose proof (Z.quot_pos c (Z.pos d) Hc ltac:(lia)). lia.
  - nia.
  - rewrite !Z.quot_div_nonneg by lia. apply Hfloor; lia.
Qed.

(** X9. The binarisation threshold never grows with the power, and stays
    within 48 and 240 for a power between 0 and 3. *)
Theorem threshold_from_power_antitone (p q : Q) :
  ((p <= q)%Q -> cropper.threshold_from_power q <= cropper.threshold_from_power p) /\
  ((0 <= p)%Q -> (p <= 3)%Q -> 48 <= cropper.threshold_from_power p <= 240).
Proof.
  split.
  - intro Hpq. unfold cropper.threshold_from_power. apply int_monotone. lra.
  - intros H0 H3. unfold cropper.threshold_from_power. split.
    + apply (Z.le_trans _ (Py.int_ (48 # 1))); [vm_compute; discriminate|].
      apply int_monotone. lra.
    + apply (Z.le_trans _ (Py.int_ (240 # 1))); [|vm_compute; discriminate].
      apply int_monotone. lra.
Qed.

Lemma threshold_from_power_antitone_witness :
  cropper.threshold_from_power 2 <= cropper.threshold_from_power (1 # 2) /\
  48 <= cropper.threshold_from_power (5 # 2) <= 240.
Proof.
  split.
  - apply (proj1 (threshold_from_power_antitone (1 # 2) 2)). unfold Qle. simpl. lia.
  - apply (proj2 (threshold_from_power_antitone (5 # 2) 0)); unfold Qle; simpl; lia.
Defined.

Lemma Qltb_shift (x y : Z) (m : Q) :
  Py.Qltb (inject_Z x) (inject_Z y - m)%Q = Py.Qltb (inject_Z x + m)%Q (inject_Z y).
Proof.
  apply eq_true_iff_eq. rewrite !Qltb_true. split; intro Hlt; lra.
Qed.

(** Whether two boxes intersect within the tolerance does not depend on
    their order. *)
Lemma box_intersect_symmetric (box1 box2 : cropper.bx) (max_dist : Q * Q) :
  cropper.box_intersect box1 box2 max_dist = cropper.box_intersect box2 box1 max_dist.
Proof.
  unfold cropper.box_intersect. rewrite !Qltb_shift. f_equal.
  repeat match goal with
         | |- context [Py.Qltb ?a ?b] =>
             let v := fresh "v" in set (v := Py.Qltb a b)
         end.
  destruct v, v0, v1, v2; reflexivity.
Qed.

(** ** Grouping close values *)

Lemma group_fold_prefix (d : Q) (vals : list Z) :
  forall (g g0 : list (Z * Z)) (s e : Z),
    fold_left (cropper.group_step d) vals (g ++ g0, s, e)
    = let '(g1, s1, e1) := fold_left (cropper.group_step d) vals (g0, s, e) in
      (g ++ g1, s1, e1).
Proof.
  induction vals as [|v vals IH]; intros g g0 s e; simpl; [reflexivity|].
  destruct (s =? -1); [apply IH|].
  destruct (Py.Qleb (inject_Z (v - e)) d); [apply IH|].
  rewrite <- app_assoc. apply IH.
Qed.

Lemma last_nonempty {A : Type} (l : list A) (x a b : A) :
  last (x :: l) a = last (x :: l) b.
Proof.
  revert x. induction l as [|y l IH]; intro x; [reflexivity|].
  change (last (y :: l) a = last (y :: l) b). apply IH.
Qed.

Lemma group_fold_chain (d : Q) (vals : list Z) :
  forall (g : list (Z * Z)) (s e : Z),
    s <> -1 -> within_tolerance d e vals ->
    fold_left (cropper.group_step d) vals (g, s, e) = (g, s, last vals e).
Proof.
  induction vals as [|v vals IH]; intros g s e Hs Hchain; simpl; [reflexivity|].
  destruct Hchain as [Hv Hrest].
  apply Z.eqb_neq in Hs as Es. rewrite Es.
  apply Qleb_true in Hv. rewrite Hv.
  rewrite (IH g s v Hs Hrest).
  destruct vals as [|z vals]; [reflexivity|].
  change (last (v :: z :: vals) e) with (last (z :: vals) e).
  rewrite (last_nonempty vals z v e). reflexivity.
Qed.

Lemma group_restart (d : Q) (rest : list Z) (g : list (Z * Z)) (e : Z) :
  (let '(groups, s1, e1) := fold_left (cropper.group_step d) rest (g, -1, e) in
   if negb (s1 =? -1) then groups ++ [(s1, e1)] else groups)
  = g ++ cropper.group_close_values rest d.
Proof.
  unfold cropper.group_close_values.
  destruct rest as [|r rest]; simpl; [rewrite app_nil_r; reflexivity|].
  pose proof (group_fold_prefix d rest g [] r r) as Hp. rewrite app_nil_r in Hp.
  rewrite Hp.
  destruct (fold_left (cropper.group_step d) rest ([], r, r)) as [[g1 s1] e1].
  destruct (negb (s1 =? -1)); [rewrite app_assoc|]; reflexivity.
Qed.

(** X10. [group_close_values] keeps a run of values, each within the
    tolerance of the one before, as the single group (first, last). A value
    farther than the tolerance from the end of the running group closes
    that group and is itself dropped: grouping resumes with the values
    after it. *)
Theorem group_close_values_runs (max_dist_tolerated : Q) (v : Z) (run : list Z) :
  v <> -1 -> within_tolerance max_dist_tolerated v run ->
  cropper.group_close_values (v :: run) max_dist_tolerated = [(v, last run v)] /\
  (forall (x : Z) (rest : list Z),
      ~ (inject_Z (x - last run v) <= max_dist_tolerated)%Q ->
      cropper.group_close_values (v :: run ++ x :: rest) max_dist_tolerated
      = (v, last run v) :: cropper.group_close_values rest max_dist_tolerated).
Proof.
  intros Hv Hrun. apply Z.eqb_neq in Hv as Ev.
  split.
  - unfold cropper.group_close_values. simpl.
    rewrite (group_fold_chain _ _ [] v v Hv Hrun). rewrite Ev. reflexivity.
  - intros x rest Hfar.
    unfold cropper.group_close_values at 1. simpl.
    rewrite fold_left_app.
    rewrite (group_fold_chain _ _ [] v v Hv Hrun). simpl.
    rewrite Ev.
    destruct (Py.Qleb (inject_Z (x - last run v)) max_dist_tolerated) eqn:E;
      [apply Qleb_true in E; contradiction|].
    exact (group_restart max_dist_tolerated rest [(v, last run v)] (-1)).
Qed.

Lemma group_close_values_runs_witness :
  cropper.group_close_values [39; 40; 41; 42] 1 = [(39, 42)] /\
  cropper.group_close_values ([39; 40; 41; 42] ++ 59 :: [60; 61; 62]) 1
  = (39, 42) :: cropper.group_close_values [60; 61; 62] 1.
Proof.
  destruct (group_close_values_runs 1 39 [40; 41; 42]) as [Hrun Hbreak].
  - discriminate.
  - simpl. unfold Qle. simpl. lia.
  - split; [exact Hrun|]. apply (Hbreak 59 [60; 61; 62]).
    simpl. unfold Qle. simpl. lia.
Defined.

(** ** Merging boxes *)

(** Invariant rule for the loop of [merge_boxes]. *)
Lemma merge_loop_invariant (max_dist : Q * Q)
    (P : list cropper.bx -> nat -> Prop) (R : list cropper.bx -> Prop) :
  (forall boxes j, P boxes j -> (List.length boxes <= S j)%nat -> R boxes) ->
  (forall boxes j g1,
      P boxes j -> nth_error boxes j = Some g1 ->
      (forall g2, In g2 (skipn (S j) boxes) ->
                  cropper.box_intersect g1 g2 max_dist = false) ->
      P boxes (S j)) ->
  (forall boxes j g1 g2 others,
      P boxes j -> nth_error boxes j = Some g1 ->
      filter (fun g => cropper.box_intersect g1 g max_dist) (skipn (S j) boxes)
      = g2 :: others ->
      P (firstn j boxes
         ++ filter (fun g => negb (cropper.box_intersect g1 g max_dist)) (skipn (S j) boxes)
         ++ [(cropper.col_min cropper.b0 g1 (g2 :: others),
              cropper.col_max cropper.b1 g1 (g2 :: others),
              cropper.col_min cropper.b2 g1 (g2 :: others),
              cropper.col_max cropper.b3 g1 (g2 :: others))]) 0%nat) ->
  forall (fuel : nat) (boxes : list cropper.bx) (j : nat) (merged : list cropper.bx),
    P boxes j -> cropper.merge_loop fuel max_dist boxes j = Some merged -> R merged.
Proof.
  intros Hexit Hnext Hmerge.
  induction fuel as [|fuel IH]; intros boxes j merged HP E; [discriminate|].
  rewrite merge_loop_step in E. unfold Py.len in E.
  destruct (Z.of_nat j <? Z.of_nat (List.length boxes) - 1) eqn:Ej.
  - apply Z.ltb_lt in Ej.
    destruct (nth_error boxes j) as [g1|] eqn:Eg.
    + cbv zeta in E.
      destruct (filter (fun g2 => cropper.box_intersect g1 g2 max_dist)
                       (skipn (S j) boxes)) as [|g2 others] eqn:Einter.
      * apply (IH boxes (S j) merged); [|exact E].
        apply (Hnext boxes j g1 HP Eg).
        intros g Hg.
        destruct (cropper.box_intersect g1 g max_dist) eqn:Eb; [|reflexivity].
        assert (Hin : In g (filter (fun g2 => cropper.box_intersect g1 g2 max_dist)
                                   (skipn (S j) boxes))).
        { apply filter_In. split; assumption. }
        rewrite Einter in Hin. destruct Hin.
      * exact (IH _ _ _ (Hmerge boxes j g1 g2 others HP Eg Einter) E).
    + apply nth_error_None in Eg. lia.
  - apply Z.ltb_ge in Ej. injection E as <-.
    apply (Hexit boxes j HP). lia.
Qed.

Lemma fold_max_ge (l : list Z) (a : Z) :
  a <= fold_left Z.max l a /\ forall x, In x l -> x <= fold_left Z.max l a.
Proof.
  revert a. induction l as [|y l IH]; intro a; simpl.
  - split; [lia | intros x []].
  - destruct (IH (Z.max a y)) as [Ha Hl]. split; [lia|].
    intros x [<- | Hx]; [lia | apply Hl; exact Hx].
Qed.

Lemma hull_inside (g1 : cropper.bx) (group : list cropper.bx) (b : cropper.bx) :
  b = g1 \/ In b group ->
  inside b (cropper.col_min cropper.b0 g1 group, cropper.col_max cropper.b1 g1 group,
            cropper.col_min cropper.b2 g1 group, cropper.col_max cropper.b3 g1 group).
Proof.
  intro Hb. unfold inside, cropper.col_min, cropper.col_max. simpl.
  destruct (fold_min_le (map cropper.b0 group) (cropper.b0 g1)) as [A1 A2].
  destruct (fold_max_ge (map cropper.b1 group) (cropper.b1 g1)) as [B1 B2].
  destruct (fold_min_le (map cropper.b2 group) (cropper.b2 g1)) as [C1 C2].
  destruct (fold_max_ge (map cropper.b3 group) (cropper.b3 g1)) as [D1 D2].
  destruct Hb as [-> | Hin]; [auto|].
  repeat split;
    [apply A2 | apply B2 | apply C2 | apply D2]; apply in_map; exact Hin.
Qed.

Lemma inside_refl (b : cropper.bx) : inside b b.
Proof. unfold inside. lia. Qed.

Lemma inside_trans (a b c : cropper.bx) : inside a b -> inside b c -> inside a c.
Proof. unfold inside. lia. Qed.

Lemma split_at_nth {A : Type} (l : list A) (j : nat) (x : A) :
  nth_error l j = Some x -> l = firstn j l ++ x :: skipn (S j) l.
Proof.
  revert j. induction l as [|a l IH]; intros [|j] E; simpl in *; try discriminate.
  - injection E as <-. reflexivity.
  - f_equal. apply IH. exact E.
Qed.

Lemma nth_error_later {A : Type} (l : list A) (j k : nat) (x : A) :
  (j < k)%nat -> nth_error l k = Some x -> In x (skipn (S j) l).
Proof.
  revert j k. induction l as [|a l IH]; intros j k Hjk E.
  - destruct k; discriminate.
  - destruct k as [|k]; [lia|]. simpl in E.
    destruct j as [|j]; simpl.
    + eapply nth_error_In. exact E.
    + apply (IH j k); [lia | exact E].
Qed.

(** X11. [merge_boxes] stops at a fixed point: in its result no box
    intersects another one within the tolerance, in either order. The
    result is never longer than the input, and a list that is already
    pairwise apart is returned as it is, so merging twice changes nothing. *)
Theorem merge_boxes_fixed_point (boxes : list cropper.bx) (max_dist : Q * Q) :
  (forall (i k : nat) (gi gk : cropper.bx),
      i <> k ->
      nth_error (cropper.merge_boxes boxes max_dist) i = Some gi ->
      nth_error (cropper.merge_boxes boxes max_dist) k = Some gk ->
      cropper.box_intersect gi gk max_dist = false) /\
  (List.length (cropper.merge_boxes boxes max_dist) <= List.length boxes)%nat /\
  (pairwise_apart max_dist boxes -> cropper.merge_boxes boxes max_dist = boxes) /\
  cropper.merge_boxes (cropper.merge_boxes boxes max_dist) max_dist
  = cropper.merge_boxes boxes max_dist.
Proof.
  pose proof (merge_boxes_terminates boxes max_dist) as Erun.
  assert (Hapart : pairwise_apart max_dist (cropper.merge_boxes boxes max_dist)).
  { refine (merge_loop_invariant max_dist
             (fun bs j => forall i k gi gk,
                  (i < j)%nat -> (i < k)%nat ->
                  nth_error bs i = Some gi -> nth_error bs k = Some gk ->
                  cropper.box_intersect gi gk max_dist = false)
             (pairwise_apart max_dist)
             _ _ _ _ boxes 0%nat _ _ Erun).
    - intros bs j HP Hlen i k gi gk Hik Ei Ek.
      apply (HP i k gi gk); try assumption.
      assert (Hk : (k < List.length bs)%nat) by (apply nth_error_Some; congruence).
      lia.
    - intros bs j g1 HP Eg Hnone i k gi gk Hij Hik Ei Ek.
      destruct (Nat.eq_dec i j) as [-> | Hne].
      + assert (gi = g1) by congruence. subst gi.
        apply Hnone. apply (nth_error_later bs j k); assumption.
      + apply (HP i k gi gk); try assumption. lia.
    - intros bs j g1 g2 others HP Eg Einter i k gi gk Hi. lia.
    - intros i k gi gk Hi. lia. }
  assert (Hfixed : forall bs, pairwise_apart max_dist bs ->
                              cropper.merge_boxes bs max_dist = bs).
  { intros bs Hbs.
    pose proof (merge_boxes_terminates bs max_dist) as Ebs.
    refine (merge_loop_invariant max_dist
             (fun cur j => cur = bs) (fun cur => cur = bs)
             _ _ _ _ bs 0%nat _ eq_refl Ebs).
    - intros cur j -> _. reflexivity.
    - intros cur j g1 -> _ _. reflexivity.
    - intros cur j g1 g2 others -> Eg Einter. exfalso.
      assert (Hin : In g2 (filter (fun g => cropper.box_intersect g1 g max_dist)
                                  (skipn (S j) bs))) by (rewrite Einter; left; reflexivity).
      apply filter_In in Hin as [Hin Hb].
      apply In_nth_error in Hin as [n En].
      rewrite nth_error_skipn in En.
      rewrite (Hbs j (S j + n)%nat g1 g2) in Hb; [discriminate | lia | exact Eg | exact En]. }
  split; [|split; [|split]].
  - intros i k gi gk Hne Ei Ek.
    destruct (Nat.lt_ge_cases i k) as [Hlt | Hge].
    + apply (Hapart i k); assumption.
    + rewrite box_intersect_symmetric. apply (Hapart k i); [lia | assumption | assumption].
  - refine (merge_loop_invariant max_dist
             (fun bs j => (List.length bs <= List.length boxes)%nat)
             (fun bs => (List.length bs <= List.length boxes)%nat)
             _ _ _ _ boxes 0%nat _ (le_n _) Erun).
    + intros bs j HP _. exact HP.
    + intros bs j g1 HP _ _. exact HP.
    + intros bs j g1 g2 others HP Eg Einter.
      pose proof (filter_split_length (fun g => cropper.box_intersect g1 g max_dist)
                                      (skipn (S j) bs)) as Hsplit.
      rewrite Einter, length_skipn in Hsplit.
      rewrite !length_app, length_firstn. cbn [List.length] in *.
      assert (Hj : (j < List.length bs)%nat) by (apply nth_error_Some; congruence).
      lia.
  - apply Hfixed.
  - apply Hfixed. exact Hapart.
Qed.

Lemma merge_boxes_fixed_point_witness :
  cropper.merge_boxes [(3, 5, 0, 0); (20, 21, 0, 0)] (1%Q, 1%Q)
  = [(3, 5, 0, 0); (20, 21, 0, 0)].
Proof.
  apply (proj1 (proj2 (proj2
           (merge_boxes_fixed_point [(3, 5, 0, 0); (20, 21, 0, 0)] (1%Q, 1%Q))))).
  intros i k gi gk Hik Ei Ek.
  destruct i as [|[|i]]; destruct k as [|[|k]]; simpl in Ei, Ek; try lia;
    try discriminate; try (destruct k; discriminate); try (destruct i; discriminate).
  injection Ei as <-. injection Ek as <-. vm_compute. reflexivity.
Defined.

(** X12. [merge_boxes] loses no area: every box of its input lies inside
    some box of its result. *)
Theorem merge_boxes_covers_input (boxes : list cropper.bx) (max_dist : Q * Q)
    (b : cropper.bx) :
  In b boxes ->
  exists c, In c (cropper.merge_boxes boxes max_dist) /\ inside b c.
Proof.
  intro Hb.
  pose proof (merge_boxes_terminates boxes max_dist) as Erun.
  refine (merge_loop_invariant max_dist
           (fun bs j => exists c, In c bs /\ inside b c)
           (fun bs => exists c, In c bs /\ inside b c)
           _ _ _ _ boxes 0%nat _ _ Erun).
  - intros bs j HP _. exact HP.
  - intros bs j g1 HP _ _. exact HP.
  - intros bs j g1 g2 others [c [Hc Hbc]] Eg Einter.
    set (hull := (cropper.col_min cropper.b0 g1 (g2 :: others),
                  cropper.col_max cropper.b1 g1 (g2 :: others),
                  cropper.col_min cropper.b2 g1 (g2 :: others),
                  cropper.col_max cropper.b3 g1 (g2 :: others))).
    rewrite (split_at_nth bs j g1 Eg) in Hc.
    apply in_app_or in Hc as [Hc | [Hc | Hc]].
    + exists c. split; [apply in_or_app; left; exact Hc | exact Hbc].
    + exists hull. split; [apply in_or_app; right; apply in_or_app; right; left; reflexivity|].
      apply (inside_trans b c); [exact Hbc|]. apply hull_inside. left. symmetry. exact Hc.
    + destruct (cropper.box_intersect g1 c max_dist) eqn:Eb.
      * exists hull.
        split; [apply in_or_app; right; apply in_or_app; right; left; reflexivity|].
        apply (inside_trans b c); [exact Hbc|]. apply hull_inside. right.
        rewrite <- Einter. apply filter_In. split; assumption.
      * exists c. split; [|exact Hbc].
        apply in_or_app. right. apply in_or_app. left.
        apply filter_In. split; [exact Hc | rewrite Eb; reflexivity].
  - exists b. split; [exact Hb | apply inside_refl].
Qed.

Lemma merge_boxes_covers_input_witness :
  exists c,
    In c (cropper.merge_boxes
            [(3, 5, 0, 0); (20, 21, 0, 0); (4, 6, 1, 1); (4, 5, 2, 2)] (1%Q, 1%Q))
    /\ inside (4, 6, 1, 1) c.
Proof.
  apply (merge_boxes_covers_input
           [(3, 5, 0, 0); (20, 21, 0, 0); (4, 6, 1, 1); (4, 5, 2, 2)] (1%Q, 1%Q)
           (4, 6, 1, 1)).
  simpl. auto.
Defined.

(** ** Pages too short for the page-number cropper *)

Lemma window_groups_flat `{Libs} (img gray : Image) (bw_bbox : box)
    (window_h threshold : Z) (groups : list cropper.bx) :
  cropper.window_groups img gray bw_bbox window_h threshold = Ok groups ->
  Forall (fun b => cropper.b2 b = cropper.b3 b) groups.
Proof.
  destruct bw_bbox as [[[l t] r] b]. unfold cropper.window_groups. intro E.
  apply bind_ok in E as [part [_ E]]. injection E as <-.
  apply Forall_forall. intros g Hg.
  apply in_flat_map in Hg as [i [_ Hg]].
  apply in_map_iff in Hg as [seg [<- _]]. reflexivity.
Qed.

Lemma page_number_boxes_merged `{Libs} (img : Image) (power : Q)
    (bot_y_pos window_h : Z) (merged : list cropper.bx) :
  cropper.page_number_boxes img power = Ok (Some (bot_y_pos, window_h, merged)) ->
  exists groups,
    Forall (fun b => cropper.b2 b = cropper.b3 b) groups /\
    merged = cropper.merge_boxes groups
               ((inject_Z (width img) * (1 # 100))%Q,
                (inject_Z (height img) * (2 # 1000))%Q).
Proof.
  unfold cropper.page_number_boxes. intro E.
  apply bind_ok in E as [[gray bw] [_ E]].
  destruct (getbbox bw) as [[[[l t] r] b]|] eqn:Eb; [|discriminate].
  destruct (_ <=? 0) in E; [discriminate|].
  apply bind_ok in E as [groups [Eg E]].
  apply window_groups_flat in Eg.
  destruct groups as [|g groups]; [discriminate|].
  injection E as _ _ <-. exists (g :: groups). split; [exact Eg | reflexivity].
Qed.

Lemma fold_min_constant (l : list Z) (a : Z) :
  (forall x, In x l -> x = a) -> fold_left Z.min l a = a.
Proof.
  induction l as [|y l IH]; intro Hall; simpl; [reflexivity|].
  rewrite (Hall y (or_introl eq_refl)), Z.min_id.
  apply IH. intros x Hx. apply Hall. right. exact Hx.
Qed.

Lemma fold_max_constant (l : list Z) (a : Z) :
  (forall x, In x l -> x = a) -> fold_left Z.max l a = a.
Proof.
  induction l as [|y l IH]; intro Hall; simpl; [reflexivity|].
  rewrite (Hall y (or_introl eq_refl)), Z.max_id.
  apply IH. intros x Hx. apply Hall. right. exact Hx.
Qed.

(** With a vertical tolerance below one row, two one-row boxes intersect
    only on the same row. *)
Lemma intersect_same_row (g1 g : cropper.bx) (max_dist : Q * Q) :
  (snd max_dist < 1)%Q ->
  cropper.b2 g1 = cropper.b3 g1 -> cropper.b2 g = cropper.b3 g ->
  cropper.box_intersect g1 g max_dist = true ->
  cropper.b2 g = cropper.b2 g1.
Proof.
  intros Hm F1 F E. unfold cropper.box_intersect in E.
  apply negb_true_iff in E.
  apply orb_false_iff in E as [E D]. apply orb_false_iff in E as [_ C].
  apply Qltb_false in C, D.
  assert (H1 : (inject_Z (cropper.b2 g) < inject_Z (cropper.b3 g1 + 1))%Q).
  { rewrite inject_Z_plus. change (inject_Z 1) with 1%Q. lra. }
  assert (H2 : (inject_Z (cropper.b2 g1) < inject_Z (cropper.b3 g + 1))%Q).
  { rewrite inject_Z_plus. change (inject_Z 1) with 1%Q. lra. }
  rewrite <- Zlt_Qlt in H1, H2. lia.
Qed.

Lemma in_skipn_in {A : Type} (n : nat) (l : list A) (x : A) :
  In x (skipn n l) -> In x l.
Proof.
  intro Hx. rewrite <- (firstn_skipn n l). apply in_or_app. right. exact Hx.
Qed.

Lemma in_firstn_in {A : Type} (n : nat) (l : list A) (x : A) :
  In x (firstn n l) -> In x l.
Proof.
  intro Hx. rewrite <- (firstn_skipn n l). apply in_or_app. left. exact Hx.
Qed.

Lemma merge_boxes_flat (boxes : list cropper.bx) (max_dist : Q * Q) :
  (snd max_dist < 1)%Q ->
  Forall (fun b => cropper.b2 b = cropper.b3 b) boxes ->
  Forall (fun b => cropper.b2 b = cropper.b3 b) (cropper.merge_boxes boxes max_dist).
Proof.
  intros Hm Hflat.
  pose proof (merge_boxes_terminates boxes max_dist) as Erun.
  refine (merge_loop_invariant max_dist
            (fun bs j => Forall (fun b => cropper.b2 b = cropper.b3 b) bs)
            (fun bs => Forall (fun b => cropper.b2 b = cropper.b3 b) bs)
            _ _ _ _ boxes 0%nat _ Hflat Erun).
  - intros bs j HP _. exact HP.
  - intros bs j g1 HP _ _. exact HP.
  - intros bs j g1 g2 others HP Eg Einter.
    rewrite Forall_forall in HP.
    assert (F1 : cropper.b2 g1 = cropper.b3 g1).
    { apply HP. eapply nth_error_In. exact Eg. }
    assert (Hgroup : forall g, In g (g2 :: others) ->
                      cropper.b2 g = cropper.b2 g1 /\ cropper.b3 g = cropper.b2 g1).
    { intros g Hg. rewrite <- Einter in Hg. apply filter_In in Hg as [Hg Eb].
      assert (F : cropper.b2 g = cropper.b3 g).
      { apply HP. apply (in_skipn_in (S j)). exact Hg. }
      pose proof (intersect_same_row g1 g max_dist Hm F1 F Eb). lia. }
    apply Forall_forall. intros c Hc.
    apply in_app_or in Hc as [Hc | Hc].
    + apply HP. apply (in_firstn_in j). exact Hc.
    + apply in_app_or in Hc as [Hc | [<- | []]].
      * apply filter_In in Hc as [Hc _]. apply HP. apply (in_skipn_in (S j)). exact Hc.
      * assert (Emin : cropper.col_min cropper.b2 g1 (g2 :: others) = cropper.b2 g1).
        { unfold cropper.col_min. apply fold_min_constant.
          intros x Hx. apply in_map_iff in Hx as [g [<- Hg]].
          destruct (Hgroup g Hg). lia. }
        assert (Emax : cropper.col_max cropper.b3 g1 (g2 :: others) = cropper.b3 g1).
        { unfold cropper.col_max. apply fold_max_constant.
          intros x Hx. apply in_map_iff in Hx as [g [<- Hg]].
          destruct (Hgroup g Hg). lia. }
        change (cropper.col_min cropper.b2 g1 (g2 :: others)
                = cropper.col_max cropper.b3 g1 (g2 :: others)).
        rewrite Emin, Emax. exact F1.
Qed.

Lemma filter_none {A : Type} (f : A -> bool) (l : list A) :
  (forall x, In x l -> f x = false) -> filter f l = [].
Proof.
  induction l as [|y l IH]; intro Hall; simpl; [reflexivity|].
  rewrite (Hall y (or_introl eq_refl)). apply IH.
  intros x Hx. apply Hall. right. exact Hx.
Qed.

(** X13. On an image less than 500 pixels high [crop_page_number] never
    crops: the vertical merge tolerance is below one row, so the row
    segments of the scan window never join into a box tall enough for the
    minimum footprint, and whenever the call returns it returns the image it
    was given. *)
Theorem short_page_keeps_page_number `{Libs} (img cropped : Image) (power : Q) :
  height img < 500 ->
  cropper.crop_page_number img power = Ok cropped -> cropped = img.
Proof.
  intros Hshort E. unfold cropper.crop_page_number in E.
  destruct (Py.Qleb power 0); [injection E as <-; reflexivity|].
  apply bind_ok in E as [found [Efound E]].
  destruct found as [[[bot_y_pos window_h] merged]|]; [|injection E as <-; reflexivity].
  destruct (page_number_boxes_window _ _ _ _ _ Efound) as [Hwin Hpos].
  rewrite Hwin in Hpos. apply window_positive in Hpos.
  destruct (page_number_boxes_merged _ _ _ _ _ Efound) as [groups [Hflat ->]].
  assert (Hm : (snd ((inject_Z (width img) * (1 # 100))%Q,
                     (inject_Z (height img) * (2 # 1000))%Q) < 1)%Q).
  { simpl. unfold Qlt. simpl. lia. }
  pose proof (merge_boxes_flat groups _ Hm Hflat) as Hmerged.
  unfold cropper.crop_decision in E.
  assert (Hnone : filter (cropper.big_enough (width img) (height img))
                         (cropper.merge_boxes groups
                            ((inject_Z (width img) * (1 # 100))%Q,
                             (inject_Z (height img) * (2 # 1000))%Q)) = []).
  { apply filter_none. intros b Hb.
    rewrite Forall_forall in Hmerged. specialize (Hmerged b Hb).
    unfold cropper.big_enough. apply andb_false_iff. right.
    apply not_true_is_false. intro Hq. apply Qleb_true in Hq.
    rewrite <- Hmerged, Z.sub_diag in Hq.
    assert (Hh : (0 < inject_Z (height img) * (1 # 100))%Q).
    { unfold Qlt. simpl. lia. }
    revert Hq Hh. generalize (inject_Z (height img) * (1 # 100))%Q. intros q Hq Hh.
    unfold Qle, Qlt in *. simpl in *. lia. }
  rewrite Hnone in E. simpl in E. injection E as <-. reflexivity.
Qed.

Lemma short_page_keeps_page_number_witness :
  let img := Reference.page 100 100
               (fun x y => Reference.within 10 10 90 80 x y
                           || Reference.within 49 90 51 96 x y) in
  height img < 500 /\
  cropper.crop_page_number (L := Reference.RefLibs) img 1 = Ok img.
Proof.
  intro img. split; [vm_compute; reflexivity|].
  destruct (cropper.crop_page_number (L := Reference.RefLibs) img 1) as [c|e] eqn:E.
  - rewrite (short_page_keeps_page_number (H := Reference.RefLibs) img c 1
               ltac:(vm_compute; reflexivity) E).
    reflexivity.
  - vm_compute in E. discriminate.
Defined.

(** ** ParallelPipeline: bookkeeping *)

Lemma getitem_in_range {A : Type} (l : list A) (i : Z) :
  0 <= i < Py.len l -> exists a, Py.getitem l i = Ok a.
Proof.
  intro Hi. unfold Py.getitem.
  destruct (i <? 0) eqn:E0; [apply Z.ltb_lt in E0; lia|]. rewrite E0.
  destruct (Py.len l <=? i) eqn:E1; [apply Z.leb_le in E1; lia|]. simpl.
  destruct (nth_error l (Z.to_nat i)) as [a|] eqn:En; [exists a; reflexivity|].
  apply nth_error_None in En. unfold Py.len in Hi. lia.
Qed.

Lemma consumed_no_cancel (completed : list processor.task) (k : nat) :
  consumed (fun _ => false) k completed = completed.
Proof.
  revert k. induction completed as [|t rest IH]; intro k; simpl; [reflexivity|].
  rewrite IH. reflexivity.
Qed.

Lemma consumed_incl (cancelled : nat -> bool) (completed : list processor.task) :
  forall (k : nat) (t : processor.task),
    In t (consumed cancelled k completed) -> In t completed.
Proof.
  induction completed as [|t0 rest IH]; intros k t Ht; simpl in *; [exact Ht|].
  destruct (cancelled k); [destruct Ht|].
  destruct Ht as [Ht | Ht]; [left; exact Ht | right; apply (IH (S k)); exact Ht].
Qed.

Section Bookkeeping.
Context `{L : Libs}.

Lemma collect_outcome (names : list string) (cancelled : nat -> bool)
    (completed : list processor.task) :
  forall (k : nat) (results : processor.dict processor.page_result)
         (stats : processor.ProcessorStats),
    NoDup (processor.keys results ++ map processor.task_index completed) ->
    (forall t, In t completed -> 0 <= processor.task_index t < Py.len names) ->
    processor.collect completed names cancelled k results stats
    = Ok (results ++ successes (consumed cancelled k completed),
          {| processor.total_files := processor.total_files stats;
             processor.processed_files := processor.processed_files stats;
             processor.original_size := processor.original_size stats;
             processor.compressed_size := processor.compressed_size stats;
             processor.errors :=
               processor.errors stats
               ++ failures names (consumed cancelled k completed) |}).
Proof.
  induction completed as [|t rest IH]; intros k results stats Hnd Hidx.
  - simpl. rewrite !app_nil_r. destruct stats; reflexivity.
  - simpl. destruct (cancelled k).
    { simpl. rewrite !app_nil_r. destruct stats; reflexivity. }
    simpl in Hnd.
    destruct (processor.process_single_image t) as [r|e] eqn:Er.
    + destruct (process_single_image_result t r Er) as [Hr _]. rewrite Hr.
      rewrite dict_set_fresh.
      * rewrite IH.
        -- simpl. rewrite Er. simpl. rewrite <- app_assoc. reflexivity.
        -- unfold processor.keys in *. rewrite map_app, <- app_assoc. exact Hnd.
        -- intros t' Ht'. apply Hidx. right. exact Ht'.
      * apply NoDup_remove_2 in Hnd. intro Hin. apply Hnd.
        apply in_or_app. left. exact Hin.
    + destruct (getitem_in_range names (processor.task_index t)
                  (Hidx t (or_introl eq_refl))) as [name En].
      rewrite En. simpl. rewrite IH.
      * simpl. rewrite Er, En. simpl. rewrite <- app_assoc. reflexivity.
      * apply NoDup_remove_1 in Hnd. exact Hnd.
      * intros t' Ht'. apply Hidx. right. exact Ht'.
Qed.

Lemma successes_failures_length (names : list string) (tasks : list processor.task) :
  (forall t, In t tasks -> 0 <= processor.task_index t < Py.len names) ->
  (List.length (successes tasks) + List.length (failures names tasks)
   = List.length tasks)%nat.
Proof.
  induction tasks as [|t rest IH]; intro Hidx; simpl; [reflexivity|].
  rewrite !length_app.
  specialize (IH (fun t' Ht' => Hidx t' (or_intror Ht'))).
  destruct (processor.process_single_image t) as [r|e]; simpl; [lia|].
  destruct (getitem_in_range names (processor.task_index t)
              (Hidx t (or_introl eq_refl))) as [name ->].
  simpl. lia.
Qed.

End Bookkeeping.

(** X14. [_process_images_parallel] accounts for every future it takes
    from [as_completed]. When every task index is a position of
    [file_names] (and the indices are distinct) the call never raises,
    whatever the workers do and whenever [cancel] is called: the futures
    handled before the cancellation is seen end up either in the result
    dictionary, under their index, or as one line of [stats.errors], so the
    two counts add up to the number of futures handled; [total_files] is the
    number of tasks submitted and the other counters are still zero. Without
    cancellation all the futures are handled. *)
Theorem parallel_pipeline_bookkeeping `{Libs}
    (image_data_list completed : list processor.task) (file_names : list string)
    (cancelled : nat -> bool) :
  NoDup (map processor.task_index completed) ->
  (forall t, In t completed -> 0 <= processor.task_index t < Py.len file_names) ->
  exists results stats,
    processor._process_images_parallel image_data_list completed file_names cancelled
    = Ok (results, stats) /\
    results = successes (consumed cancelled 0 completed) /\
    processor.errors stats = failures file_names (consumed cancelled 0 completed) /\
    (List.length results + List.length (processor.errors stats)
     = List.length (consumed cancelled 0 completed))%nat /\
    processor.total_files stats = Py.len image_data_list /\
    processor.processed_files stats = 0 /\
    processor.original_size stats = 0 /\
    processor.compressed_size stats = 0 /\
    ((forall k, cancelled k = false) -> consumed cancelled 0 completed = completed).
Proof.
  intros Hnd Hidx. unfold processor._process_images_parallel.
  rewrite collect_outcome by (simpl; assumption).
  eexists. eexists. split; [reflexivity|]. simpl.
  split; [reflexivity|]. split; [reflexivity|].
  split.
  { apply successes_failures_length. intros t Ht. apply Hidx.
    apply (consumed_incl cancelled completed 0%nat). exact Ht. }
  repeat (split; [reflexivity|]).
  intro Hnever. clear -Hnever. generalize 0%nat.
  induction completed as [|t rest IH]; intro k; simpl; [reflexivity|].
  rewrite Hnever, IH. reflexivity.
Qed.

Lemma parallel_pipeline_bookkeeping_witness :
  let tasks : list processor.task :=
    [ (0, Reference.spread_jpeg, true, 72, "none", 1%Q);
      (1, Reference.garbage, false, 72, "none", 1%Q);
      (2, Reference.spread_png, false, 72, "none", 1%Q) ] in
  let completed : list processor.task :=
    [ (1, Reference.garbage, false, 72, "none", 1%Q);
      (0, Reference.spread_jpeg, true, 72, "none", 1%Q);
      (2, Reference.spread_png, false, 72, "none", 1%Q) ] in
  exists results stats,
    processor._process_images_parallel (L := Reference.RefLibs) tasks completed
      Reference.batch_names (fun k => Nat.eqb k 2)
    = Ok (results, stats) /\
    processor.keys results = [0] /\
    List.length (processor.errors stats) = 1%nat /\
    processor.total_files stats = 3.
Proof.
  intros tasks completed.
  destruct (parallel_pipeline_bookkeeping (H := Reference.RefLibs) tasks completed
              Reference.batch_names (fun k => Nat.eqb k 2))
    as [results [stats [Erun [Hres [Herr [_ [Htotal _]]]]]]].
  - simpl. repeat (constructor; [simpl; intuition discriminate|]). constructor.
  - intros t [<- | [<- | [<- | []]]]; unfold Py.len; simpl; lia.
  - exists results, stats. split; [exact Erun|].
    split; [rewrite Hres; vm_compute; reflexivity|].
    split; [rewrite Herr; vm_compute; reflexivity|].
    exact Htotal.
Defined.

(** ** The statistics of the archive writer *)

Lemma fold_write_page_size (nd : Z) (bufs : list (list byte)) :
  forall (zf : processor.ZipFile) (size page : Z),
    fold_left (processor.write_page nd) bufs (zf, size, page)
    = ({| processor.zf_compression := processor.zf_compression zf;
          processor.zf_entries := processor.zf_entries zf ++ number_pages nd page bufs |},
       size + total_len bufs, page + Py.len bufs).
Proof.
  induction bufs as [|b bufs IH]; intros zf size page; simpl.
  - destruct zf. simpl. rewrite app_nil_r, !Z.add_0_r. reflexivity.
  - rewrite IH. simpl. rewrite <- app_assoc. simpl.
    unfold Py.len. simpl List.length.
    replace (page + 1 + Z.of_nat (List.length bufs))
      with (page + Z.of_nat (S (List.length bufs))) by lia.
    rewrite Z.add_assoc. reflexivity.
Qed.

Lemma total_len_app (a b : list (list byte)) :
  total_len (a ++ b) = total_len a + total_len b.
Proof.
  induction a as [|x a IH]; simpl; [reflexivity|]. rewrite IH. lia.
Qed.

Lemma fold_write_result_stats (results : processor.dict processor.page_result) (nd : Z)
    (ks : list Z) :
  (forall k, In k ks -> In k (processor.keys results)) ->
  forall (zf : processor.ZipFile) (stats : processor.ProcessorStats) (page : Z),
    fold_left (processor.write_result results nd) ks (Ok (zf, stats, page))
    = Ok ({| processor.zf_compression := processor.zf_compression zf;
             processor.zf_entries :=
               processor.zf_entries zf
               ++ number_pages nd page (flat_map (buffers_of results) ks) |},
          {| processor.total_files := processor.total_files stats;
             processor.processed_files := processor.processed_files stats + Py.len ks;
             processor.original_size :=
               processor.original_size stats + originals_of results ks;
             processor.compressed_size :=
               processor.compressed_size stats
               + total_len (flat_map (buffers_of results) ks);
             processor.errors := processor.errors stats |},
          page + Py.len (flat_map (buffers_of results) ks)).
Proof.
  induction ks as [|k ks IH]; intros Hks zf stats page.
  - simpl. destruct zf, stats. simpl. unfold Py.len. simpl.
    rewrite app_nil_r, !Z.add_0_r. reflexivity.
  - destruct (dict_get_key results k (Hks k (or_introl eq_refl))) as [r Er].
    assert (Eo : originals_of results (k :: ks)
                 = let '(_, _, _, o) := r in o + originals_of results ks).
    { unfold originals_of at 1. cbn [fold_right]. rewrite Er. reflexivity. }
    rewrite Eo. clear Eo.
    cbn [fold_left flat_map].
    unfold processor.write_result at 2. cbn [Py.bind].
    unfold buffers_of at 1 3 5. rewrite Er.
    destruct r as [[[idx dbl] bufs] osize]. cbn [processor.result_buffers Py.bind].
    rewrite fold_write_page_size.
    rewrite IH by (intros k' Hk'; apply Hks; right; exact Hk').
    cbn [processor.zf_compression processor.zf_entries processor.total_files
         processor.processed_files processor.original_size processor.compressed_size
         processor.errors].
    rewrite number_pages_app, <- app_assoc, total_len_app.
    unfold Py.len. rewrite length_app. cbn [List.length].
    replace (Z.of_nat (S (List.length ks))) with (1 + Z.of_nat (List.length ks)) by lia.
    rewrite Nat2Z.inj_add, !Z.add_assoc. reflexivity.
Qed.

Lemma originals_of_permutation (results : processor.dict processor.page_result)
    (l1 l2 : list Z) :
  Permutation l1 l2 -> originals_of results l1 = originals_of results l2.
Proof.
  induction 1 as [|k l1 l2 _ IH|a b l|l1 l2 l3 _ IH1 _ IH2]; simpl.
  - reflexivity.
  - rewrite IH. reflexivity.
  - destruct (processor.dict_get results a) as [[[[? ?] ?] oa]|];
      destruct (processor.dict_get results b) as [[[[? ?] ?] ob]|]; lia.
  - congruence.
Qed.

Lemma originals_of_keys (results d : processor.dict processor.page_result) :
  (forall k r, In (k, r) d -> processor.dict_get results k = Ok r) ->
  originals_of results (processor.keys d) = originals d.
Proof.
  induction d as [|[k r] d IH]; intro Hget; simpl; [reflexivity|].
  rewrite (Hget k r (or_introl eq_refl)).
  destruct r as [[[idx dbl] bufs] osize].
  rewrite IH by (intros k' r' Hin; apply Hget; right; exact Hin). reflexivity.
Qed.

(** What [_write_results_to_cbz] returns, in full. *)
Lemma write_results_outcome (results : processor.dict processor.page_result)
    (stats : processor.ProcessorStats) :
  processor._write_results_to_cbz results stats
  = Ok ({| processor.zf_compression := processor.ZIP_STORED;
           processor.zf_entries :=
             number_pages (Z.of_nat (String.length (Py.str (Py.len results * 2)))) 1
               (flat_map (buffers_of results) (processor.sorted (processor.keys results))) |},
        {| processor.total_files := processor.total_files stats;
           processor.processed_files := processor.processed_files stats + Py.len results;
           processor.original_size :=
             processor.original_size stats
             + originals_of results (processor.sorted (processor.keys results));
           processor.compressed_size :=
             processor.compressed_size stats
             + total_len (flat_map (buffers_of results)
                                   (processor.sorted (processor.keys results)));
           processor.errors := processor.errors stats |}).
Proof.
  unfold processor._write_results_to_cbz.
  rewrite fold_write_result_stats
    by (intros k Hk; apply (Permutation_in _ (sorted_perm _) Hk)).
  cbn [Py.bind processor.zf_compression processor.zf_entries app].
  do 4 f_equal. unfold Py.len. f_equal.
  rewrite (Permutation_length (sorted_perm _)).
  unfold processor.keys. apply length_map.
Qed.

(** X15. [_write_results_to_cbz] never raises and leaves statistics that
    agree with the archive it wrote: [processed_files] grows by the number
    of results, [compressed_size] by exactly the number of payload bytes
    stored in the archive, [original_size] by the sum of the original sizes
    of the results; [total_files] and [errors] are not touched. *)
Theorem archive_statistics (results : processor.dict processor.page_result)
    (stats : processor.ProcessorStats) :
  NoDup (processor.keys results) ->
  exists zf stats',
    processor._write_results_to_cbz results stats = Ok (zf, stats') /\
    processor.processed_files stats' = processor.processed_files stats + Py.len results /\
    processor.compressed_size stats'
    = processor.compressed_size stats + total_len (map snd (processor.zf_entries zf)) /\
    processor.original_size stats' = processor.original_size stats + originals results /\
    processor.total_files stats' = processor.total_files stats /\
    processor.errors stats' = processor.errors stats.
Proof.
  intro Hnd. rewrite write_results_outcome.
  eexists. eexists. split; [reflexivity|].
  cbn [processor.zf_compression processor.zf_entries processor.total_files
       processor.processed_files processor.original_size processor.compressed_size
       processor.errors].
  split; [reflexivity|].
  split; [rewrite number_pages_payload; reflexivity|].
  split; [|split; reflexivity].
  f_equal. rewrite (originals_of_permutation _ _ _ (sorted_perm _)).
  apply originals_of_keys. intros k r Hin. apply dict_get_of_in; assumption.
Qed.

Lemma archive_statistics_witness :
  exists zf stats',
    processor._write_results_to_cbz Reference.five_pages processor.ProcessorStats_init
    = Ok (zf, stats') /\
    processor.processed_files stats' = 5 /\
    processor.compressed_size stats' = 5 /\
    processor.original_size stats' = 50.
Proof.
  destruct (archive_statistics Reference.five_pages processor.ProcessorStats_init)
    as [zf [stats' [Ew [Hp [Hc [Ho _]]]]]].
  - simpl. repeat (constructor; [simpl; intuition discriminate|]). constructor.
  - exists zf, stats'. split; [exact Ew|].
    assert (Ezf : map snd (processor.zf_entries zf)
                  = flat_map (buffers_of Reference.five_pages)
                      (processor.sorted (processor.keys Reference.five_pages))).
    { destruct (write_results_entries Reference.five_pages processor.ProcessorStats_init)
        as [zf0 [stats0 [E0 [_ Hentries]]]].
      rewrite Ew in E0. injection E0 as <- _.
      rewrite Hentries. apply number_pages_payload. }
    rewrite Ezf in Hc.
    split; [exact Hp|]. split; [exact Hc | exact Ho].
Defined.

(** ** Reading the page number back off an entry name *)

Lemma digit_value (d : Z) :
  0 <= d < 10 -> Z.of_nat (nat_of_ascii (Py.digit d)) - 48 = d.
Proof.
  intro Hd. unfold Py.digit. rewrite nat_ascii_embedding by lia. lia.
Qed.

Lemma digit_is_digit (d : Z) :
  0 <= d < 10 -> processor.is_digit (Py.digit d) = true.
Proof.
  intro Hd. unfold processor.is_digit, Py.digit.
  rewrite nat_ascii_embedding by lia.
  apply andb_true_iff. split; apply Nat.leb_le; lia.
Qed.

Lemma digits_value (fuel : nat) :
  forall (n : Z) (acc : string),
    0 <= n -> n < 2 ^ Z.of_nat fuel ->
    fold_left (fun a c => a * 10 + (Z.of_nat (nat_of_ascii c) - 48))
              (list_ascii_of_string (Py.digits fuel n acc)) 0
    = fold_left (fun a c => a * 10 + (Z.of_nat (nat_of_ascii c) - 48))
                (list_ascii_of_string acc) n.
Proof.
  induction fuel as [|fuel IH]; intros n acc Hn Hfuel.
  - simpl in *. replace n with 0 by lia. reflexivity.
  - cbn [Py.digits]. destruct (n <? 10) eqn:E.
    + apply Z.ltb_lt in E. cbn [list_ascii_of_string fold_left].
      rewrite Z.mod_small, digit_value by lia. reflexivity.
    + apply Z.ltb_ge in E.
      rewrite IH.
      * cbn [list_ascii_of_string fold_left].
        rewrite digit_value by (apply Z.mod_pos_bound; lia).
        f_equal. pose proof (Z.div_mod n 10). lia.
      * apply Z.div_pos; lia.
      * rewrite Nat2Z.inj_succ, Z.pow_succ_r in Hfuel by lia.
        apply Z.div_lt_upper_bound; lia.
Qed.

Lemma digits_all_digit (fuel : nat) :
  forall (n : Z) (acc : string),
    0 <= n ->
    forallb processor.is_digit (list_ascii_of_string acc) = true ->
    forallb processor.is_digit (list_ascii_of_string (Py.digits fuel n acc)) = true.
Proof.
  induction fuel as [|fuel IH]; intros n acc Hn Hacc; [exact Hacc|].
  cbn [Py.digits].
  assert (Hstep : forallb processor.is_digit
                    (list_ascii_of_string (String (Py.digit (n mod 10)) acc)) = true).
  { cbn [list_ascii_of_string forallb].
    rewrite digit_is_digit by (apply Z.mod_pos_bound; lia). exact Hacc. }
  destruct (n <? 10); [exact Hstep|].
  apply IH; [apply Z.div_pos; lia | exact Hstep].
Qed.

(** [int(str(n)) == n] *)
Lemma str_value (n : Z) : 0 <= n -> processor.int_of_digits (Py.str n) = n.
Proof.
  intro Hn. unfold processor.int_of_digits, Py.str.
  destruct (n <? 0) eqn:E; [apply Z.ltb_lt in E; lia|].
  rewrite digits_value; [reflexivity | exact Hn | apply str_fuel_enough; exact Hn].
Qed.

Lemma str_all_digit (n : Z) :
  0 <= n -> forallb processor.is_digit (list_ascii_of_string (Py.str n)) = true.
Proof.
  intro Hn. unfold Py.str.
  destruct (n <? 0) eqn:E; [apply Z.ltb_lt in E; lia|].
  apply digits_all_digit; [exact Hn | reflexivity].
Qed.

Lemma zeros_value (k : nat) (s : string) :
  processor.int_of_digits (Py.zeros k ++ s) = processor.int_of_digits s.
Proof.
  unfold processor.int_of_digits.
  induction k as [|k IH]; [reflexivity|]. simpl. exact IH.
Qed.

Lemma zeros_all_digit (k : nat) (s : string) :
  forallb processor.is_digit (list_ascii_of_string s) = true ->
  forallb processor.is_digit (list_ascii_of_string (Py.zeros k ++ s)) = true.
Proof.
  intro Hs. induction k as [|k IH]; [exact Hs|]. simpl. exact IH.
Qed.

Lemma format_0d_value (n width : Z) :
  0 <= n -> processor.int_of_digits (Py.format_0d n width) = n.
Proof.
  intro Hn. unfold Py.format_0d.
  destruct (n <? 0) eqn:E; [apply Z.ltb_lt in E; lia|].
  rewrite zeros_value. apply str_value. exact Hn.
Qed.

Lemma format_0d_all_digit (n width : Z) :
  0 <= n ->
  forallb processor.is_digit (list_ascii_of_string (Py.format_0d n width)) = true.
Proof.
  intro Hn. unfold Py.format_0d.
  destruct (n <? 0) eqn:E; [apply Z.ltb_lt in E; lia|].
  apply zeros_all_digit. apply str_all_digit. exact Hn.
Qed.

Lemma substring_prefix (s t : string) :
  substring 0 (String.length s) (s ++ t) = s.
Proof.
  induction s as [|c s IH]; simpl.
  - destruct t; reflexivity.
  - rewrite IH. reflexivity.
Qed.

Lemma substring_suffix (s t : string) :
  substring (String.length s) (String.length t) (s ++ t) = t.
Proof.
  induction s as [|c s IH]; simpl; [|exact IH].
  clear. induction t as [|c t IH]; simpl; [reflexivity | rewrite IH; reflexivity].
Qed.

Lemma drop_last_app (s t : string) :
  processor.drop_last (String.length t) (s ++ t) = s.
Proof.
  unfold processor.drop_last. rewrite string_length_app.
  replace (String.length s + String.length t - String.length t)%nat
    with (String.length s) by lia.
  apply substring_prefix.
Qed.

Lemma number_pages_entry (nd : Z) (bufs : list (list byte)) (page : Z) (i : nat)
    (name : string) (data : list byte) :
  nth_error (number_pages nd page bufs) i = Some (name, data) ->
  name = (Py.format_0d (page + Z.of_nat i) nd ++ ".jpg")%string /\
  (i < List.length bufs)%nat.
Proof.
  intro Hi.
  assert (Hlt : (i < List.length bufs)%nat).
  { rewrite <- (number_pages_length nd page). apply nth_error_Some.
    rewrite Hi. discriminate. }
  destruct (nth_error bufs i) as [b|] eqn:Eb;
    [|apply nth_error_None in Eb; lia].
  rewrite (number_pages_nth nd bufs page i b Eb) in Hi.
  injection Hi as <- _. split; [reflexivity | exact Hlt].
Qed.

(** X16. The entry names of the archive are pairwise distinct, so no page
    overwrites or shadows another; the page number can be read back off a
    name: dropping the four characters of [.jpg] and reading the rest as a
    decimal number gives the position of the entry, counted from 1. This
    holds for any result dictionary, also when a result carries more
    buffers than the name field was sized for. *)
Theorem entry_names_distinct (results : processor.dict processor.page_result)
    (stats : processor.ProcessorStats) :
  exists zf stats',
    processor._write_results_to_cbz results stats = Ok (zf, stats') /\
    NoDup (map fst (processor.zf_entries zf)) /\
    forall (i : nat) (name : string) (data : list byte),
      nth_error (processor.zf_entries zf) i = Some (name, data) ->
      processor.int_of_digits (processor.drop_last 4 name) = Z.of_nat i + 1.
Proof.
  destruct (write_results_entries results stats) as [zf [stats' [E [_ Hentries]]]].
  exists zf, stats'. split; [exact E|].
  assert (Hparse : forall i name data,
             nth_error (processor.zf_entries zf) i = Some (name, data) ->
             processor.int_of_digits (processor.drop_last 4 name) = Z.of_nat i + 1).
  { intros i name data Hi. rewrite Hentries in Hi.
    apply number_pages_entry in Hi as [-> _].
    rewrite (drop_last_app _ ".jpg"), format_0d_value by lia. lia. }
  split; [|exact Hparse].
  apply NoDup_nth_error. intros i j Hi Hij.
  rewrite length_map in Hi. rewrite !nth_error_map in Hij.
  destruct (nth_error (processor.zf_entries zf) i) as [[ni di]|] eqn:Ei;
    [|apply nth_error_None in Ei; lia].
  destruct (nth_error (processor.zf_entries zf) j) as [[nj dj]|] eqn:Ej;
    [|discriminate].
  injection Hij as Hn. subst nj.
  pose proof (Hparse i ni di Ei) as Pi. pose proof (Hparse j ni dj Ej) as Pj. lia.
Qed.

Lemma entry_names_distinct_witness :
  exists zf stats',
    processor._write_results_to_cbz Reference.five_pages processor.ProcessorStats_init
    = Ok (zf, stats') /\
    NoDup (map fst (processor.zf_entries zf)) /\
    nth_error (processor.zf_entries zf) 4 = Some ("05.jpg", [Reference.byte_of_Z 4]) /\
    processor.int_of_digits (processor.drop_last 4 "05.jpg") = 5.
Proof.
  destruct (entry_names_distinct Reference.five_pages processor.ProcessorStats_init)
    as [zf [stats' [E [Hnd Hparse]]]].
  exists zf, stats'. split; [exact E|]. split; [exact Hnd|].
  assert (H4 : nth_error (processor.zf_entries zf) 4
               = Some ("05.jpg", [Reference.byte_of_Z 4])).
  { vm_compute in E. injection E as <- _. reflexivity. }
  split; [exact H4|].
  exact (Hparse 4%nat "05.jpg" [Reference.byte_of_Z 4] H4).
Defined.

(** ** Entry names in byte order *)

Lemma fold_digits_shift (l : list ascii) :
  forall a : Z,
    fold_left (fun a c => a * 10 + (Z.of_nat (nat_of_ascii c) - 48)) l a
    = a * 10 ^ Z.of_nat (List.length l)
      + fold_left (fun a c => a * 10 + (Z.of_nat (nat_of_ascii c) - 48)) l 0.
Proof.
  induction l as [|c l IH]; intro a.
  - simpl. lia.
  - cbn [fold_left List.length]. rewrite IH, (IH (0 * 10 + _)).
    rewrite Nat2Z.inj_succ, Z.pow_succ_r by lia. ring.
Qed.

Lemma fold_digits_bound (l : list ascii) :
  forallb processor.is_digit l = true ->
  0 <= fold_left (fun a c => a * 10 + (Z.of_nat (nat_of_ascii c) - 48)) l 0
    < 10 ^ Z.of_nat (List.length l).
Proof.
  induction l as [|c l IH]; intro Hl.
  - simpl. lia.
  - cbn [forallb] in Hl. apply andb_true_iff in Hl as [Hc Hl].
    specialize (IH Hl).
    unfold processor.is_digit in Hc. apply andb_true_iff in Hc as [H0 H9].
    apply Nat.leb_le in H0, H9.
    cbn [fold_left List.length]. rewrite fold_digits_shift.
    rewrite Nat2Z.inj_succ, Z.pow_succ_r by lia. nia.
Qed.

(** Digit strings of one length compare as the numbers they spell. *)
Lemma compare_digit_strings (a : string) :
  forall (b t t' : string),
    String.length a = String.length b ->
    forallb processor.is_digit (list_ascii_of_string a) = true ->
    forallb processor.is_digit (list_ascii_of_string b) = true ->
    processor.int_of_digits a < processor.int_of_digits b ->
    String.compare (a ++ t) (b ++ t') = Lt.
Proof.
  unfold processor.int_of_digits.
  induction a as [|c1 a IH]; intros b t t' Hlen Ha Hb Hlt.
  - destruct b; [simpl in Hlt; lia | discriminate].
  - destruct b as [|c2 b]; [discriminate|].
    simpl in Hlen. injection Hlen as Hlen.
    cbn [list_ascii_of_string forallb] in Ha, Hb.
    apply andb_true_iff in Ha as [Hc1 Ha]. apply andb_true_iff in Hb as [Hc2 Hb].
    cbn [list_ascii_of_string fold_left] in Hlt.
    rewrite fold_digits_shift, (fold_digits_shift _ (0 * 10 + _)) in Hlt.
    pose proof (fold_digits_bound _ Ha) as Ba. pose proof (fold_digits_bound _ Hb) as Bb.
    assert (Hl : List.length (list_ascii_of_string a)
                 = List.length (list_ascii_of_string b)).
    { clear -Hlen. revert b Hlen. induction a as [|x a IH]; intros [|y b] Hlen;
        simpl in *; try discriminate; [reflexivity|].
      f_equal. apply IH. lia. }
    rewrite Hl in *.
    set (P := 10 ^ Z.of_nat (List.length (list_ascii_of_string b))) in *.
    set (x := fold_left _ (list_ascii_of_string a) 0) in *.
    set (y := fold_left _ (list_ascii_of_string b) 0) in *.
    unfold nat_of_ascii in Hlt.
    cbn [append String.compare]. unfold Ascii.compare.
    destruct (N.compare (N_of_ascii c1) (N_of_ascii c2)) eqn:Ec.
    + apply N.compare_eq in Ec. rewrite Ec in Hlt.
      apply IH; [exact Hlen | exact Ha | exact Hb |].
      fold x y. lia.
    + reflexivity.
    + exfalso. apply N.compare_gt_iff in Ec.
      assert (Hv : Z.of_nat (N.to_nat (N_of_ascii c2)) + 1
                   <= Z.of_nat (N.to_nat (N_of_ascii c1))) by lia.
      clearbody P x y. nia.
Qed.

Lemma sorted_by_positions {A : Type} (R : A -> A -> Prop) (l : list A) :
  (forall (i j : nat) (a b : A),
      (i < j)%nat -> nth_error l i = Some a -> nth_error l j = Some b -> R a b) ->
  StronglySorted R l.
Proof.
  induction l as [|x l IH]; intro Hpos; constructor.
  - apply IH. intros i j a b Hij Hi Hj. apply (Hpos (S i) (S j)); [lia | exact Hi | exact Hj].
  - apply Forall_forall. intros y Hy.
    apply In_nth_error in Hy as [j Hj].
    apply (Hpos 0%nat (S j)); [lia | reflexivity | exact Hj].
Qed.

(** X17. When every result carries at most two buffers (what
    [process_single_image] returns), the entry names are strictly ascending
    in the order of their characters: every page number fills the zero-padded
    field exactly, so a reader that lists the archive by name shows the pages
    in the order they were written. *)
Theorem entry_names_ascending
    (results : processor.dict processor.page_result) (stats : processor.ProcessorStats) :
  (forall k r, In (k, r) results ->
               (List.length (processor.result_buffers r) <= 2)%nat) ->
  exists zf stats',
    processor._write_results_to_cbz results stats = Ok (zf, stats') /\
    StronglySorted (fun a b => String.ltb a b = true)
                   (map fst (processor.zf_entries zf)).
Proof.
  intro Hbound.
  destruct (write_results_entries results stats) as [zf [stats' [E [_ Hentries]]]].
  exists zf, stats'. split; [exact E|].
  set (nd := Z.of_nat (String.length (Py.str (Py.len results * 2)))) in *.
  set (pages := flat_map (buffers_of results)
                         (processor.sorted (processor.keys results))) in *.
  assert (Hpages : Py.len pages <= Py.len results * 2).
  { unfold Py.len, pages.
    pose proof (flat_map_length_bound (buffers_of results)
                  (processor.sorted (processor.keys results)) 2
                  (fun k _ => buffers_of_bound results k Hbound)) as Hlen.
    rewrite (Permutation_length (sorted_perm _)) in Hlen.
    unfold processor.keys in *. rewrite length_map in Hlen. lia. }
  assert (Hname : forall i name,
             nth_error (map fst (processor.zf_entries zf)) i = Some name ->
             name = (Py.format_0d (Z.of_nat i + 1) nd ++ ".jpg")%string /\
             Z.of_nat (String.length (Py.format_0d (Z.of_nat i + 1) nd)) = nd).
  { intros i name Hi. rewrite nth_error_map, Hentries in Hi.
    destruct (nth_error (number_pages nd 1 pages) i) as [[n d]|] eqn:Ei; [|discriminate].
    injection Hi as ->.
    apply number_pages_entry in Ei as [-> Hlt].
    replace (1 + Z.of_nat i) with (Z.of_nat i + 1) by lia.
    split; [reflexivity|].
    apply format_0d_exact; [lia|].
    unfold nd. apply inj_le. apply str_length_monotone.
    unfold Py.len in *. lia. }
  apply sorted_by_positions. intros i j a b Hij Hi Hj.
  destruct (Hname i a Hi) as [-> Li]. destruct (Hname j b Hj) as [-> Lj].
  unfold String.ltb.
  rewrite compare_digit_strings; [reflexivity | lia | | |].
  - apply format_0d_all_digit. lia.
  - apply format_0d_all_digit. lia.
  - rewrite !format_0d_value by lia. lia.
Qed.

Lemma entry_names_ascending_witness :
  exists zf stats',
    processor._write_results_to_cbz Reference.five_pages processor.ProcessorStats_init
    = Ok (zf, stats') /\
    StronglySorted (fun a b => String.ltb a b = true)
                   (map fst (processor.zf_entries zf)).
Proof.
  apply (entry_names_ascending Reference.five_pages processor.ProcessorStats_init).
  intros k r Hin. simpl in Hin.
  repeat (destruct Hin as [Hin | Hin]; [injection Hin as <- <-; simpl; lia|]).
  destruct Hin.
Defined.

(** ** Natural sort keys *)

Lemma string_app_assoc (a b c : string) : ((a ++ b) ++ c = a ++ (b ++ c))%string.
Proof.
  induction a as [|x a IH]; simpl; [reflexivity | rewrite IH; reflexivity].
Qed.

Lemma string_app_nil_r (a : string) : (a ++ "")%string = a.
Proof.
  induction a as [|x a IH]; simpl; [reflexivity | rewrite IH; reflexivity].
Qed.

Lemma list_ascii_app (a b : string) :
  list_ascii_of_string (a ++ b) = list_ascii_of_string a ++ list_ascii_of_string b.
Proof.
  induction a as [|x a IH]; simpl; [reflexivity | rewrite IH; reflexivity].
Qed.

Lemma isdigit_all (s : string) :
  processor.isdigit s = true <->
  s <> EmptyString /\ forallb processor.is_digit (list_ascii_of_string s) = true.
Proof.
  destruct s as [|c s]; simpl.
  - split; [discriminate | intros [Hne _]; contradiction].
  - split; [intro Hd; split; [discriminate | exact Hd] | intros [_ Hd]; exact Hd].
Qed.

Lemma isdigit_snoc (piece : string) (c : ascii) :
  processor.is_digit c = true ->
  (piece = EmptyString \/ processor.isdigit piece = true) ->
  processor.isdigit (piece ++ String c EmptyString) = true.
Proof.
  intros Hc Hp. apply isdigit_all. split.
  - destruct piece; discriminate.
  - rewrite list_ascii_app, forallb_app. simpl. rewrite Hc.
    destruct Hp as [-> | Hp]; [reflexivity|].
    apply isdigit_all in Hp as [_ ->]. reflexivity.
Qed.

Lemma isdigit_snoc_other (piece : string) (c : ascii) :
  processor.is_digit c = false ->
  processor.isdigit (piece ++ String c EmptyString) = false.
Proof.
  intro Hc. apply not_true_is_false. intro Hd.
  apply isdigit_all in Hd as [_ Hd].
  rewrite list_ascii_app, forallb_app in Hd. simpl in Hd. rewrite Hc in Hd.
  rewrite andb_false_r in Hd. discriminate.
Qed.

Lemma isdigit_no_digit (p : string) : no_digit p = true -> processor.isdigit p = false.
Proof.
  destruct p as [|c p]; [reflexivity|]. unfold no_digit. simpl. intro Hp.
  apply andb_true_iff in Hp as [Hc _]. apply negb_true_iff in Hc. rewrite Hc. reflexivity.
Qed.

(** The pieces of [re.split] alternate between text and digit runs. *)
Lemma re_split_alternates (s : string) :
  forall (piece : string) (in_digits : bool),
    processor.isdigit piece = in_digits ->
    alternates in_digits
      (map (fun c => if processor.isdigit c
                     then processor.KInt (processor.int_of_digits c)
                     else processor.KStr (processor.lower c))
           (processor.re_split s piece in_digits)) = true.
Proof.
  induction s as [|c s IH]; intros piece in_digits Hp.
  - destruct in_digits; simpl; rewrite Hp; reflexivity.
  - cbn [processor.re_split].
    destruct (processor.is_digit c) eqn:Ec; destruct in_digits.
    + apply IH. apply isdigit_snoc; [exact Ec | right; exact Hp].
    + cbn [map]. rewrite Hp. cbn [alternates negb andb].
      apply IH. simpl. rewrite Ec. reflexivity.
    + cbn [map]. rewrite Hp. cbn [alternates negb andb].
      apply IH. simpl. rewrite Ec. reflexivity.
    + apply IH. apply isdigit_snoc_other. exact Ec.
Qed.

Lemma natural_sort_key_alternates (s : string) :
  alternates false (processor.natural_sort_key s) = true.
Proof.
  unfold processor.natural_sort_key, processor.re_split_digits.
  apply re_split_alternates. reflexivity.
Qed.

Lemma ltb_antisym (x y : string) :
  String.eqb x y = false ->
  String.ltb y x = negb (String.ltb x y).
Proof.
  intro Hne. unfold String.ltb. rewrite (String.compare_antisym y x).
  destruct (String.compare x y) eqn:Ec; simpl; try reflexivity.
  apply String.compare_eq_iff in Ec. subst. rewrite String.eqb_refl in Hne. discriminate.
Qed.

Lemma key_lt_total (a : list processor.key_part) :
  forall (b : list processor.key_part) (w : bool),
    alternates w a = true -> alternates w b = true ->
    (processor.key_lt a b = Some true /\ processor.key_lt b a = Some false) \/
    (processor.key_lt a b = Some false /\ processor.key_lt b a = Some true) \/
    (a = b /\ processor.key_lt a b = Some false).
Proof.
  induction a as [|x a IH]; intros b w Ha Hb.
  - destruct b as [|y b]; [right; right; split; reflexivity|].
    simpl in Ha. subst w. destruct y; simpl in Hb; [|discriminate].
    left. split; reflexivity.
  - destruct b as [|y b].
    { simpl in Hb. subst w. destruct x; simpl in Ha; [|discriminate].
      right. left. split; reflexivity. }
    destruct x as [n|s]; destruct y as [m|t]; simpl in Ha, Hb;
      destruct w; simpl in Ha, Hb; try discriminate.
    + cbn [processor.key_lt]. rewrite (Z.eqb_sym m n).
      destruct (n =? m) eqn:E.
      * apply Z.eqb_eq in E. subst m.
        destruct (IH b false Ha Hb) as [Hlt | [Hgt | [-> Heq]]];
          [left; exact Hlt | right; left; exact Hgt |].
        right. right. split; [reflexivity | exact Heq].
      * apply Z.eqb_neq in E. destruct (n <? m) eqn:Elt.
        -- left. split; [reflexivity|]. f_equal. apply Z.ltb_ge.
           apply Z.ltb_lt in Elt. lia.
        -- right. left. split; [reflexivity|]. f_equal. apply Z.ltb_lt.
           apply Z.ltb_ge in Elt. lia.
    + cbn [processor.key_lt]. rewrite (String.eqb_sym t s).
      destruct (String.eqb s t) eqn:E.
      * apply String.eqb_eq in E. subst t.
        destruct (IH b true Ha Hb) as [Hlt | [Hgt | [-> Heq]]];
          [left; exact Hlt | right; left; exact Hgt |].
        right. right. split; [reflexivity | exact Heq].
      * rewrite (ltb_antisym s t E).
        destruct (String.ltb s t); [left | right; left]; split; reflexivity.
Qed.

(** X18. Sorting by [natural_sort_key] is well defined on plain (7-bit
    ASCII) file names: a key is a str, then an int, then a str, and so on,
    so comparing two keys never meets an int against a str (no
    [TypeError]), and of two names exactly one comes first unless their
    keys are equal. *)
Theorem natural_sort_key_comparable (a b : string) :
  plain_name a = true -> plain_name b = true ->
  alternates false (processor.natural_sort_key a) = true /\
  ((processor.key_lt (processor.natural_sort_key a) (processor.natural_sort_key b)
    = Some true /\
    processor.key_lt (processor.natural_sort_key b) (processor.natural_sort_key a)
    = Some false) \/
   (processor.key_lt (processor.natural_sort_key a) (processor.natural_sort_key b)
    = Some false /\
    processor.key_lt (processor.natural_sort_key b) (processor.natural_sort_key a)
    = Some true) \/
   (processor.natural_sort_key a = processor.natural_sort_key b /\
    processor.key_lt (processor.natural_sort_key a) (processor.natural_sort_key b)
    = Some false)).
Proof.
  intros _ _. split; [apply natural_sort_key_alternates|].
  apply (key_lt_total _ _ false); apply natural_sort_key_alternates.
Qed.

Lemma natural_sort_key_comparable_witness :
  processor.key_lt (processor.natural_sort_key "10.jpg")
                   (processor.natural_sort_key "cover.jpg") <> None.
Proof.
  destruct (natural_sort_key_comparable "10.jpg" "cover.jpg" eq_refl eq_refl)
    as [_ [[E _] | [[E _] | [_ E]]]]; rewrite E; discriminate.
Defined.

(** *** Digit runs compare by value *)

Lemma re_split_text (p : string) :
  no_digit p = true ->
  forall (s piece : string),
    processor.re_split (p ++ s) piece false = processor.re_split s (piece ++ p) false.
Proof.
  unfold no_digit. induction p as [|c p IH]; intros Hp s piece.
  - simpl. rewrite string_app_nil_r. reflexivity.
  - simpl in Hp. apply andb_true_iff in Hp as [Hc Hp]. apply negb_true_iff in Hc.
    cbn [append processor.re_split]. rewrite Hc.
    rewrite (IH Hp), string_app_assoc. reflexivity.
Qed.

Lemma re_split_run (d : string) :
  forallb processor.is_digit (list_ascii_of_string d) = true ->
  forall (s piece : string),
    processor.re_split (d ++ s) piece true = processor.re_split s (piece ++ d) true.
Proof.
  induction d as [|c d IH]; intros Hd s piece.
  - simpl. rewrite string_app_nil_r. reflexivity.
  - simpl in Hd. apply andb_true_iff in Hd as [Hc Hd].
    cbn [append processor.re_split]. rewrite Hc.
    rewrite (IH Hd), string_app_assoc. reflexivity.
Qed.

Lemma re_split_after_run (q piece : string) :
  not_digit_first q = true ->
  processor.re_split q piece true = piece :: processor.re_split_digits q.
Proof.
  unfold processor.re_split_digits. destruct q as [|c q]; intro Hq; [reflexivity|].
  simpl in Hq. apply negb_true_iff in Hq.
  cbn [processor.re_split]. rewrite Hq. reflexivity.
Qed.

(** The key of a name that starts with text, a digit run, and something
    that is no digit. *)
Lemma natural_sort_key_run (p d q : string) :
  no_digit p = true -> processor.isdigit d = true -> not_digit_first q = true ->
  processor.natural_sort_key (p ++ d ++ q)
  = processor.KStr (processor.lower p)
    :: processor.KInt (processor.int_of_digits d)
    :: processor.natural_sort_key q.
Proof.
  intros Hp Hd Hq. unfold processor.natural_sort_key.
  assert (Esplit : processor.re_split_digits (p ++ d ++ q)
                   = p :: d :: processor.re_split_digits q).
  { unfold processor.re_split_digits at 1.
    rewrite (re_split_text p Hp). simpl (EmptyString ++ p)%string.
    apply isdigit_all in Hd as [Hne Hall].
    destruct d as [|c d]; [contradiction|].
    pose proof Hall as Hall'. simpl in Hall'.
    apply andb_true_iff in Hall' as [Hc Hrest].
    cbn [append processor.re_split]. rewrite Hc.
    rewrite (re_split_run d Hrest). simpl (String c EmptyString ++ d)%string.
    rewrite (re_split_after_run q _ Hq). reflexivity. }
  rewrite Esplit. cbn [map].
  rewrite (isdigit_no_digit p Hp), Hd. reflexivity.
Qed.

(** X19. Natural order: when two plain names start with the same text up
    to letter case, followed by a digit run, the runs are compared as
    numbers, whatever their lengths and leading zeros; only when the numbers
    are equal does the rest of the names decide. So [page2.jpg] sorts before
    [Page10.jpg]. *)
Theorem natural_sort_numeric (p1 p2 d1 d2 q1 q2 : string) :
  plain_name (p1 ++ d1 ++ q1) = true -> plain_name (p2 ++ d2 ++ q2) = true ->
  no_digit p1 = true -> no_digit p2 = true ->
  processor.isdigit d1 = true -> processor.isdigit d2 = true ->
  not_digit_first q1 = true -> not_digit_first q2 = true ->
  processor.lower p1 = processor.lower p2 ->
  processor.key_lt (processor.natural_sort_key (p1 ++ d1 ++ q1))
                   (processor.natural_sort_key (p2 ++ d2 ++ q2))
  = if processor.int_of_digits d1 =? processor.int_of_digits d2
    then processor.key_lt (processor.natural_sort_key q1) (processor.natural_sort_key q2)
    else Some (processor.int_of_digits d1 <? processor.int_of_digits d2).
Proof.
  intros _ _ Hp1 Hp2 Hd1 Hd2 Hq1 Hq2 Hlow.
  rewrite (natural_sort_key_run p1 d1 q1 Hp1 Hd1 Hq1).
  rewrite (natural_sort_key_run p2 d2 q2 Hp2 Hd2 Hq2).
  cbn [processor.key_lt]. rewrite Hlow, String.eqb_refl. reflexivity.
Qed.

Lemma natural_sort_numeric_witness :
  processor.key_lt (processor.natural_sort_key "page2.jpg")
                   (processor.natural_sort_key "Page10.jpg") = Some true /\
  String.ltb "page2.jpg" "page10.jpg" = false.
Proof.
  split; [|reflexivity].
  exact (natural_sort_numeric "page" "Page" "2" "10" ".jpg" ".jpg"
           eq_refl eq_refl eq_refl eq_refl eq_refl eq_refl eq_refl eq_refl eq_refl).
Defined.

(** *** Letter case *)

Lemma is_digit_lower_char (c : ascii) :
  processor.is_digit (processor.lower_char c) = processor.is_digit c.
Proof. destruct c as [[] [] [] [] [] [] [] []]; reflexivity. Qed.

Lemma lower_char_idempotent (c : ascii) :
  processor.lower_char (processor.lower_char c) = processor.lower_char c.
Proof. destruct c as [[] [] [] [] [] [] [] []]; reflexivity. Qed.

Lemma lower_char_digit (c : ascii) :
  processor.is_digit c = true -> processor.lower_char c = c.
Proof. destruct c as [[] [] [] [] [] [] [] []]; intro Hc; try reflexivity; discriminate. Qed.

Lemma lower_app (a b : string) :
  processor.lower (a ++ b) = (processor.lower a ++ processor.lower b)%string.
Proof.
  induction a as [|c a IH]; simpl; [reflexivity | rewrite IH; reflexivity].
Qed.

Lemma lower_idempotent (s : string) :
  processor.lower (processor.lower s) = processor.lower s.
Proof.
  induction s as [|c s IH]; simpl; [reflexivity|].
  rewrite lower_char_idempotent, IH. reflexivity.
Qed.

Lemma lower_digits (s : string) :
  forallb processor.is_digit (list_ascii_of_string s) = true -> processor.lower s = s.
Proof.
  induction s as [|c s IH]; simpl; intro Hs; [reflexivity|].
  apply andb_true_iff in Hs as [Hc Hs].
  rewrite (lower_char_digit c Hc), (IH Hs). reflexivity.
Qed.

Lemma isdigit_lower (s : string) :
  processor.isdigit (processor.lower s) = processor.isdigit s.
Proof.
  destruct s as [|c s]; [reflexivity|]. simpl. rewrite is_digit_lower_char. f_equal.
  induction s as [|x s IH]; simpl; [reflexivity|].
  rewrite is_digit_lower_char, IH. reflexivity.
Qed.

Lemma re_split_lower (s : string) :
  forall (piece : string) (in_digits : bool),
    processor.re_split (processor.lower s) (processor.lower piece) in_digits
    = map processor.lower (processor.re_split s piece in_digits).
Proof.
  induction s as [|c s IH]; intros piece in_digits.
  - destruct in_digits; reflexivity.
  - cbn [processor.lower processor.re_split]. rewrite is_digit_lower_char.
    destruct (processor.is_digit c); destruct in_digits; cbn [map].
    + rewrite <- IH, lower_app. reflexivity.
    + rewrite <- IH. reflexivity.
    + rewrite <- IH. reflexivity.
    + rewrite <- IH, lower_app. reflexivity.
Qed.

Lemma natural_sort_key_lower (s : string) :
  processor.natural_sort_key (processor.lower s) = processor.natural_sort_key s.
Proof.
  unfold processor.natural_sort_key, processor.re_split_digits.
  change EmptyString with (processor.lower EmptyString) at 1.
  rewrite re_split_lower, map_map. apply map_ext. intro c.
  rewrite isdigit_lower, lower_idempotent.
  destruct (processor.isdigit c) eqn:Ec; [|reflexivity].
  apply isdigit_all in Ec as [_ Ec]. rewrite (lower_digits c Ec). reflexivity.
Qed.

Lemma key_lt_irreflexive (k : list processor.key_part) :
  processor.key_lt k k = Some false.
Proof.
  induction k as [|[n|s] k IH]; simpl; [reflexivity| |].
  - rewrite Z.eqb_refl. exact IH.
  - rewrite String.eqb_refl. exact IH.
Qed.

(** X20. Letter case plays no part in the order: two plain names that
    differ only in the case of their letters get the same key, so neither
    sorts before the other and the stable sort leaves them in the order in
    which they were listed. *)
Theorem natural_sort_ignores_case (a b : string) :
  plain_name a = true -> plain_name b = true ->
  processor.lower a = processor.lower b ->
  processor.natural_sort_key a = processor.natural_sort_key b /\
  processor.key_lt (processor.natural_sort_key a) (processor.natural_sort_key b)
  = Some false /\
  processor.key_lt (processor.natural_sort_key b) (processor.natural_sort_key a)
  = Some false.
Proof.
  intros _ _ Hlow.
  assert (E : processor.natural_sort_key a = processor.natural_sort_key b).
  { rewrite <- (natural_sort_key_lower a), <- (natural_sort_key_lower b), Hlow.
    reflexivity. }
  rewrite E. repeat split; apply key_lt_irreflexive.
Qed.

Lemma natural_sort_ignores_case_witness :
  processor.natural_sort_key "Page01.JPG" = processor.natural_sort_key "page01.jpg".
Proof.
  exact (proj1 (natural_sort_ignores_case "Page01.JPG" "page01.jpg"
                  eq_refl eq_refl eq_refl)).
Defined.

(** ** The name of the output archive *)

Lemma endswith_app (s t : string) : processor.endswith (s ++ t) t = true.
Proof.
  unfold processor.endswith. rewrite string_length_app.
  apply andb_true_iff. split; [apply Nat.leb_le; lia|].
  replace (String.length s + String.length t - String.length t)%nat
    with (String.length s) by lia.
  rewrite substring_suffix. apply String.eqb_refl.
Qed.

(** X21. Archives, unlike folders, never stack the output suffix: a stem
    that already ends in [_tinypic] keeps its single suffix, so the output
    of a [.cbz] that was itself produced by the tool carries the name of its
    input; any other stem gets the suffix appended. Feeding the stem of an
    output name back in gives the same output name. A folder whose name
    ends in the suffix gets it a second time. *)
Theorem archive_output_name_suffix (s : string) :
  processor.archive_output_name (s ++ processor.OUTPUT_SUFFIX)
  = ((s ++ processor.OUTPUT_SUFFIX) ++ ".cbz")%string /\
  (processor.endswith s processor.OUTPUT_SUFFIX = false ->
   processor.archive_output_name s = ((s ++ processor.OUTPUT_SUFFIX) ++ ".cbz")%string) /\
  processor.archive_output_name (processor.drop_last 4 (processor.archive_output_name s))
  = processor.archive_output_name s /\
  processor.folder_output_name (s ++ processor.OUTPUT_SUFFIX)
  = (((s ++ processor.OUTPUT_SUFFIX) ++ processor.OUTPUT_SUFFIX) ++ ".cbz")%string.
Proof.
  assert (Hkept : forall base,
             processor.archive_output_name (base ++ processor.OUTPUT_SUFFIX)
             = ((base ++ processor.OUTPUT_SUFFIX) ++ ".cbz")%string).
  { intro base. unfold processor.archive_output_name.
    rewrite endswith_app, drop_last_app, string_app_assoc. reflexivity. }
  split; [apply Hkept|].
  split.
  { intro Hno. unfold processor.archive_output_name. rewrite Hno.
    rewrite string_app_assoc. reflexivity. }
  split.
  - assert (Hform : exists base,
               processor.archive_output_name s
               = ((base ++ processor.OUTPUT_SUFFIX) ++ ".cbz")%string).
    { unfold processor.archive_output_name.
      destruct (processor.endswith s processor.OUTPUT_SUFFIX);
        eexists; rewrite string_app_assoc; reflexivity. }
    destruct Hform as [base ->].
    rewrite (drop_last_app _ ".cbz"). apply Hkept.
  - unfold processor.folder_output_name. rewrite !string_app_assoc. reflexivity.
Qed.

Lemma archive_output_name_suffix_witness :
  processor.archive_output_name "vol1_tinypic" = "vol1_tinypic.cbz" /\
  processor.archive_output_name "vol1" = "vol1_tinypic.cbz" /\
  processor.folder_output_name "vol1_tinypic" = "vol1_tinypic_tinypic.cbz".
Proof.
  destruct (archive_output_name_suffix "vol1") as [Hkept [_ [_ Hfolder]]].
  destruct (archive_output_name_suffix "vol1") as [_ [Hfresh _]].
  split; [exact Hkept|].
  split; [exact (Hfresh eq_refl) | exact Hfolder].
Defined.

(** ** A whole batch *)

Lemma zrange_sorted (start n : Z) : StronglySorted Z.lt (Py.zrange start n).
Proof.
  unfold Py.zrange. generalize (Z.to_nat n) as m. intro m.
  assert (Hgen : forall (m k : nat),
             StronglySorted Z.lt (map (fun i => start + Z.of_nat i) (seq k m))).
  { clear. induction m as [|m IH]; intro k; simpl; constructor; [apply IH|].
    apply Forall_forall. intros x Hx.
    apply in_map_iff in Hx as [i [<- Hi]]. apply in_seq in Hi. lia. }
  apply Hgen.
Qed.

Lemma zrange_in (n k : Z) : In k (Py.zrange 0 n) -> 0 <= k < n.
Proof.
  unfold Py.zrange. intro Hk. apply in_map_iff in Hk as [i [<- Hi]].
  apply in_seq in Hi. lia.
Qed.

Lemma zrange_length (start n : Z) : List.length (Py.zrange start n) = Z.to_nat n.
Proof. unfold Py.zrange. rewrite length_map, length_seq. reflexivity. Qed.

Lemma map_fst_combine {A B : Type} (a : list A) :
  forall b : list B, List.length a = List.length b -> map fst (combine a b) = a.
Proof.
  induction a as [|x a IH]; intros [|y b] Hlen; simpl in *; try discriminate;
    [reflexivity|].
  rewrite IH by lia. reflexivity.
Qed.

Lemma make_tasks_index (self : processor.TaskProcessor) (pages : list (list byte)) :
  map processor.task_index (processor.make_tasks self pages)
  = Py.zrange 0 (Py.len pages).
Proof.
  unfold processor.make_tasks. rewrite map_map. simpl.
  rewrite <- (map_fst_combine (Py.zrange 0 (Py.len pages)) pages) at 2.
  - reflexivity.
  - rewrite zrange_length. unfold Py.len. lia.
Qed.

Lemma make_tasks_length (self : processor.TaskProcessor) (pages : list (list byte)) :
  List.length (processor.make_tasks self pages) = List.length pages.
Proof.
  rewrite <- (length_map processor.task_index), make_tasks_index, zrange_length.
  unfold Py.len. lia.
Qed.

Section Batches.
Context `{L : Libs}.

(** Whatever the completion order, the sorted keys select the pages in
    input order. *)
Lemma successes_payloads (tasks completed : list processor.task) :
  StronglySorted Z.lt (map processor.task_index tasks) ->
  Permutation completed tasks ->
  flat_map (buffers_of (successes completed))
           (processor.sorted (processor.keys (successes completed)))
  = flat_map page_buffers tasks.
Proof.
  intros Hsorted Hperm.
  assert (Hnd : NoDup (map processor.task_index tasks)).
  { clear -Hsorted. induction Hsorted as [|a l Hs IH Ha]; constructor; [|exact IH].
    rewrite Forall_forall in Ha. intro Hin. specialize (Ha a Hin). lia. }
  assert (Hndc : NoDup (map processor.task_index completed)).
  { apply (Permutation_NoDup (Permutation_map _ (Permutation_sym Hperm))). exact Hnd. }
  assert (Hpd : Permutation (successes completed) (successes tasks)).
  { unfold successes. apply Permutation_flat_map. exact Hperm. }
  rewrite (sorted_of_permutation _ (processor.keys (successes tasks))).
  - rewrite sorted_already by (apply successes_keys_sorted; exact Hsorted).
    apply buffers_in_task_order.
    intros t r Hin Er.
    rewrite (dict_get_permutation _ _ _ (successes_keys_nodup _ Hndc) Hpd).
    apply dict_get_of_in; [apply successes_keys_nodup; exact Hnd|].
    unfold successes. apply in_flat_map. exists t. split; [exact Hin|].
    rewrite Er. left. reflexivity.
  - apply successes_keys_nodup. exact Hndc.
  - unfold processor.keys. apply Permutation_map. exact Hpd.
Qed.

End Batches.

(** X22. A whole batch, from the sorted entries to the archive: tasks are
    numbered from 0 in entry order, and when every worker completes (in any
    order) and nobody cancels, the run never aborts, however many pages fail
    to decode. The archive holds the pages of the entries in entry order;
    every entry is counted exactly once, as processed or as an error line;
    [compressed_size] is the number of payload bytes in the archive. *)
Theorem batch_accounts_for_every_entry `{Libs} (self : processor.TaskProcessor)
    (entries : list (string * list byte)) (completed : list processor.task) :
  Permutation completed (processor.make_tasks self (map snd entries)) ->
  map processor.task_index (processor.make_tasks self (map snd entries))
  = Py.zrange 0 (Py.len entries) /\
  exists zf stats,
    processor.process_entries self entries completed (fun _ => false) = Ok (zf, stats) /\
    processor.zf_compression zf = processor.ZIP_STORED /\
    map snd (processor.zf_entries zf)
    = flat_map page_buffers (processor.make_tasks self (map snd entries)) /\
    processor.total_files stats = Py.len entries /\
    processor.processed_files stats + Py.len (processor.errors stats) = Py.len entries /\
    processor.errors stats = failures (map fst entries) completed /\
    processor.compressed_size stats = total_len (map snd (processor.zf_entries zf)).
Proof.
  intro Hperm.
  set (tasks := processor.make_tasks self (map snd entries)) in *.
  assert (Hidx : map processor.task_index tasks = Py.zrange 0 (Py.len entries)).
  { unfold tasks. rewrite make_tasks_index. unfold Py.len. rewrite length_map. reflexivity. }
  split; [exact Hidx|].
  assert (Hsorted : StronglySorted Z.lt (map processor.task_index tasks)).
  { rewrite Hidx. apply zrange_sorted. }
  assert (Hnd : NoDup (map processor.task_index tasks)).
  { clear -Hsorted. induction Hsorted as [|a l Hs IH Ha]; constructor; [|exact IH].
    rewrite Forall_forall in Ha. intro Hin. specialize (Ha a Hin). lia. }
  assert (Hndc : NoDup (map processor.task_index completed)).
  { apply (Permutation_NoDup (Permutation_map _ (Permutation_sym Hperm))). exact Hnd. }
  assert (Hrange : forall t, In t completed ->
                     0 <= processor.task_index t < Py.len (map fst entries)).
  { intros t Ht. unfold Py.len. rewrite length_map. apply zrange_in.
    fold (Py.len entries). rewrite <- Hidx. apply in_map.
    apply (Permutation_in _ Hperm). exact Ht. }
  unfold processor.process_entries, processor._process_images_parallel.
  fold tasks.
  rewrite collect_outcome by (simpl; assumption).
  rewrite consumed_no_cancel. cbn [Py.bind app].
  rewrite write_results_outcome.
  eexists. eexists. split; [reflexivity|].
  cbn [processor.zf_compression processor.zf_entries processor.total_files
       processor.processed_files processor.original_size processor.compressed_size
       processor.errors app].
  split; [reflexivity|].
  rewrite number_pages_payload.
  split; [apply successes_payloads; assumption|].
  split; [unfold tasks, Py.len; rewrite make_tasks_length, length_map; reflexivity|].
  split; [|split; reflexivity].
  pose proof (successes_failures_length (map fst entries) completed Hrange) as Hcount.
  pose proof (Permutation_length Hperm) as Hlen.
  unfold tasks in Hlen. rewrite make_tasks_length, length_map in Hlen.
  unfold Py.len. lia.
Qed.

Lemma batch_accounts_for_every_entry_witness :
  let self := processor.TaskProcessor_init 72 4 "none" 1%Q in
  let entries := [("a.jpg", Reference.spread_jpeg); ("b.jpg", Reference.garbage);
                  ("c.png", Reference.spread_png)] in
  let completed : list processor.task :=
    [ (1, Reference.garbage, false, 72, "none", 1%Q);
      (2, Reference.spread_png, false, 72, "none", 1%Q);
      (0, Reference.spread_jpeg, true, 72, "none", 1%Q) ] in
  exists zf stats,
    processor.process_entries (L := Reference.RefLibs) self entries completed
      (fun _ => false) = Ok (zf, stats) /\
    List.length (processor.zf_entries zf) = 3%nat /\
    processor.processed_files stats = 2 /\
    List.length (processor.errors stats) = 1%nat.
Proof.
  intros self entries completed.
  destruct (batch_accounts_for_every_entry (H := Reference.RefLibs) self entries completed)
    as [_ [zf [stats [Erun [_ [Hpay [_ [Hcount [Herr _]]]]]]]]].
  - exact (Permutation_sym
             (Permutation_cons_append
                [(1, Reference.garbage, false, 72, "none", 1%Q);
                 (2, Reference.spread_png, false, 72, "none", 1%Q)]
                (0, Reference.spread_jpeg, true, 72, "none", 1%Q))).
  - exists zf, stats. split; [exact Erun|].
    assert (Hlen : List.length (processor.errors stats) = 1%nat).
    { rewrite Herr. vm_compute. reflexivity. }
    split.
    + rewrite <- (length_map snd), Hpay. vm_compute. reflexivity.
    + split; [|exact Hlen]. unfold Py.len in Hcount. rewrite Hlen in Hcount.
      simpl in Hcount. lia.
Defined.

(** ** Margin cropping on pages of ordinary size *)

Lemma detect_background_color_ok `{Libs} (img : Image) :
  6 <= width img -> 6 <= height img ->
  exists bg, cropper.detect_background_color img = Ok bg.
Proof.
  intros H6w H6h.
  set (gray := if negb (String.eqb (mode img) "L") then grayscale img else img).
  assert (Hw : width gray = width img) by (unfold gray; destruct (negb _); reflexivity).
  assert (Hh : height gray = height img) by (unfold gray; destruct (negb _); reflexivity).
  unfold cropper.detect_background_color. fold gray. unfold size, getpixel.
  rewrite Hw, Hh.
  assert (Hin : forall x y, 0 <= x < width img -> 0 <= y < height img ->
                            in_image gray x y = true).
  { intros x y Hx Hy. unfold in_image. rewrite Hw, Hh.
    repeat (apply andb_true_iff; split);
      try (apply Z.leb_le; lia); apply Z.ltb_lt; lia. }
  change (5 <? 0) with false. cbv iota.
  assert (E6w : (width img - 6 <? 0) = false) by (apply Z.ltb_ge; lia).
  assert (E6h : (height img - 6 <? 0) = false) by (apply Z.ltb_ge; lia).
  rewrite E6w, E6h.
  rewrite !Hin by lia. simpl. eexists. reflexivity.
Qed.

Lemma int_of_int (n : Z) : Py.int_ (inject_Z n) = n.
Proof. unfold Py.int_. simpl. apply Z.quot_1_r. Qed.

Lemma int_fraction_bounds (c : Q) (n : Z) :
  (0 <= c)%Q -> (c <= 1)%Q -> 0 <= n -> 0 <= Py.int_ (c * inject_Z n)%Q <= n.
Proof.
  intros Hc0 Hc1 Hn.
  assert (Hq : (0 <= inject_Z n)%Q) by (unfold Qle; simpl; lia).
  split.
  - change 0 with (Py.int_ (inject_Z 0)). apply int_monotone.
    change (inject_Z 0) with 0%Q. apply Qmult_le_0_compat; assumption.
  - rewrite <- (int_of_int n) at 2. apply int_monotone.
    rewrite <- (Qmult_1_l (inject_Z n)) at 2.
    apply Qmult_le_compat_r; assumption.
Qed.

Lemma clear_sparse_edge_ok (bw_img : Image) (l u r d : Z) :
  l <= r -> u <= d ->
  exists bw', cropper.clear_sparse_edge bw_img (l, u, r, d) = Ok bw' /\
              width bw' = width bw_img /\ height bw' = height bw_img.
Proof.
  intros Hlr Hud. unfold cropper.clear_sparse_edge, crop.
  destruct (r <? l) eqn:E1; [apply Z.ltb_lt in E1; lia|].
  destruct (d <? u) eqn:E2; [apply Z.ltb_lt in E2; lia|].
  cbn [Py.bind height width].
  destruct ((d - u =? 0) || (r - l =? 0)) eqn:E0.
  - exists bw_img. repeat split.
  - apply orb_false_iff in E0 as [Eh Ew].
    apply Z.eqb_neq in Eh, Ew.
    unfold Py.truediv.
    destruct ((d - u) * (r - l) =? 0) eqn:Ez; [apply Z.eqb_eq in Ez; nia|].
    cbn [Py.bind].
    match goal with
    | |- context [if ?c then _ else _] => destruct c
    end.
    + eexists. split; [reflexivity|]. split; reflexivity.
    + exists bw_img. repeat split.
Qed.

Lemma ignore_pixels_near_edge_ok (bw_img : Image) :
  0 <= width bw_img -> 0 <= height bw_img ->
  exists bw', cropper.ignore_pixels_near_edge bw_img = Ok bw'.
Proof.
  intros Hw Hh. unfold cropper.ignore_pixels_near_edge, size.
  pose proof (int_fraction_bounds (2 # 100) (height bw_img)
                ltac:(discriminate) ltac:(discriminate) Hh) as B1.
  pose proof (int_fraction_bounds (98 # 100) (height bw_img)
                ltac:(discriminate) ltac:(discriminate) Hh) as B2.
  pose proof (int_fraction_bounds (2 # 100) (width bw_img)
                ltac:(discriminate) ltac:(discriminate) Hw) as B3.
  pose proof (int_fraction_bounds (98 # 100) (width bw_img)
                ltac:(discriminate) ltac:(discriminate) Hw) as B4.
  cbn [fold_left Py.bind].
  destruct (clear_sparse_edge_ok bw_img 0 0 (width bw_img)
              (Py.int_ ((2 # 100) * inject_Z (height bw_img))))
    as [bw1 [-> [W1 H1]]]; [lia | lia |].
  cbn [Py.bind].
  destruct (clear_sparse_edge_ok bw1 0 (Py.int_ ((98 # 100) * inject_Z (height bw_img)))
              (width bw_img) (height bw_img))
    as [bw2 [-> [W2 H2]]]; [lia | lia |].
  cbn [Py.bind].
  destruct (clear_sparse_edge_ok bw2 0 0 (Py.int_ ((2 # 100) * inject_Z (width bw_img)))
              (height bw_img))
    as [bw3 [-> [W3 H3]]]; [lia | lia |].
  cbn [Py.bind].
  destruct (clear_sparse_edge_ok bw3 (Py.int_ ((98 # 100) * inject_Z (width bw_img))) 0
              (width bw_img) (height bw_img))
    as [bw4 [-> _]]; [lia | lia |].
  exists bw4. reflexivity.
Qed.

Lemma fold_min_lower_bound (l : list Z) (a m : Z) :
  m <= a -> (forall x, In x l -> m <= x) -> m <= fold_left Z.min l a.
Proof.
  revert a. induction l as [|y l IH]; intros a Ha Hl; simpl; [exact Ha|].
  apply IH; [|intros x Hx; apply Hl; right; exact Hx].
  specialize (Hl y (or_introl eq_refl)). lia.
Qed.

Lemma in_combine_zrange {A : Type} (n : Z) (l : list A) (x : Z) (a : A) :
  In (x, a) (combine (Py.zrange 0 n) l) -> 0 <= x.
Proof.
  intro Hin. apply in_combine_l in Hin. unfold Py.zrange in Hin.
  apply in_map_iff in Hin as [i [<- _]]. lia.
Qed.

(** The bounding box of the marked pixels is a proper box. *)
Lemma getbbox_proper (img : Image) (l u r d : Z) :
  getbbox img = Some (l, u, r, d) -> 0 <= l < r /\ 0 <= u < d.
Proof.
  unfold getbbox.
  set (marked := flat_map _ _).
  assert (Hpos : forall x y, In (x, y) marked -> 0 <= x /\ 0 <= y).
  { intros x y Hin. unfold marked in Hin.
    apply in_flat_map in Hin as [[y' row] [Hrow Hin]].
    apply in_map_iff in Hin as [[x' p] [E Hin]]. simpl in E. injection E as -> ->.
    apply filter_In in Hin as [Hin _].
    split; [eapply in_combine_zrange; exact Hin | eapply in_combine_zrange; exact Hrow]. }
  destruct marked as [|[x0 y0] rest]; [discriminate|].
  intro E. injection E as <- <- <- <-.
  destruct (Hpos x0 y0 (or_introl eq_refl)) as [Hx0 Hy0].
  pose proof (proj1 (fold_min_le (map fst rest) x0)) as Lx.
  pose proof (proj1 (fold_max_ge (map fst rest) x0)) as Ux.
  pose proof (proj1 (fold_min_le (map snd rest) y0)) as Ly.
  pose proof (proj1 (fold_max_ge (map snd rest) y0)) as Uy.
  assert (Bx : 0 <= fold_left Z.min (map fst rest) x0).
  { apply fold_min_lower_bound; [exact Hx0|].
    intros x Hx. apply in_map_iff in Hx as [[x' y'] [<- Hin]].
    apply (Hpos x' y'). right. exact Hin. }
  assert (By : 0 <= fold_left Z.min (map snd rest) y0).
  { apply fold_min_lower_bound; [exact Hy0|].
    intros y Hy. apply in_map_iff in Hy as [[x' y'] [<- Hin]].
    apply (Hpos x' y'). right. exact Hin. }
  lia.
Qed.

(** X23. On a page at least 6 pixels wide and high [crop_margins] never
    raises, at any power and with any codec behind it: every pixel read and
    every edge box is inside the page. It returns the page itself or a crop
    of it to a proper box, which has at least one row and one column and
    the mode of the page; margin cropping never produces an empty image. *)
Theorem crop_margins_total `{Libs} (img : Image) (power : Q) :
  6 <= width img -> 6 <= height img ->
  exists cropped,
    cropper.crop_margins img power = Ok cropped /\
    mode cropped = mode img /\
    (cropped = img \/
     exists l u r d,
       crop img (l, u, r, d) = Ok cropped /\
       0 <= l < r /\ 0 <= u < d /\
       width cropped = r - l /\ height cropped = d - u).
Proof.
  intros H6w H6h. unfold cropper.crop_margins.
  destruct (Py.Qleb power 0); [exists img; split; [reflexivity | split; [reflexivity | left; reflexivity]]|].
  unfold cropper.content_mask.
  destruct (detect_background_color_ok img H6w H6h) as [bg ->]. cbn [Py.bind].
  match goal with
  | |- context [cropper.ignore_pixels_near_edge ?bw] =>
      destruct (ignore_pixels_near_edge_ok bw) as [bw' ->]
  end.
  - simpl. destruct (negb (String.eqb (mode img) "L")); destruct (negb (String.eqb bg "white"));
      simpl; lia.
  - simpl. destruct (negb (String.eqb (mode img) "L")); destruct (negb (String.eqb bg "white"));
      simpl; lia.
  - cbn [Py.bind].
    destruct (getbbox bw') as [[[[l u] r] d]|] eqn:Eb.
    + destruct (getbbox_proper bw' l u r d Eb) as [Hlr Hud].
      unfold crop.
      destruct (r <? l) eqn:E1; [apply Z.ltb_lt in E1; lia|].
      destruct (d <? u) eqn:E2; [apply Z.ltb_lt in E2; lia|].
      eexists. split; [reflexivity|]. split; [reflexivity|].
      right. exists l, u, r, d. rewrite E1, E2.
      repeat split; lia.
    + exists img. split; [reflexivity|]. split; [reflexivity | left; reflexivity].
Qed.

Lemma crop_margins_total_witness :
  exists cropped,
    cropper.crop_margins (L := Reference.RefLibs) Reference.bordered_page 1 = Ok cropped /\
    width cropped = 10 /\ height cropped = 10.
Proof.
  destruct (crop_margins_total (H := Reference.RefLibs) Reference.bordered_page 1)
    as [cropped [E _]]; [vm_compute; discriminate | vm_compute; discriminate |].
  exists cropped. split; [exact E|].
  vm_compute in E. injection E as <-. split; reflexivity.
Defined.
